(** * The e-commerce sales generator (src/sales_generator.py)

    A shallow embedding of the order lifecycle engine: the order factory,
    the lifecycle policy, the active-orders registry, the event loop of
    [run_generator], its shutdown report and the argument checks of [main].

    Python dictionaries holding the fields of one order are finite maps
    from field names to values; the registry [active_orders] keeps Python's
    insertion order, because the loop iterates over it.  Order dictionaries
    are objects mutated in place, so they live in a store and the registry
    holds references into it.  Everything the program reads from outside (the
    random module, the clock, Faker, the broker's acknowledgements) is an
    oracle, and everything it writes goes to a log. *)

From stdpp Require Import gmap strings list fin_maps pretty.
From Stdlib Require Import QArith Qround Lqa.

Local Open Scope string_scope.
Local Open Scope list_scope.
Local Open Scope Z_scope.

(** ** Exceptions and the two monads *)

Inductive exn :=
| KeyError            (* d[k] with k absent *)
| ValueError          (* list.index(x) with x absent, randint on an empty range *)
| IndexError          (* random.choice([]) *)
| TypeError           (* a field holding a value of another type *)
| ZeroDivisionError   (* x / 0 *)
| StoreError.         (* a reference outside the object store; no Python counterpart *)

Inductive res (A : Type) :=
| Ok (a : A)
| Raise (e : exn).
Arguments Ok {A} a.
Arguments Raise {A} e.

Definition rbind {A B} (m : res A) (k : A -> res B) : res B :=
  match m with
  | Ok a => k a
  | Raise e => Raise e
  end.

Notation "x <~ m ;; k" := (rbind m (fun x => k))
  (at level 100, m at next level, right associativity).

Definition of_option {A} (e : exn) (o : option A) : res A :=
  match o with
  | Some a => Ok a
  | None => Raise e
  end.

(** ** Values and order dictionaries *)

Inductive value :=
| VStr (s : string)
| VInt (z : Z)
| VFloat (q : Q)
| VAddr (a : gmap string string).

Abbreviation Order := (gmap string value).

(** [d[k]] *)
Definition getitem (d : Order) (k : string) : res value :=
  of_option KeyError (d !! k).

(** [d[k]] where the program goes on to use the value as a string. *)
Definition get_str (d : Order) (k : string) : res string :=
  v <~ getitem d k ;;
  match v with
  | VStr s => Ok s
  | _ => Raise TypeError
  end.

(** [d[k]] where the program goes on to use the value as a number. *)
Definition get_num (d : Order) (k : string) : res Q :=
  v <~ getitem d k ;;
  match v with
  | VFloat q => Ok q
  | VInt z => Ok (inject_Z z)
  | _ => Raise TypeError
  end.

(** ** The registry: an insertion-ordered dictionary *)

Section PyDict.
Context {V : Type}.

Definition pydict := list (string * V).

Fixpoint dict_get (k : string) (d : pydict) : option V :=
  match d with
  | [] => None
  | (k', v) :: d' => if decide (k = k') then Some v else dict_get k d'
  end.

(** [d[k] = v]: replaces the value in place when [k] is present, appends
    the item otherwise. *)
Fixpoint dict_set (k : string) (v : V) (d : pydict) : pydict :=
  match d with
  | [] => [(k, v)]
  | (k', v') :: d' =>
      if decide (k = k') then (k', v) :: d' else (k', v') :: dict_set k v d'
  end.

(** [del d[k]] on a dictionary that has [k]. *)
Fixpoint dict_del (k : string) (d : pydict) : pydict :=
  match d with
  | [] => []
  | (k', v') :: d' =>
      if decide (k = k') then d' else (k', v') :: dict_del k d'
  end.

Definition dict_keys (d : pydict) : list string := d.*1.
Definition dict_values (d : pydict) : list V := d.*2.
End PyDict.
Arguments pydict V : clear implicits.

(** ** Module constants *)

Record product := {
  p_id : string;
  p_name : string;
  p_price_range : Q * Q
}.

Definition PRODUCTS : list product := [
  {| p_id := "PROD-001"; p_name := "Wireless Bluetooth Headphones"; p_price_range := (2999 # 100, 19999 # 100)%Q |};
  {| p_id := "PROD-002"; p_name := "Smart Watch"; p_price_range := (9999 # 100, 49999 # 100)%Q |};
  {| p_id := "PROD-003"; p_name := "Laptop Stand"; p_price_range := (1999 # 100, 8999 # 100)%Q |};
  {| p_id := "PROD-004"; p_name := "USB-C Cable"; p_price_range := (999 # 100, 2999 # 100)%Q |};
  {| p_id := "PROD-005"; p_name := "Mechanical Keyboard"; p_price_range := (5999 # 100, 29999 # 100)%Q |};
  {| p_id := "PROD-006"; p_name := "Wireless Mouse"; p_price_range := (1999 # 100, 12999 # 100)%Q |};
  {| p_id := "PROD-007"; p_name := "Phone Case"; p_price_range := (1499 # 100, 4999 # 100)%Q |};
  {| p_id := "PROD-008"; p_name := "Portable Charger"; p_price_range := (2499 # 100, 7999 # 100)%Q |};
  {| p_id := "PROD-009"; p_name := "LED Desk Lamp"; p_price_range := (2999 # 100, 8999 # 100)%Q |};
  {| p_id := "PROD-010"; p_name := "Webcam HD"; p_price_range := (3999 # 100, 19999 # 100)%Q |};
  {| p_id := "PROD-011"; p_name := "External Hard Drive"; p_price_range := (4999 # 100, 19999 # 100)%Q |};
  {| p_id := "PROD-012"; p_name := "Monitor 27 inch"; p_price_range := (19999 # 100, 69999 # 100)%Q |};
  {| p_id := "PROD-013"; p_name := "Gaming Chair"; p_price_range := (14999 # 100, 49999 # 100)%Q |};
  {| p_id := "PROD-014"; p_name := "Desk Organizer"; p_price_range := (1299 # 100, 3999 # 100)%Q |};
  {| p_id := "PROD-015"; p_name := "Bluetooth Speaker"; p_price_range := (2999 # 100, 24999 # 100)%Q |}
].

Definition PAYMENT_METHODS : list string :=
  ["credit_card"; "debit_card"; "paypal"; "apple_pay"; "google_pay"; "bank_transfer"].

Definition ORDER_STATUS_FLOW : list string :=
  ["pending"; "confirmed"; "processing"; "shipped"].

Definition STATUS_TRANSITION_TIMES : gmap string (Z * Z) :=
  <["pending" := (10, 30)]> (<["confirmed" := (15, 45)]> (<["processing" := (20, 60)]> ∅)).

Definition CANCELLATION_PROBABILITY : Q := (8 # 100)%Q.

Definition CANCELLATION_REASONS : gmap string (list string) :=
  <["pending" := ["payment_failed"; "payment_declined"; "customer_cancelled"; "fraud_suspected"]]>
  (<["confirmed" := ["inventory_unavailable"; "customer_cancelled"; "payment_verification_failed"; "address_invalid"]]>
  (<["processing" := ["customer_cancelled"; "inventory_damaged"; "shipping_address_unreachable"; "customer_requested_cancellation"]]> ∅)).

(** The keys the loop leaves out of every payload. *)
Definition INTERNAL_FIELDS : list string := ["last_status_change"; "transition_time"].

(** ** What the program writes *)

Inductive site := AtCreation | AtStatusUpdate.

(** The log holds what the loop and the shutdown write: records sent to the
    broker, records printed on the console, warnings and other lines.  The
    banner printed before the loop is left out, and the statistics printed
    at the end are the fields of [Report].  [src] is the store index of the
    order object the payload was copied from (the variable [sale] or [order]
    at the emission site). *)
Inductive output :=
| ToKafka (s : site) (src : nat) (topic : option string) (key : string) (payload : Order) (acked : bool)
| ToConsole (s : site) (src : nat) (payload : Order)
| Warning (s : site) (order_id : string)
| Line (msg : string).

Definition payload_of (o : output) : option Order :=
  match o with
  | ToKafka _ _ _ _ p _ => Some p
  | ToConsole _ _ p => Some p
  | _ => None
  end.

Definition src_of (o : output) : option nat :=
  match o with
  | ToKafka _ src _ _ _ _ => Some src
  | ToConsole _ src _ => Some src
  | _ => None
  end.

Definition site_of (o : output) : option site :=
  match o with
  | ToKafka s _ _ _ _ _ => Some s
  | ToConsole s _ _ => Some s
  | Warning s _ => Some s
  | Line _ => None
  end.

(** ** What the program reads *)

Record Oracle := {
  rand_bits : nat -> N;      (* successive outputs of the random module's generator *)
  clock : nat -> Q;          (* successive readings of time.time() *)
  utc : nat -> string;       (* successive datetime.utcnow().isoformat() *)
  faker : nat -> string;     (* successive Faker outputs *)
  kafka_up : bool;           (* does create_kafka_producer return a producer *)
  kafka_ack : nat -> bool    (* does the n-th future.get(timeout=10) return *)
}.

Record World := {
  n_rand : nat;
  n_clock : nat;
  n_utc : nat;
  n_faker : nat;
  n_ack : nat;
  out : list output
}.

Definition world0 : World :=
  {| n_rand := 0; n_clock := 0; n_utc := 0; n_faker := 0; n_ack := 0; out := [] |}.

Definition M (A : Type) : Type := World -> res (A * World).

Definition ret {A} (a : A) : M A := fun w => Ok (a, w).

Definition bind {A B} (m : M A) (k : A -> M B) : M B :=
  fun w =>
    match m w with
    | Ok (a, w') => k a w'
    | Raise e => Raise e
    end.

Definition lift {A} (r : res A) : M A :=
  fun w =>
    match r with
    | Ok a => Ok (a, w)
    | Raise e => Raise e
    end.

Notation "x <- m ;; k" := (bind m (fun x => k))
  (at level 100, m at next level, right associativity).
Notation "m ;;; k" := (bind m (fun _ => k))
  (at level 100, right associativity).

Definition emit (o : output) : M unit :=
  fun w =>
    Ok (tt, {| n_rand := n_rand w; n_clock := n_clock w; n_utc := n_utc w;
               n_faker := n_faker w; n_ack := n_ack w; out := out w ++ [o] |}).

Definition when (b : bool) (m : M unit) : M unit :=
  if b then m else ret tt.

(** [round(x, 2)], on exact rationals: to the nearest hundredth, ties to even. *)
Definition round_half_even (q : Q) : Z :=
  let f := Qfloor q in
  let d := (q - inject_Z f)%Q in
  match (d ?= 1 # 2)%Q with
  | Lt => f
  | Gt => f + 1
  | Eq => if Z.even f then f else f + 1
  end.

Definition round2 (q : Q) : Q := (inject_Z (round_half_even (q * 100)) / 100)%Q.

(** [l.index(x)] *)
Fixpoint list_index (x : string) (l : list string) : res nat :=
  match l with
  | [] => Raise ValueError
  | y :: l' => if decide (x = y) then Ok 0%nat else i <~ list_index x l' ;; Ok (S i)
  end.

(** [a < b] on floats; [a <= b] is [Qle_bool]. *)
Definition Qlt_bool (a b : Q) : bool := negb (Qle_bool b a).

(** [x in l] *)
Definition str_in (x : string) (l : list string) : bool := bool_decide (x ∈ l).

(** ** The library calls, over an oracle *)

Section Generator.
Variable orc : Oracle.

Definition random_getrandbits : M N :=
  fun w =>
    Ok (rand_bits orc (n_rand w),
        {| n_rand := S (n_rand w); n_clock := n_clock w; n_utc := n_utc w;
           n_faker := n_faker w; n_ack := n_ack w; out := out w |}).

(** [random.random()]: 53 random bits scaled into [0, 1). *)
Definition random_random : M Q :=
  b <- random_getrandbits ;;
  ret (Z.of_N (b mod 2 ^ 53) # 2 ^ 53)%Q.

(** [random.uniform(a, b)] is [a + (b - a) * random()]. *)
Definition random_uniform (a b : Q) : M Q :=
  u <- random_random ;;
  ret (a + (b - a) * u)%Q.

(** [random.randint(a, b)] *)
Definition random_randint (a b : Z) : M Z :=
  if b <? a then lift (Raise ValueError)
  else b' <- random_getrandbits ;; ret (a + Z.of_N b' mod (b - a + 1)).

(** [random.choice(seq)] *)
Definition random_choice {A} (seq : list A) : M A :=
  match seq with
  | [] => lift (Raise IndexError)
  | _ =>
      b <- random_getrandbits ;;
      lift (of_option IndexError (seq !! N.to_nat (b mod N.of_nat (length seq))))
  end.

Definition time_time : M Q :=
  fun w =>
    Ok (clock orc (n_clock w),
        {| n_rand := n_rand w; n_clock := S (n_clock w); n_utc := n_utc w;
           n_faker := n_faker w; n_ack := n_ack w; out := out w |}).

(** [datetime.utcnow().isoformat() + "Z"] *)
Definition utcnow_isoformat_Z : M string :=
  fun w =>
    Ok (utc orc (n_utc w) +:+ "Z",
        {| n_rand := n_rand w; n_clock := n_clock w; n_utc := S (n_utc w);
           n_faker := n_faker w; n_ack := n_ack w; out := out w |}).

Definition fake : M string :=
  fun w =>
    Ok (faker orc (n_faker w),
        {| n_rand := n_rand w; n_clock := n_clock w; n_utc := n_utc w;
           n_faker := S (n_faker w); n_ack := n_ack w; out := out w |}).

Definition future_get : M bool :=
  fun w =>
    Ok (kafka_ack orc (n_ack w),
        {| n_rand := n_rand w; n_clock := n_clock w; n_utc := n_utc w;
           n_faker := n_faker w; n_ack := S (n_ack w); out := out w |}).

(** ** The order factory *)

Definition generate_order_id : M string :=
  n <- random_randint 10000000 99999999 ;;
  ret ("ORD-" +:+ pretty n).

Definition generate_customer_id : M string :=
  n <- random_randint 100000 999999 ;;
  ret ("CUST-" +:+ pretty n).

Definition generate_address : M (gmap string string) :=
  street <- fake ;;
  city <- fake ;;
  state <- fake ;;
  zip_code <- fake ;;
  country <- fake ;;
  ret (<["street" := street]> (<["city" := city]> (<["state" := state]>
       (<["zip_code" := zip_code]> (<["country" := country]> ∅))))).

Definition generate_sale : M Order :=
  product <- random_choice PRODUCTS ;;
  quantity <- random_randint 1 5 ;;
  u <- random_uniform (p_price_range product).1 (p_price_range product).2 ;;
  let unit_price := round2 u in
  let total := round2 (inject_Z quantity * unit_price) in
  order_id <- generate_order_id ;;
  timestamp <- utcnow_isoformat_Z ;;
  customer_id <- generate_customer_id ;;
  customer_email <- fake ;;
  payment_method <- random_choice PAYMENT_METHODS ;;
  shipping_address <- generate_address ;;
  ret (<["status" := VStr "pending"]>
      (<["shipping_address" := VAddr shipping_address]>
      (<["payment_method" := VStr payment_method]>
      (<["customer_email" := VStr customer_email]>
      (<["customer_id" := VStr customer_id]>
      (<["total" := VFloat total]>
      (<["price" := VFloat unit_price]>
      (<["quantity" := VInt quantity]>
      (<["product_name" := VStr (p_name product)]>
      (<["product_id" := VStr (p_id product)]>
      (<["timestamp" := VStr timestamp]>
      (<["order_id" := VStr order_id]> ∅)))))))))))).

(** ** The lifecycle policy *)

Definition get_next_status (current_status : string) : res string :=
  current_index <~ list_index current_status ORDER_STATUS_FLOW ;;
  if (current_index <? length ORDER_STATUS_FLOW - 1)%nat
  then of_option IndexError (ORDER_STATUS_FLOW !! (current_index + 1)%nat)
  else Ok current_status.

Definition should_cancel_order (status : string) : M bool :=
  if str_in status ["shipped"; "cancelled"] then ret false
  else
    u <- random_random ;;
    ret (Qlt_bool u CANCELLATION_PROBABILITY).

(** [status in CANCELLATION_REASONS] hashes the status: a string is looked
    up, a number is a key of no entry, a dictionary is unhashable. *)
Definition cancel_order (order : Order) (current_time : Q) : M Order :=
  status <- lift (getitem order "status") ;;
  reason <- match status with
            | VStr s =>
                match CANCELLATION_REASONS !! s with
                | Some reasons => random_choice reasons
                | None => ret "order_cancelled"
                end
            | VInt _ | VFloat _ => ret "order_cancelled"
            | VAddr _ => lift (Raise TypeError)
            end ;;
  timestamp <- utcnow_isoformat_Z ;;
  ret (<["last_status_change" := VFloat current_time]>
      (<["timestamp" := VStr timestamp]>
      (<["cancellation_reason" := VStr reason]>
      (<["status" := VStr "cancelled"]> order)))).

Definition should_advance_order (order : Order) (current_time : Q) : res bool :=
  status <~ get_str order "status" ;;
  if str_in status ["shipped"; "cancelled"] then Ok false
  else
    last <~ get_num order "last_status_change" ;;
    let time_in_status := (current_time - last)%Q in
    _ <~ of_option KeyError (STATUS_TRANSITION_TIMES !! status) ;;
    transition_time <~ get_num order "transition_time" ;;
    Ok (Qle_bool transition_time time_in_status).

Definition advance_order_status (order : Order) (current_time : Q) : M Order :=
  old_status <- lift (get_str order "status") ;;
  cancel <- should_cancel_order old_status ;;
  if cancel then cancel_order order current_time
  else
    new_status <- lift (get_next_status old_status) ;;
    timestamp <- utcnow_isoformat_Z ;;
    let order :=
      <["last_status_change" := VFloat current_time]>
      (<["timestamp" := VStr timestamp]>
      (<["status" := VStr new_status]> order)) in
    if bool_decide (new_status ≠ "shipped") then
      range <- lift (of_option KeyError (STATUS_TRANSITION_TIMES !! new_status)) ;;
      t <- random_uniform (inject_Z range.1) (inject_Z range.2) ;;
      ret (<["transition_time" := VFloat t]> order)
    else ret order.

(** ** The session *)

(** The parameters of [run_generator].  The two delays are integers taken
    within the range of floats: beyond it [random.uniform] raises
    OverflowError at line 298, before the loop. *)
Record Config := {
  duration_minutes : Z;
  min_delay : Z;
  max_delay : Z;
  kafka_bootstrap_servers : option string;
  kafka_topic : option string;
  output_console : bool
}.

(** Truth value of an [Optional[str]]: [None] and the empty string are false. *)
Definition truthy (o : option string) : bool :=
  match o with
  | Some s => bool_decide (s ≠ "")
  | None => false
  end.

(** The local variables of [run_generator] that the loop only reads. *)
Record Locals := {
  cfg : Config;
  kafka_producer : bool;      (* is [kafka_producer] a producer (not [None]) *)
  start_time : Q
}.

Definition duration_seconds (L : Locals) : Z := duration_minutes (cfg L) * 60.

(** The local variables the loop updates, and the order objects. *)
Record Session := {
  store : list Order;
  active_orders : pydict nat;
  new_orders_count : Z;
  status_updates_count : Z;
  shipped_orders_count : Z;
  cancelled_orders_count : Z;
  next_order_time : Q
}.

Definition with_orders (st : Session) (s : list Order) (a : pydict nat) : Session :=
  {| store := s; active_orders := a;
     new_orders_count := new_orders_count st;
     status_updates_count := status_updates_count st;
     shipped_orders_count := shipped_orders_count st;
     cancelled_orders_count := cancelled_orders_count st;
     next_order_time := next_order_time st |}.

Definition with_counts (st : Session) (created updates shipped cancelled : Z) : Session :=
  {| store := store st; active_orders := active_orders st;
     new_orders_count := created;
     status_updates_count := updates;
     shipped_orders_count := shipped;
     cancelled_orders_count := cancelled;
     next_order_time := next_order_time st |}.

Definition with_next_order_time (st : Session) (t : Q) : Session :=
  {| store := store st; active_orders := active_orders st;
     new_orders_count := new_orders_count st;
     status_updates_count := status_updates_count st;
     shipped_orders_count := shipped_orders_count st;
     cancelled_orders_count := cancelled_orders_count st;
     next_order_time := t |}.

Definition deref (s : list Order) (r : nat) : res Order :=
  of_option StoreError (s !! r).

(** [{k: v for k, v in order.items() if k not in ["last_status_change", "transition_time"]}] *)
Definition strip (o : Order) : Order :=
  filter (λ kv, kv.1 ∉ INTERNAL_FIELDS) o.

Definition send_to_kafka (s : site) (src : nat) (topic : option string)
    (order_id : string) (data : Order) : M bool :=
  ok <- future_get ;;
  emit (ToKafka s src topic order_id data ok) ;;;
  when (negb ok) (emit (Line "ERROR sending to Kafka")) ;;;
  ret ok.

(** The two output blocks of the loop (lines 326-335 and 357-366), which
    differ only in the warning they print. *)
Definition dispatch (L : Locals) (s : site) (src : nat) (o : Order) (payload : Order) : M unit :=
  (if kafka_producer L then
     order_id <- lift (get_str o "order_id") ;;
     kafka_success <- send_to_kafka s src (kafka_topic (cfg L)) order_id payload ;;
     if kafka_success then ret tt
     else
       order_id <- lift (get_str o "order_id") ;;
       emit (Warning s order_id)
   else ret tt) ;;;
  when (output_console (cfg L)) (emit (ToConsole s src payload)).

(** Lines 309-340: admission a new order when its arrival time has come. *)
Definition admission (L : Locals) (current_time : Q) (st : Session) : M Session :=
  if Qle_bool (next_order_time st) current_time then
    sale <- generate_sale ;;
    let sale := <["last_status_change" := VFloat current_time]> sale in
    range <- lift (of_option KeyError (STATUS_TRANSITION_TIMES !! "pending")) ;;
    t <- random_uniform (inject_Z range.1) (inject_Z range.2) ;;
    let sale := <["transition_time" := VFloat t]> sale in
    order_id <- lift (get_str sale "order_id") ;;
    let ref := length (store st) in
    let st := with_orders st (store st ++ [sale]) (dict_set order_id ref (active_orders st)) in
    let output_sale := strip sale in
    dispatch L AtCreation ref sale output_sale ;;;
    let st := with_counts st (new_orders_count st + 1) (status_updates_count st)
                (shipped_orders_count st) (cancelled_orders_count st) in
    delay <- random_uniform (inject_Z (min_delay (cfg L))) (inject_Z (max_delay (cfg L))) ;;
    ret (with_next_order_time st (current_time + delay)%Q)
  else ret st.

(** Lines 343-346: the identifiers of the orders that are due. *)
Fixpoint scan (s : list Order) (current_time : Q) (items : pydict nat) : res (list string) :=
  match items with
  | [] => Ok []
  | (order_id, ref) :: items' =>
      order <~ deref s ref ;;
      due <~ should_advance_order order current_time ;;
      orders_to_update <~ scan s current_time items' ;;
      Ok (if due then order_id :: orders_to_update else orders_to_update)
  end.

(** Lines 350-376: the body of the update loop. *)
Definition update_order (L : Locals) (current_time : Q) (order_id : string) (st : Session)
    : M Session :=
  ref <- lift (of_option KeyError (dict_get order_id (active_orders st))) ;;
  order <- lift (deref (store st) ref) ;;
  order <- advance_order_status order current_time ;;
  let st := with_orders st (<[ref := order]> (store st)) (active_orders st) in
  let output_order := strip order in
  dispatch L AtStatusUpdate ref order output_order ;;;
  let st := with_counts st (new_orders_count st) (status_updates_count st + 1)
              (shipped_orders_count st) (cancelled_orders_count st) in
  status <- lift (get_str order "status") ;;
  if bool_decide (status = "shipped") then
    ret (with_counts (with_orders st (store st) (dict_del order_id (active_orders st)))
           (new_orders_count st) (status_updates_count st)
           (shipped_orders_count st + 1) (cancelled_orders_count st))
  else if bool_decide (status = "cancelled") then
    ret (with_counts (with_orders st (store st) (dict_del order_id (active_orders st)))
           (new_orders_count st) (status_updates_count st)
           (shipped_orders_count st) (cancelled_orders_count st + 1))
  else ret st.

Fixpoint update_orders (L : Locals) (current_time : Q) (orders_to_update : list string)
    (st : Session) : M Session :=
  match orders_to_update with
  | [] => ret st
  | order_id :: rest =>
      st <- update_order L current_time order_id st ;;
      update_orders L current_time rest st
  end.

(** Lines 309-379: one pass of the loop body after the duration check. *)
Definition tick (L : Locals) (current_time : Q) (st : Session) : M Session :=
  st <- admission L current_time st ;;
  orders_to_update <- lift (scan (store st) current_time (active_orders st)) ;;
  update_orders L current_time orders_to_update st.

(** One iteration of [while True]; [None] is [break]. *)
Definition iteration (L : Locals) (st : Session) : M (option Session) :=
  current_time <- time_time ;;
  let elapsed_time := (current_time - start_time L)%Q in
  if Qle_bool (inject_Z (duration_seconds L)) elapsed_time then ret None
  else
    st <- tick L current_time st ;;
    ret (Some st).

(** The loop.  [ticks] bounds the iterations: when it runs out the loop
    is left the way a KeyboardInterrupt during [time.sleep] (line 379)
    leaves it.  An interrupt that arrives in the middle of a tick is not
    represented.  What is stated below of sessions that may end by an
    interrupt is therefore a property of each record, which holds of every
    prefix of a tick; what relates the counters, the registry and the log
    is stated of sessions that reach their deadline. *)
Fixpoint loop (ticks : nat) (L : Locals) (st : Session) : M Session :=
  match ticks with
  | O => emit (Line "Generator stopped by user.") ;;; ret st
  | S n =>
      r <- iteration L st ;;
      match r with
      | None => ret st
      | Some st => loop n L st
      end
  end.

(** ** Shutdown *)

Record Report := {
  total_created : Z;
  total_status_updates : Z;
  total_shipped : Z;
  total_cancelled : Z;
  still_active : nat;
  success_rate : Q;
  cancellation_rate : Q;
  elapsed : Q;
  average_rate : Q
}.

(** [a / b] on numbers *)
Definition truediv (a b : Q) : res Q :=
  if Qeq_bool b 0 then Raise ZeroDivisionError else Ok (a / b)%Q.

(** The [finally] block, lines 384-403.  [flush] and [close] appear as the
    two lines printed around them, and the numbers are exact rationals
    where the program has floats. *)
Definition shutdown (L : Locals) (st : Session) : M Report :=
  when (kafka_producer L)
    (emit (Line "Flushing and closing Kafka producer...") ;;;
     emit (Line "Kafka producer closed.")) ;;;
  now <- time_time ;;
  let elapsed_time := (now - start_time L)%Q in
  let created := inject_Z (new_orders_count st) in
  success <- (if 0 <? new_orders_count st
              then q <- lift (truediv (inject_Z (shipped_orders_count st)) created) ;;
                   ret (q * 100)%Q
              else ret 0%Q) ;;
  cancellation <- (if 0 <? new_orders_count st
                   then q <- lift (truediv (inject_Z (cancelled_orders_count st)) created) ;;
                        ret (q * 100)%Q
                   else ret 0%Q) ;;
  minutes <- lift (truediv elapsed_time 60) ;;
  rate <- lift (truediv created minutes) ;;
  ret {| total_created := new_orders_count st;
         total_status_updates := status_updates_count st;
         total_shipped := shipped_orders_count st;
         total_cancelled := cancelled_orders_count st;
         still_active := length (active_orders st);
         success_rate := success;
         cancellation_rate := cancellation;
         elapsed := elapsed_time;
         average_rate := rate |}.

(** Lines 261-298: what happens before the loop. *)
Definition setup (c : Config) : M (Locals * Session) :=
  let producer := truthy (kafka_bootstrap_servers c) && truthy (kafka_topic c) && kafka_up orc in
  start <- time_time ;;
  now <- time_time ;;
  delay <- random_uniform (inject_Z (min_delay c)) (inject_Z (max_delay c)) ;;
  ret ({| cfg := c; kafka_producer := producer; start_time := start |},
       {| store := []; active_orders := [];
          new_orders_count := 0; status_updates_count := 0;
          shipped_orders_count := 0; cancelled_orders_count := 0;
          next_order_time := (now + delay)%Q |}).

Definition run_generator (ticks : nat) (c : Config) : M (Session * Report) :=
  p <- setup c ;;
  st <- loop ticks p.1 p.2 ;;
  report <- shutdown p.1 st ;;
  ret (st, report).

(** ** The entry point *)

(** The namespace [parser.parse_args()] returns: --duration, --min-delay
    and --max-delay are integers (type=int), the two broker options are
    strings or None, and the two console flags are booleans. *)
Record Args := {
  a_duration : Z;
  a_min_delay : Z;
  a_max_delay : Z;
  a_kafka_bootstrap_servers : option string;
  a_kafka_topic : option string;
  a_no_console : bool;
  a_output_console : bool
}.

(** What [parser.parse_args()] (line 471) makes of the command line.  The
    parser is argparse's: on --help, on an unknown option and on a value
    that [int] refuses (--duration abc) it prints and leaves the program by
    itself, with its exit status; otherwise it returns the namespace. *)
Inductive parsed :=
| ArgparseExit (status : Z)
| Namespace (args : Args).

Inductive outcome :=
| Exited (status : Z)                 (* parse_args left the program *)
| ParserError (msg : string)          (* parser.error: exit before anything runs *)
| Finished (st : Session) (r : Report).

Definition main (ticks : nat) (cmdline : parsed) : M outcome :=
  match cmdline with
  | ArgparseExit status => ret (Exited status)
  | Namespace args =>
    if truthy (a_kafka_bootstrap_servers args) && negb (truthy (a_kafka_topic args)) then
      ret (ParserError "--kafka-topic is required when --kafka-bootstrap-servers is specified")
    else if truthy (a_kafka_topic args) && negb (truthy (a_kafka_bootstrap_servers args)) then
      ret (ParserError "--kafka-bootstrap-servers is required when --kafka-topic is specified")
    else
      let output_console :=
        if a_no_console args then false
        else if a_output_console args then true
        else if truthy (a_kafka_bootstrap_servers args) then false
        else true in
      p <- run_generator ticks
             {| duration_minutes := a_duration args;
                min_delay := a_min_delay args;
                max_delay := a_max_delay args;
                kafka_bootstrap_servers := a_kafka_bootstrap_servers args;
                kafka_topic := a_kafka_topic args;
                output_console := output_console |} ;;
      ret (Finished p.1 p.2)
  end.

End Generator.

(** * Reasoning about the embedding *)

(** ** Total specifications with emitted outputs

    [total m Q]: from every world, [m] returns normally, and [Q] holds of
    its result and of the outputs it appended to the log. *)

Definition total {A} (m : M A) (Q : A -> list output -> Prop) : Prop :=
  forall w, exists a w' outs, m w = Ok (a, w') /\ out w' = out w ++ outs /\ Q a outs.

Lemma total_ret {A} (a : A) (Q : A -> list output -> Prop) :
  Q a [] -> total (ret a) Q.
Proof.
  intros HQ w. exists a, w, []. rewrite app_nil_r. auto.
Qed.

Lemma total_bind {A B} (m : M A) (k : A -> M B) Q1 (Q : B -> list output -> Prop) :
  total m Q1 ->
  (forall a o1, Q1 a o1 -> total (k a) (fun b o2 => Q b (o1 ++ o2))) ->
  total (bind m k) Q.
Proof.
  intros Hm Hk w.
  destruct (Hm w) as (a & w1 & o1 & E1 & L1 & H1).
  destruct (Hk a o1 H1 w1) as (b & w2 & o2 & E2 & L2 & H2).
  exists b, w2, (o1 ++ o2). unfold bind. rewrite E1.
  split; [exact E2|]. split; [|exact H2].
  rewrite L2, L1. by rewrite app_assoc.
Qed.

Lemma total_weaken {A} (m : M A) (Q Q' : A -> list output -> Prop) :
  total m Q -> (forall a o, Q a o -> Q' a o) -> total m Q'.
Proof.
  intros Hm HQ w. destruct (Hm w) as (a & w' & o & E & L & H).
  exists a, w', o. auto.
Qed.

Lemma total_lift {A} (r : res A) (a : A) (Q : A -> list output -> Prop) :
  r = Ok a -> Q a [] -> total (lift r) Q.
Proof.
  intros -> HQ w. exists a, w, []. rewrite app_nil_r. auto.
Qed.

Lemma total_bind_lift {A B} (r : res A) (a : A) (k : A -> M B) (Q : B -> list output -> Prop) :
  r = Ok a -> total (k a) Q -> total (bind (lift r) k) Q.
Proof.
  intros -> Hk w. unfold bind, lift. apply Hk.
Qed.

Lemma total_emit (o : output) (Q : unit -> list output -> Prop) :
  Q tt [o] -> total (emit o) Q.
Proof.
  intros HQ w. eexists tt, _, [o]. split; [reflexivity|]. auto.
Qed.

(** Running a computation that has a total specification. *)
Lemma total_run {A} (m : M A) Q w a w' :
  total m Q -> m w = Ok (a, w') -> exists outs, out w' = out w ++ outs /\ Q a outs.
Proof.
  intros Hm E. destruct (Hm w) as (a1 & w1 & o & E1 & L & H).
  rewrite E in E1. injection E1 as <- <-. eauto.
Qed.

Lemma total_no_raise {A} (m : M A) Q w e :
  total m Q -> m w <> Raise e.
Proof.
  intros Hm E. destruct (Hm w) as (a1 & w1 & o & E1 & _). congruence.
Qed.

(** A computation that writes nothing. *)
Definition quiet {A} (m : M A) (P : A -> Prop) : Prop :=
  total m (fun a outs => outs = [] /\ P a).

Lemma quiet_bind {A B} (m : M A) (k : A -> M B) P (Q : B -> list output -> Prop) :
  quiet m P ->
  (forall a, P a -> total (k a) Q) ->
  total (bind m k) Q.
Proof.
  intros Hm Hk. eapply total_bind; [exact Hm|].
  intros a o1 [-> Ha]. exact (Hk a Ha).
Qed.

Section Specs.
Variable orc : Oracle.

Lemma quiet_getrandbits : quiet (random_getrandbits orc) (fun _ => True).
Proof. intros w. eexists _, _, []. split; [reflexivity|]. simpl. by rewrite app_nil_r. Qed.

Lemma quiet_time_time : quiet (time_time orc) (fun _ => True).
Proof. intros w. eexists _, _, []. split; [reflexivity|]. simpl. by rewrite app_nil_r. Qed.

Lemma quiet_utcnow : quiet (utcnow_isoformat_Z orc) (fun _ => True).
Proof. intros w. eexists _, _, []. split; [reflexivity|]. simpl. by rewrite app_nil_r. Qed.

Lemma quiet_fake : quiet (fake orc) (fun _ => True).
Proof. intros w. eexists _, _, []. split; [reflexivity|]. simpl. by rewrite app_nil_r. Qed.

Lemma quiet_future_get : quiet (future_get orc) (fun _ => True).
Proof. intros w. eexists _, _, []. split; [reflexivity|]. simpl. by rewrite app_nil_r. Qed.

Lemma quiet_random_random : quiet (random_random orc) (fun u => (0 <= u)%Q).
Proof.
  unfold random_random. eapply quiet_bind; [apply quiet_getrandbits|].
  intros b _. apply total_ret. split; [done|].
  unfold Qle. cbn [Qnum Qden]. rewrite Z.mul_0_l, Z.mul_1_r. apply N2Z.is_nonneg.
Qed.

Lemma quiet_random_uniform a b :
  quiet (random_uniform orc a b) (fun x => (a <= b)%Q -> (a <= x)%Q).
Proof.
  unfold random_uniform. eapply quiet_bind; [apply quiet_random_random|].
  intros u Hu. cbv beta in Hu. apply total_ret. split; [done|]. intros Hab.
  assert (0 <= (b - a) * u)%Q by (apply Qmult_le_0_compat; lra). lra.
Qed.

Lemma quiet_random_randint a b :
  a <= b -> quiet (random_randint orc a b) (fun n => a <= n <= b).
Proof.
  intros Hab. unfold random_randint.
  destruct (Z.ltb_spec b a); [lia|].
  eapply quiet_bind; [apply quiet_getrandbits|].
  intros r _. apply total_ret. split; [done|].
  pose proof (Z.mod_pos_bound (Z.of_N r) (b - a + 1)). lia.
Qed.

Lemma quiet_random_choice {A} (seq : list A) :
  seq <> [] -> quiet (random_choice orc seq) (fun x => x ∈ seq).
Proof.
  intros Hne. unfold random_choice. destruct seq as [|x seq']; [done|].
  set (l := x :: seq') in *.
  eapply quiet_bind; [apply quiet_getrandbits|].
  intros b _.
  assert (Hlt : (N.to_nat (b mod N.of_nat (length l)) < length l)%nat).
  { pose proof (N.mod_lt b (N.of_nat (length l))). simpl in *. lia. }
  destruct (lookup_lt_is_Some_2 l _ Hlt) as [y Hy].
  eapply total_lift; [by rewrite Hy|].
  split; [done|]. eapply list_elem_of_lookup_2. exact Hy.
Qed.

End Specs.

(** ** The lifecycle relation *)

Definition NONTERMINAL : list string := ["pending"; "confirmed"; "processing"].

(** One step forward: [s'] is the entry right after [s] in ORDER_STATUS_FLOW. *)
Definition forward_step (s s' : string) : Prop :=
  exists i, ORDER_STATUS_FLOW !! i = Some s /\ ORDER_STATUS_FLOW !! S i = Some s'.

Definition lifecycle_step (s s' : string) : Prop :=
  forward_step s s' \/ (s ∈ NONTERMINAL /\ s' = "cancelled").

(** An order as the registry holds it. *)
Record active_order (k : string) (o : Order) : Prop := {
  ao_status : exists s, o !! "status" = Some (VStr s) /\ s ∈ NONTERMINAL;
  ao_last : exists l, o !! "last_status_change" = Some (VFloat l);
  ao_dwell : exists d, o !! "transition_time" = Some (VFloat d);
  ao_id : o !! "order_id" = Some (VStr k);
  ao_reason : o !! "cancellation_reason" = None
}.

(** An order object, in the registry or not. *)
Definition order_ok (o : Order) : Prop :=
  exists s, o !! "status" = Some (VStr s) /\
    s ∈ ORDER_STATUS_FLOW ++ ["cancelled"] /\
    (is_Some (o !! "cancellation_reason") <-> s = "cancelled").

(** What [advance_order_status] does to an order of the registry. *)
Definition transition (o o' : Order) : Prop :=
  exists s s',
    o !! "status" = Some (VStr s) /\
    o' !! "status" = Some (VStr s') /\
    lifecycle_step s s' /\
    o' !! "order_id" = o !! "order_id" /\
    (s' = "cancelled" ->
       exists reasons reason,
         CANCELLATION_REASONS !! s = Some reasons /\
         o' !! "cancellation_reason" = Some (VStr reason) /\
         reason ∈ reasons) /\
    (s' <> "cancelled" -> o' !! "cancellation_reason" = None) /\
    (exists l, o' !! "last_status_change" = Some (VFloat l)) /\
    (s' <> "shipped" -> s' <> "cancelled" ->
       s' ∈ NONTERMINAL /\ exists d, o' !! "transition_time" = Some (VFloat d)).

Ltac in_list :=
  unfold ORDER_STATUS_FLOW, NONTERMINAL; simpl;
  repeat first [apply list_elem_of_here | apply list_elem_of_further].

Ltac nonterminal_cases H :=
  unfold NONTERMINAL in H;
  rewrite !elem_of_cons, elem_of_nil in H;
  destruct H as [H|[H|[H|[]]]]; try discriminate H; subst.

Lemma forward_step_cases s s' :
  forward_step s s' <->
  (s = "pending" /\ s' = "confirmed") \/
  (s = "confirmed" /\ s' = "processing") \/
  (s = "processing" /\ s' = "shipped").
Proof.
  split.
  - intros (i & H1 & H2).
    destruct i as [|[|[|[|i]]]]; simpl in *; try done;
      injection H1 as <-; injection H2 as <-; auto.
  - intros [[E1 E2]|[[E1 E2]|[E1 E2]]]; subst;
      [exists 0%nat | exists 1%nat | exists 2%nat]; done.
Qed.

Lemma lifecycle_step_nonterminal s s' : lifecycle_step s s' -> s ∈ NONTERMINAL.
Proof.
  intros [H|[H _]]; [|done].
  apply forward_step_cases in H as [[E _]|[[E _]|[E _]]]; subst;
    in_list.
Qed.

Lemma lifecycle_step_target s s' :
  lifecycle_step s s' -> s' ∈ ORDER_STATUS_FLOW ++ ["cancelled"] /\ s' <> "pending" /\ s' <> s.
Proof.
  intros [H|[H E]]; [|subst s'].
  - apply forward_step_cases in H as [[E1 E2]|[[E1 E2]|[E1 E2]]]; subst;
      (split; [in_list | done]).
  - split; [in_list|].
    split; [done|]. nonterminal_cases H; done.
Qed.

Lemma nonterminal_not_terminal s :
  s ∈ NONTERMINAL -> str_in s ["shipped"; "cancelled"] = false.
Proof. intros H. nonterminal_cases H; reflexivity. Qed.

Lemma nonterminal_times s :
  s ∈ NONTERMINAL -> exists range, STATUS_TRANSITION_TIMES !! s = Some range.
Proof. intros H. nonterminal_cases H; eexists; reflexivity. Qed.

Lemma nonterminal_reasons s :
  s ∈ NONTERMINAL -> exists reasons, CANCELLATION_REASONS !! s = Some reasons /\ reasons <> [].
Proof. intros H. nonterminal_cases H; (eexists; split; [reflexivity|done]). Qed.

Lemma nonterminal_next s :
  s ∈ NONTERMINAL ->
  exists s', get_next_status s = Ok s' /\ forward_step s s' /\
             (s' = "shipped" \/ s' ∈ NONTERMINAL).
Proof.
  intros H. nonterminal_cases H.
  - exists "confirmed". split; [reflexivity|]. split; [by exists 0%nat|].
    right. in_list.
  - exists "processing". split; [reflexivity|]. split; [by exists 1%nat|].
    right. in_list.
  - exists "shipped". split; [reflexivity|]. split; [by exists 2%nat|]. by left.
Qed.

Lemma get_str_Some (o : Order) k s : o !! k = Some (VStr s) -> get_str o k = Ok s.
Proof. intros H. unfold get_str, getitem. by rewrite H. Qed.

Lemma get_num_Some (o : Order) k q : o !! k = Some (VFloat q) -> get_num o k = Ok q.
Proof. intros H. unfold get_num, getitem. by rewrite H. Qed.

Lemma get_str_inv (o : Order) k s : get_str o k = Ok s -> o !! k = Some (VStr s).
Proof.
  unfold get_str, getitem. destruct (o !! k) as [[]|]; simpl; congruence.
Qed.

Lemma active_order_ok k o : active_order k o -> order_ok o.
Proof.
  intros [(s & Hs & Hin) _ _ _ Hr]. exists s. split; [done|]. split.
  - nonterminal_cases Hin; in_list.
  - rewrite Hr. split; [by intros [? ?]|]. intros E. subst s. nonterminal_cases Hin; done.
Qed.

(** An order of the registry is always examined without an exception. *)
Lemma should_advance_active k o now :
  active_order k o -> exists b, should_advance_order o now = Ok b.
Proof.
  intros [(s & Hs & Hin) (l & Hl) (d & Hd) _ _].
  unfold should_advance_order.
  rewrite (get_str_Some _ _ _ Hs). simpl.
  rewrite (nonterminal_not_terminal _ Hin).
  rewrite (get_num_Some _ _ _ Hl). simpl.
  destruct (nonterminal_times _ Hin) as [range ->]. simpl.
  rewrite (get_num_Some _ _ _ Hd). simpl. eauto.
Qed.

Lemma should_advance_terminal o now s :
  get_str o "status" = Ok s -> s ∈ ["shipped"; "cancelled"] ->
  should_advance_order o now = Ok false.
Proof.
  intros Hs Hin. unfold should_advance_order. rewrite Hs. simpl.
  unfold str_in. by rewrite bool_decide_eq_true_2.
Qed.

(** An order is only found due when its status is one that has a dwell range. *)
Lemma should_advance_true o now :
  should_advance_order o now = Ok true ->
  exists s l d, get_str o "status" = Ok s /\ s ∈ NONTERMINAL /\
    get_num o "last_status_change" = Ok l /\
    get_num o "transition_time" = Ok d /\
    Qle_bool d (now - l) = true.
Proof.
  unfold should_advance_order.
  destruct (get_str o "status") as [s|] eqn:Hs; simpl; [|done].
  destruct (str_in s ["shipped"; "cancelled"]) eqn:Hin; [done|].
  destruct (get_num o "last_status_change") as [l|]; simpl; [|done].
  destruct (STATUS_TRANSITION_TIMES !! s) as [range|] eqn:Hr; simpl; [|done].
  destruct (get_num o "transition_time") as [d|]; simpl; [|done].
  intros [= Hle]. exists s, l, d. repeat split; try done.
  unfold STATUS_TRANSITION_TIMES in Hr.
  apply lookup_insert_Some in Hr as [[<- _]|[_ Hr]]; [in_list|].
  apply lookup_insert_Some in Hr as [[<- _]|[_ Hr]]; [in_list|].
  apply lookup_insert_Some in Hr as [[<- _]|[_ Hr]]; [in_list|].
  by rewrite lookup_empty in Hr.
Qed.

(** ** The factory and the policy, order by order *)

Definition fresh_sale (o : Order) : Prop :=
  o !! "status" = Some (VStr "pending") /\
  (exists k, o !! "order_id" = Some (VStr k)) /\
  o !! "cancellation_reason" = None /\
  o !! "last_status_change" = None /\
  o !! "transition_time" = None.

Section OrderSpecs.
Variable orc : Oracle.

Lemma quiet_generate_order_id : quiet (generate_order_id orc) (fun _ => True).
Proof.
  unfold generate_order_id.
  eapply quiet_bind; [by apply quiet_random_randint|].
  intros n _. by apply total_ret.
Qed.

Lemma quiet_generate_customer_id : quiet (generate_customer_id orc) (fun _ => True).
Proof.
  unfold generate_customer_id.
  eapply quiet_bind; [by apply quiet_random_randint|].
  intros n _. by apply total_ret.
Qed.

Lemma quiet_generate_address : quiet (generate_address orc) (fun _ => True).
Proof.
  unfold generate_address.
  do 5 (eapply quiet_bind; [apply quiet_fake|]; intros ? _).
  by apply total_ret.
Qed.

Lemma quiet_generate_sale : quiet (generate_sale orc) fresh_sale.
Proof.
  unfold generate_sale.
  eapply quiet_bind; [by apply quiet_random_choice|]. intros product _.
  eapply quiet_bind; [by apply quiet_random_randint|]. intros quantity _.
  eapply quiet_bind; [apply quiet_random_uniform|]. intros u _.
  eapply quiet_bind; [apply quiet_generate_order_id|]. intros order_id _.
  eapply quiet_bind; [apply quiet_utcnow|]. intros timestamp _.
  eapply quiet_bind; [apply quiet_generate_customer_id|]. intros customer_id _.
  eapply quiet_bind; [apply quiet_fake|]. intros customer_email _.
  eapply quiet_bind; [by apply quiet_random_choice|]. intros payment_method _.
  eapply quiet_bind; [apply quiet_generate_address|]. intros shipping_address _.
  apply total_ret. split; [done|].
  unfold fresh_sale. repeat split; try reflexivity.
  exists order_id. reflexivity.
Qed.

Lemma quiet_cancel_order o now s :
  o !! "status" = Some (VStr s) -> s ∈ NONTERMINAL ->
  quiet (cancel_order orc o now) (transition o).
Proof.
  intros Hs Hin. unfold cancel_order.
  eapply total_bind_lift; [unfold getitem; by rewrite Hs|].
  destruct (nonterminal_reasons _ Hin) as (reasons & Hr & Hne). rewrite Hr.
  eapply quiet_bind; [by apply quiet_random_choice|]. intros reason Hreason.
  eapply quiet_bind; [apply quiet_utcnow|]. intros timestamp _.
  apply total_ret. split; [done|].
  exists s, "cancelled". split; [done|].
  split; [by simplify_map_eq|].
  split; [by right|].
  split; [by simplify_map_eq|].
  split; [intros _; exists reasons, reason; split; [done|]; split; [by simplify_map_eq|done]|].
  split; [done|].
  split; [eexists; by simplify_map_eq|done].
Qed.

Lemma quiet_advance_order_status k o now :
  active_order k o -> quiet (advance_order_status orc o now) (transition o).
Proof.
  intros [(s & Hs & Hin) (l & Hl) (d & Hd) Hid Hreason].
  unfold advance_order_status.
  eapply total_bind_lift; [by apply get_str_Some|].
  unfold should_cancel_order. rewrite (nonterminal_not_terminal _ Hin).
  eapply (quiet_bind _ _ (fun _ => True)).
  { eapply quiet_bind; [apply quiet_random_random|]. intros u _.
    by apply total_ret. }
  intros [] _; [by eapply quiet_cancel_order|].
  destruct (nonterminal_next _ Hin) as (s' & Hnext & Hfwd & Hs').
  eapply total_bind_lift; [exact Hnext|].
  eapply quiet_bind; [apply quiet_utcnow|]. intros timestamp _.
  assert (Hnc : s' <> "cancelled").
  { destruct Hs' as [->|Hs']; [done|]. nonterminal_cases Hs'; done. }
  case_bool_decide as Hship.
  - destruct Hs' as [->|Hs']; [done|].
    destruct (nonterminal_times _ Hs') as [range Hrange].
    eapply total_bind_lift; [by rewrite Hrange|].
    eapply quiet_bind; [apply quiet_random_uniform|]. intros t _.
    apply total_ret. split; [done|].
    exists s, s'. split; [done|].
    split; [by simplify_map_eq|].
    split; [by left|].
    split; [by simplify_map_eq|].
    split; [done|].
    split; [intros _; by simplify_map_eq|].
    split; [eexists; by simplify_map_eq|].
    intros _ _. split; [done|]. eexists; by simplify_map_eq.
  - apply total_ret. split; [done|].
    exists s, s'. split; [done|].
    split; [by simplify_map_eq|].
    split; [by left|].
    split; [by simplify_map_eq|].
    split; [done|].
    split; [intros _; by simplify_map_eq|].
    split; [eexists; by simplify_map_eq|].
    intros Hn. done.
Qed.

End OrderSpecs.

Lemma transition_active k o o' s' :
  active_order k o -> transition o o' ->
  o' !! "status" = Some (VStr s') -> s' <> "shipped" -> s' <> "cancelled" ->
  active_order k o'.
Proof.
  intros Ha (s & s2 & Hs & Hs2 & Hstep & Hid & _ & Hnr & Hl & Hact) Hs' Hn1 Hn2.
  rewrite Hs' in Hs2. injection Hs2 as <-.
  destruct (Hact Hn1 Hn2) as [Hin Hd].
  split; eauto.
  - rewrite Hid. apply Ha.
Qed.

Lemma transition_ok k o o' : active_order k o -> transition o o' -> order_ok o'.
Proof.
  intros Ha (s & s' & Hs & Hs' & Hstep & Hid & Hc & Hnr & _).
  exists s'. split; [done|]. split; [by apply (lifecycle_step_target s)|].
  split.
  - intros [v Hv]. destruct (decide (s' = "cancelled")) as [|Hne]; [done|].
    rewrite (Hnr Hne) in Hv. done.
  - intros E. destruct (Hc E) as (? & ? & _ & -> & _). eauto.
Qed.

(** ** Computations whose outputs all satisfy a predicate *)

Definition emits {A} (P : output -> Prop) (m : M A) (R : A -> Prop) : Prop :=
  total m (fun a outs => R a /\ Forall P outs).

Lemma emits_ret {A} P (a : A) (R : A -> Prop) : R a -> emits P (ret a) R.
Proof. intros. apply total_ret. auto. Qed.

Lemma emits_bind {A B} P (m : M A) (k : A -> M B) (R1 : A -> Prop) (R : B -> Prop) :
  emits P m R1 -> (forall a, R1 a -> emits P (k a) R) -> emits P (bind m k) R.
Proof.
  intros Hm Hk. eapply total_bind; [exact Hm|].
  intros a o1 [Ha Ho1]. eapply total_weaken; [exact (Hk a Ha)|].
  intros b o2 [Hb Ho2]. split; [done|]. by apply Forall_app.
Qed.

Lemma emits_quiet {A} P (m : M A) (R : A -> Prop) : quiet m R -> emits P m R.
Proof.
  intros Hm. eapply total_weaken; [exact Hm|]. intros a o [-> Ha]. auto.
Qed.

Lemma emits_bind_lift {A B} P (r : res A) (a : A) (k : A -> M B) (R : B -> Prop) :
  r = Ok a -> emits P (k a) R -> emits P (bind (lift r) k) R.
Proof. intros. by eapply total_bind_lift. Qed.

Lemma emits_emit P (o : output) : P o -> emits P (emit o) (fun _ => True).
Proof. intros. apply total_emit. auto. Qed.

Lemma emits_when P (b : bool) (m : M unit) :
  (b = true -> emits P m (fun _ => True)) -> emits P (when b m) (fun _ => True).
Proof. destruct b; simpl; [auto|]. intros _. by apply emits_ret. Qed.

Lemma emits_weaken {A} (P P' : output -> Prop) (m : M A) (R R' : A -> Prop) :
  emits P m R -> (forall o, P o -> P' o) -> (forall a, R a -> R' a) -> emits P' m R'.
Proof.
  intros Hm HP HR. eapply total_weaken; [exact Hm|].
  intros a o [Ha Ho]. split; [auto|]. eapply Forall_impl; eauto.
Qed.

Lemma emits_run {A} P (m : M A) R w a w' :
  emits P m R -> m w = Ok (a, w') ->
  R a /\ exists outs, out w' = out w ++ outs /\ Forall P outs.
Proof.
  intros Hm E. destruct (total_run _ _ _ _ _ Hm E) as (outs & L & Ha & Ho). eauto.
Qed.

(** ** The registry as a dictionary *)

Section PyDictFacts.
Context {V : Type}.
Implicit Types (d : pydict V) (k : string) (v : V).

Lemma dict_get_set k' k v d :
  dict_get k' (dict_set k v d) = if decide (k' = k) then Some v else dict_get k' d.
Proof.
  induction d as [|[k0 v0] d IH]; csimpl.
  - by destruct (decide (k' = k)).
  - destruct (decide (k = k0)) as [->|Hne]; csimpl.
    + by destruct (decide (k' = k0)).
    + rewrite IH. destruct (decide (k' = k0)) as [->|Hne']; [|done].
      by rewrite decide_False.
Qed.

Lemma dict_get_keys k d : is_Some (dict_get k d) <-> k ∈ dict_keys d.
Proof.
  unfold dict_keys. induction d as [|[k0 v0] d IH]; csimpl.
  - split; [by intros [? ?]|]. by intros ?%elem_of_nil.
  - rewrite elem_of_cons. destruct (decide (k = k0)) as [->|Hne].
    + split; [by left|]. by eexists.
    + rewrite IH. split; [by right|]. by intros [?|?].
Qed.

Lemma dict_get_None k d : dict_get k d = None <-> k ∉ dict_keys d.
Proof. rewrite <- dict_get_keys, eq_None_not_Some. done. Qed.

Lemma dict_get_elem k v d : dict_get k d = Some v -> (k, v) ∈ d.
Proof.
  induction d as [|[k0 v0] d IH]; csimpl; [done|].
  destruct (decide (k = k0)) as [->|Hne].
  - intros [= ->]. apply list_elem_of_here.
  - intros H'. apply list_elem_of_further. auto.
Qed.

Lemma dict_elem_get k v d : NoDup (dict_keys d) -> (k, v) ∈ d -> dict_get k d = Some v.
Proof.
  unfold dict_keys. induction d as [|[k0 v0] d IH]; csimpl.
  - by intros _ ?%elem_of_nil.
  - intros [Hk0 Hnd]%NoDup_cons [E|Hin]%elem_of_cons.
    + injection E as -> ->. by rewrite decide_True.
    + destruct (decide (k = k0)) as [->|Hne]; [|by auto].
      exfalso. apply Hk0. apply list_elem_of_fmap. by exists (k0, v).
Qed.

Lemma dict_keys_set k v d :
  dict_keys (dict_set k v d) =
  if decide (k ∈ dict_keys d) then dict_keys d else dict_keys d ++ [k].
Proof.
  unfold dict_keys. induction d as [|[k0 v0] d IH]; csimpl.
  - destruct (decide (k ∈ [])) as [Hin|_]; [|done]. by apply elem_of_nil in Hin.
  - destruct (decide (k = k0)) as [->|Hne]; csimpl.
    + destruct (decide (k0 ∈ k0 :: d.*1)) as [_|Hnin]; [done|].
      exfalso. apply Hnin, list_elem_of_here.
    + rewrite IH. destruct (decide (k ∈ d.*1)) as [Hin|Hnin];
        destruct (decide (k ∈ k0 :: d.*1)) as [Hin'|Hnin']; try done.
      * exfalso. apply Hnin'. by apply list_elem_of_further.
      * exfalso. apply elem_of_cons in Hin' as [?|?]; done.
Qed.

Lemma dict_set_NoDup k v d : NoDup (dict_keys d) -> NoDup (dict_keys (dict_set k v d)).
Proof.
  intros Hnd. rewrite dict_keys_set.
  destruct (decide (k ∈ dict_keys d)) as [|Hnin]; [done|].
  apply NoDup_app. split; [done|]. split; [|apply NoDup_singleton].
  intros x Hx ->%list_elem_of_singleton. done.
Qed.

Lemma dict_set_length k v d :
  length (dict_set k v d) =
  if decide (k ∈ dict_keys d) then length d else S (length d).
Proof.
  pose proof (dict_keys_set k v d) as H.
  apply (f_equal length) in H. unfold dict_keys in *.
  rewrite length_fmap in H. rewrite H.
  destruct (decide (k ∈ d.*1)); [by rewrite length_fmap|].
  rewrite length_app, length_fmap. csimpl. lia.
Qed.

Lemma dict_keys_del k d : dict_keys (dict_del k d) ⊆ dict_keys d.
Proof.
  unfold dict_keys. induction d as [|[k0 v0] d IH]; csimpl; [done|].
  destruct (decide (k = k0)); csimpl.
  - intros x Hx. by apply list_elem_of_further.
  - intros x [->|Hx]%elem_of_cons; [apply list_elem_of_here|].
    apply list_elem_of_further. by apply IH.
Qed.

Lemma dict_del_NoDup k d : NoDup (dict_keys d) -> NoDup (dict_keys (dict_del k d)).
Proof.
  unfold dict_keys. induction d as [|[k0 v0] d IH]; csimpl; [done|].
  intros [Hk0 Hnd]%NoDup_cons. destruct (decide (k = k0)); csimpl; [done|].
  apply NoDup_cons. split; [|auto].
  intros Hin. apply Hk0. by apply (dict_keys_del k d).
Qed.

Lemma dict_get_del k' k d :
  NoDup (dict_keys d) ->
  dict_get k' (dict_del k d) = if decide (k' = k) then None else dict_get k' d.
Proof.
  unfold dict_keys. induction d as [|[k0 v0] d IH]; csimpl.
  - by destruct (decide (k' = k)).
  - intros [Hk0 Hnd]%NoDup_cons.
    destruct (decide (k = k0)) as [->|Hne]; csimpl.
    + destruct (decide (k' = k0)) as [->|Hne']; [|done].
      by apply dict_get_None.
    + rewrite (IH Hnd). destruct (decide (k' = k0)) as [->|Hne']; [|done].
      by rewrite decide_False.
Qed.

Lemma dict_del_length k d : k ∈ dict_keys d -> S (length (dict_del k d)) = length d.
Proof.
  unfold dict_keys. induction d as [|[k0 v0] d IH]; csimpl.
  - by intros ?%elem_of_nil.
  - intros [->|Hin]%elem_of_cons.
    + by rewrite decide_True.
    + destruct (decide (k = k0)); [done|]. csimpl. by rewrite IH.
Qed.
End PyDictFacts.

(** ** Payloads *)

Lemma strip_internal (o : Order) k : k ∈ INTERNAL_FIELDS -> strip o !! k = None.
Proof.
  intros Hk. unfold strip. apply map_lookup_filter_None. right.
  intros v _ Hn. by apply Hn.
Qed.

Lemma strip_visible (o : Order) k : k ∉ INTERNAL_FIELDS -> strip o !! k = o !! k.
Proof.
  intros Hk. unfold strip. destruct (o !! k) as [v|] eqn:E.
  - by apply map_lookup_filter_Some.
  - apply map_lookup_filter_None. by left.
Qed.

(** An output written at site [s] for the order object [src] with payload [p]. *)
Definition about (s : site) (src : nat) (p : Order) (e : output) : Prop :=
  match e with
  | ToKafka s' src' _ _ p' _ => s' = s /\ src' = src /\ p' = p
  | ToConsole s' src' p' => s' = s /\ src' = src /\ p' = p
  | Warning s' _ => s' = s
  | Line _ => True
  end.

(** ** The session invariant *)

Record Inv (st : Session) : Prop := {
  inv_keys : NoDup (dict_keys (active_orders st));
  inv_refs : forall k1 k2 r,
    dict_get k1 (active_orders st) = Some r ->
    dict_get k2 (active_orders st) = Some r -> k1 = k2;
  inv_active : forall k r,
    dict_get k (active_orders st) = Some r ->
    exists o, store st !! r = Some o /\ active_order k o;
  inv_store : forall r o, store st !! r = Some o -> order_ok o
}.

(** What the terminal counters and the registry account for. *)
Definition settled (st : Session) : Z :=
  shipped_orders_count st + cancelled_orders_count st + Z.of_nat (length (active_orders st)).

Lemma Inv_ext st st' :
  store st' = store st -> active_orders st' = active_orders st -> Inv st -> Inv st'.
Proof.
  intros Hs Ha [H1 H2 H3 H4]. split; rewrite ?Hs, ?Ha; auto.
Qed.

Lemma Inv_ref_lt st k r :
  Inv st -> dict_get k (active_orders st) = Some r -> (r < length (store st))%nat.
Proof.
  intros HI Hk. destruct (inv_active _ HI _ _ Hk) as (o & Ho & _).
  by eapply lookup_lt_Some.
Qed.

Lemma Inv_admission st sale k :
  Inv st -> active_order k sale ->
  Inv (with_orders st (store st ++ [sale])
         (dict_set k (length (store st)) (active_orders st))).
Proof.
  intros HI Hsale. split; simpl.
  - apply dict_set_NoDup, HI.
  - intros k1 k2 r. rewrite !dict_get_set.
    destruct (decide (k1 = k)) as [->|N1], (decide (k2 = k)) as [->|N2]; try done.
    + intros [= <-] H2. apply (Inv_ref_lt _ _ _ HI) in H2. lia.
    + intros H1 [= <-]. apply (Inv_ref_lt _ _ _ HI) in H1. lia.
    + apply HI.
  - intros k' r. rewrite dict_get_set.
    destruct (decide (k' = k)) as [->|N].
    + intros [= <-]. exists sale. split; [|done].
      rewrite lookup_app_r by lia. by rewrite Nat.sub_diag.
    + intros H'. destruct (inv_active _ HI _ _ H') as (o & Ho & Hact).
      exists o. split; [|done]. rewrite lookup_app_l; [done|]. by eapply lookup_lt_Some.
  - intros r o [Ho|[_ Ho]]%lookup_app_Some.
    + by eapply inv_store.
    + destruct (r - length (store st))%nat; simpl in Ho; [|done].
      injection Ho as <-. by eapply active_order_ok.
Qed.

Lemma Inv_update st k r o' :
  Inv st -> dict_get k (active_orders st) = Some r -> active_order k o' ->
  Inv (with_orders st (<[r := o']> (store st)) (active_orders st)).
Proof.
  intros HI Hk Ho'. pose proof (Inv_ref_lt _ _ _ HI Hk) as Hlt.
  split; simpl.
  - apply HI.
  - apply HI.
  - intros k' r' H'. destruct (decide (r' = r)) as [->|N].
    + assert (k' = k) as -> by (eapply inv_refs; eauto).
      exists o'. split; [|done]. by apply list_lookup_insert_eq.
    + rewrite list_lookup_insert_ne by done. by eapply inv_active.
  - intros r' o. destruct (decide (r' = r)) as [->|N].
    + rewrite list_lookup_insert_eq by done. intros [= <-]. by eapply active_order_ok.
    + rewrite list_lookup_insert_ne by done. by eapply inv_store.
Qed.

Lemma Inv_remove st k r o' :
  Inv st -> dict_get k (active_orders st) = Some r -> order_ok o' ->
  Inv (with_orders st (<[r := o']> (store st)) (dict_del k (active_orders st))).
Proof.
  intros HI Hk Ho'. pose proof (Inv_ref_lt _ _ _ HI Hk) as Hlt.
  pose proof (inv_keys _ HI) as Hnd.
  split; simpl.
  - by apply dict_del_NoDup.
  - intros k1 k2 r'. rewrite !dict_get_del by done.
    destruct (decide (k1 = k)), (decide (k2 = k)); try done. apply HI.
  - intros k' r'. rewrite dict_get_del by done.
    destruct (decide (k' = k)) as [->|N]; [done|]. intros H'.
    assert (r' <> r) as Hne.
    { intros ->. apply N. eapply inv_refs; eauto. }
    rewrite list_lookup_insert_ne by done. by eapply inv_active.
  - intros r' o. destruct (decide (r' = r)) as [->|N].
    + rewrite list_lookup_insert_eq by done. by intros [= <-].
    + rewrite list_lookup_insert_ne by done. by eapply inv_store.
Qed.

Section SessionSpecs.
Variable orc : Oracle.

Lemma emits_send_to_kafka s src topic key p :
  emits (about s src p) (send_to_kafka orc s src topic key p) (fun _ => True).
Proof.
  unfold send_to_kafka.
  eapply emits_bind; [apply emits_quiet, quiet_future_get|]. intros ok _.
  eapply emits_bind; [by apply emits_emit|]. intros _ _.
  eapply emits_bind; [apply emits_when; intros _; by apply emits_emit|]. intros _ _.
  by apply emits_ret.
Qed.

Lemma emits_dispatch L s src o p k :
  o !! "order_id" = Some (VStr k) ->
  emits (about s src p) (dispatch orc L s src o p) (fun _ => True).
Proof.
  intros Hk. unfold dispatch.
  eapply (emits_bind _ _ _ (fun _ => True)).
  - destruct (kafka_producer L); [|by apply emits_ret].
    eapply emits_bind_lift; [by apply get_str_Some|].
    eapply emits_bind; [apply emits_send_to_kafka|].
    intros [] _; [by apply emits_ret|].
    eapply emits_bind_lift; [by apply get_str_Some|].
    by apply emits_emit.
  - intros _ _. apply emits_when. intros _. by apply emits_emit.
Qed.

(** *** Admission *)

Definition admission_rel (now : Q) (st st' : Session) : Prop :=
  status_updates_count st' = status_updates_count st /\
  shipped_orders_count st' = shipped_orders_count st /\
  cancelled_orders_count st' = cancelled_orders_count st /\
  ((store st' = store st /\ active_orders st' = active_orders st /\
    new_orders_count st' = new_orders_count st) \/
   (exists sale k,
      store st' = store st ++ [sale] /\
      active_order k sale /\
      sale !! "status" = Some (VStr "pending") /\
      should_advance_order sale now = Ok false /\
      active_orders st' = dict_set k (length (store st)) (active_orders st) /\
      new_orders_count st' = new_orders_count st + 1)).

Lemma emits_admission L now st :
  Inv st ->
  emits (fun e => exists o, about AtCreation (length (store st)) (strip o) e)
    (admission orc L now st)
    (fun st' => Inv st' /\ admission_rel now st st').
Proof.
  intros HI. unfold admission.
  destruct (Qle_bool (next_order_time st) now).
  2: { apply emits_ret. split; [done|]. unfold admission_rel. auto 10. }
  eapply emits_bind; [apply emits_quiet, quiet_generate_sale|].
  intros sale0 (Hstatus & (k & Hk) & Hreason & Hlast & Hdwell). cbv beta zeta.
  eapply emits_bind_lift; [reflexivity|].
  eapply emits_bind; [apply emits_quiet, quiet_random_uniform|]. intros t Ht.
  cbv beta in Ht.
  set (sale := <["transition_time" := VFloat t]>
                 (<["last_status_change" := VFloat now]> sale0)).
  assert (Hact : active_order k sale).
  { subst sale. split.
    - exists "pending". split; [by simplify_map_eq|]. in_list.
    - eexists. by simplify_map_eq.
    - eexists. by simplify_map_eq.
    - by simplify_map_eq.
    - by simplify_map_eq. }
  eapply emits_bind_lift; [apply get_str_Some, Hact|].
  eapply emits_bind.
  { eapply emits_weaken; [eapply emits_dispatch, Hact| |intros a Ha; exact Ha].
    intros e He. simpl in He. by exists sale. }
  intros _ _. cbv beta.
  eapply emits_bind; [apply emits_quiet, quiet_random_uniform|]. intros delay _.
  apply emits_ret. split.
  - eapply Inv_ext; [| |by apply (Inv_admission st sale k)]; reflexivity.
  - unfold admission_rel. simpl. repeat split; try done.
    right. exists sale, k. split; [done|]. split; [exact Hact|].
    split; [subst sale; by simplify_map_eq|]. split; [|done].
    unfold should_advance_order.
    rewrite (get_str_Some sale "status" "pending") by (subst sale; by simplify_map_eq).
    rewrite (get_num_Some sale "last_status_change" now) by (subst sale; by simplify_map_eq).
    rewrite (get_num_Some sale "transition_time" t) by (subst sale; by simplify_map_eq).
    simpl. f_equal.
    destruct (Qle_bool t (now - now)) eqn:E; [|done].
    apply Qle_bool_iff in E. assert (10 <= t)%Q by (apply Ht; done). lra.
Qed.

(** *** One status update *)

Definition update_rel (k : string) (r : nat) (o : Order) (st st' : Session) : Prop :=
  exists o' s',
    transition o o' /\
    o' !! "status" = Some (VStr s') /\
    store st' = <[r := o']> (store st) /\
    active_orders st' =
      (if str_in s' ["shipped"; "cancelled"]
       then dict_del k (active_orders st) else active_orders st) /\
    new_orders_count st' = new_orders_count st /\
    status_updates_count st' = status_updates_count st + 1 /\
    settled st' = settled st.

Lemma emits_update_order L now k st r o :
  Inv st -> dict_get k (active_orders st) = Some r -> store st !! r = Some o ->
  emits (fun e => exists o', about AtStatusUpdate r (strip o') e)
    (update_order orc L now k st)
    (fun st' => Inv st' /\ update_rel k r o st st').
Proof.
  intros HI Hk Ho.
  destruct (inv_active _ HI _ _ Hk) as (o0 & Ho0 & Hact).
  rewrite Ho in Ho0. injection Ho0 as <-.
  assert (Hlen : S (length (dict_del k (active_orders st))) = length (active_orders st)).
  { apply dict_del_length, dict_get_keys. by eexists. }
  unfold update_order.
  eapply emits_bind_lift; [by rewrite Hk|].
  eapply emits_bind_lift; [unfold deref; by rewrite Ho|].
  eapply emits_bind; [eapply emits_quiet, quiet_advance_order_status, Hact|].
  intros o' Htr. cbv beta zeta.
  pose proof (transition_ok _ _ _ Hact Htr) as Hok.
  pose proof Htr as (s & s' & Hs & Hs' & Hstep & Hid & _).
  assert (Hid' : o' !! "order_id" = Some (VStr k)).
  { rewrite Hid. apply Hact. }
  eapply emits_bind.
  { eapply emits_weaken; [eapply emits_dispatch, Hid'| |intros a Ha; exact Ha].
    intros e He. simpl in He. by exists o'. }
  intros _ _. cbv beta.
  eapply emits_bind_lift; [by apply get_str_Some|].
  destruct (decide (s' = "shipped")) as [->|Hns].
  { rewrite bool_decide_eq_true_2 by done. apply emits_ret. split.
    - eapply Inv_ext; [| |by apply (Inv_remove st k r o')]; reflexivity.
    - exists o', "shipped". repeat (split; [done|]).
      unfold settled. simpl. lia. }
  rewrite (bool_decide_eq_false_2 (s' = "shipped")) by done.
  destruct (decide (s' = "cancelled")) as [->|Hnc].
  { rewrite bool_decide_eq_true_2 by done. apply emits_ret. split.
    - eapply Inv_ext; [| |by apply (Inv_remove st k r o')]; reflexivity.
    - exists o', "cancelled". repeat (split; [done|]).
      unfold settled. simpl. lia. }
  rewrite (bool_decide_eq_false_2 (s' = "cancelled")) by done.
  apply emits_ret. split.
  - eapply Inv_ext; [| |apply (Inv_update st k r o' HI Hk)]; try reflexivity.
    by eapply transition_active.
  - exists o', s'. split; [done|]. split; [done|]. split; [done|].
    split.
    { unfold str_in. rewrite bool_decide_eq_false_2; [done|].
      rewrite !elem_of_cons, elem_of_nil. by intros [?|[?|?]]. }
    repeat (split; [done|]). done.
Qed.

(** *** The update loop over the snapshot of due orders *)

Definition updates_rel (ids : list string) (st st' : Session) : Prop :=
  length (store st') = length (store st) /\
  (forall r o, store st !! r = Some o ->
     exists o', store st' !! r = Some o' /\
       (o' = o \/
        ((exists k, k ∈ ids /\ dict_get k (active_orders st) = Some r) /\
         transition o o'))) /\
  (forall k, k ∉ ids -> dict_get k (active_orders st') = dict_get k (active_orders st)) /\
  new_orders_count st' = new_orders_count st /\
  settled st' = settled st /\
  (forall k r o,
     k ∈ ids -> dict_get k (active_orders st) = Some r -> store st !! r = Some o ->
     exists o' s',
       store st' !! r = Some o' /\ transition o o' /\
       o' !! "status" = Some (VStr s') /\
       dict_get k (active_orders st') =
         (if str_in s' ["shipped"; "cancelled"] then None else Some r)).

Lemma emits_update_orders L now ids :
  forall st,
    Inv st -> NoDup ids ->
    (forall k, k ∈ ids -> is_Some (dict_get k (active_orders st))) ->
    emits (fun e => exists k r o',
             k ∈ ids /\ dict_get k (active_orders st) = Some r /\
             about AtStatusUpdate r (strip o') e)
      (update_orders orc L now ids st)
      (fun st' => Inv st' /\ updates_rel ids st st').
Proof.
  induction ids as [|k rest IH]; intros st HI Hnd Hin; simpl.
  { apply emits_ret. split; [done|]. unfold updates_rel.
    split; [done|]. split; [eauto|]. split; [done|]. split; [done|]. split; [done|].
    by intros k r o ?%elem_of_nil. }
  apply NoDup_cons in Hnd as [Hk_rest Hnd].
  destruct (Hin k) as [r Hk]; [apply list_elem_of_here|].
  destruct (inv_active _ HI _ _ Hk) as (o & Ho & Hact).
  eapply emits_bind.
  { eapply emits_weaken; [eapply emits_update_order; eauto| |intros a Ha; exact Ha].
    intros e [o' He]. exists k, r, o'. split; [apply list_elem_of_here|]. done. }
  intros st1 [HI1 (o' & s' & Htr & Hs' & Hstore & Hreg & Hnew & Hupd & Hset)].
  assert (Hother : forall k', k' <> k ->
            dict_get k' (active_orders st1) = dict_get k' (active_orders st)).
  { intros k' Hne. rewrite Hreg. destruct (str_in s' _); [|done].
    rewrite dict_get_del by apply HI. by rewrite decide_False. }
  assert (Hrest : forall k', k' ∈ rest -> k' <> k) by (intros k' ? ->; done).
  eapply emits_weaken; [apply (IH st1 HI1 Hnd)| |].
  - intros k' Hk'. rewrite Hother by auto. apply Hin. by apply list_elem_of_further.
  - intros e (k' & r' & o'' & Hk' & Hget & He). exists k', r', o''.
    split; [by apply list_elem_of_further|]. split; [|done].
    by rewrite <- Hother by auto.
  - intros st' [HI' (Hlen & Hst & Hkeep & Hnew' & Hset' & HU)]. split; [done|].
    assert (Hr1 : store st1 !! r = Some o').
    { rewrite Hstore. apply list_lookup_insert_eq. by eapply lookup_lt_Some. }
    assert (Hr' : store st' !! r = Some o').
    { destruct (Hst r o' Hr1) as (o'' & Ho'' & [->|[(k' & Hk' & Hget) _]]); [done|].
      exfalso. rewrite Hother in Hget by auto.
      apply (Hrest k' Hk'). exact (inv_refs _ HI k' k r Hget Hk). }
    split; [by rewrite Hlen, Hstore, length_insert|].
    split.
    { intros r0 o0 Hr0. destruct (decide (r0 = r)) as [->|Hne].
      - rewrite Ho in Hr0. injection Hr0 as <-.
        exists o'. split; [done|]. right.
        split; [|done]. exists k. split; [apply list_elem_of_here|done].
      - destruct (Hst r0 o0) as (o'' & Ho'' & Hcase).
        { rewrite Hstore. by rewrite list_lookup_insert_ne. }
        exists o''. split; [done|].
        destruct Hcase as [->|[(k' & Hk' & Hget) Htr']]; [by left|]. right.
        split; [|done]. exists k'. split; [by apply list_elem_of_further|].
        by rewrite <- Hother by auto. }
    split.
    { intros k0 Hk0. apply not_elem_of_cons in Hk0 as [Hne Hk0].
      rewrite Hkeep by done. by apply Hother. }
    split; [congruence|]. split; [congruence|].
    intros k0 r0 o0 Hk0 Hget0 Ho0. apply elem_of_cons in Hk0 as [->|Hk0].
    + rewrite Hk in Hget0. injection Hget0 as <-.
      rewrite Ho in Ho0. injection Ho0 as <-.
      exists o', s'. split; [done|]. split; [done|]. split; [done|].
      rewrite Hkeep by done. rewrite Hreg.
      destruct (str_in s' _); [|done].
      rewrite dict_get_del by apply HI. by rewrite decide_True.
    + assert (Hne : k0 <> k) by auto.
      apply (HU k0 r0 o0 Hk0).
      * by rewrite Hother.
      * rewrite Hstore, list_lookup_insert_ne; [done|].
        intros <-. apply Hne. exact (inv_refs _ HI k0 k r Hget0 Hk).
Qed.

(** *** The scan for due orders *)

Lemma scan_spec s now (items : pydict nat) :
  (forall k r, (k, r) ∈ items -> exists o, s !! r = Some o /\ active_order k o) ->
  exists ids,
    scan s now items = Ok ids /\
    (forall k, k ∈ ids <->
       exists r o, (k, r) ∈ items /\ s !! r = Some o /\
                   should_advance_order o now = Ok true) /\
    (NoDup (dict_keys items) -> NoDup ids).
Proof.
  induction items as [|[k r] items IH]; intros Hitems; simpl.
  { exists []. split; [done|]. split; [|intros; apply NoDup_nil_2].
    intros k. split; [by intros ?%elem_of_nil|].
    by intros (? & ? & ?%elem_of_nil & _). }
  destruct (Hitems k r) as (o & Ho & Hact); [apply list_elem_of_here|].
  destruct IH as (ids & Hscan & Hids & Hnd).
  { intros k' r' H'. apply Hitems. by apply list_elem_of_further. }
  unfold deref. rewrite Ho. simpl.
  destruct (should_advance_active _ _ now Hact) as [due Hdue].
  rewrite Hdue. simpl. rewrite Hscan. simpl.
  eexists. split; [reflexivity|]. split.
  - intros k'. destruct due.
    + rewrite elem_of_cons, Hids. split.
      * intros [->|(r' & o' & Hin & Ho' & Hd)].
        -- exists r, o. split; [apply list_elem_of_here|done].
        -- exists r', o'. split; [by apply list_elem_of_further|done].
      * intros (r' & o' & [E|Hin]%elem_of_cons & Ho' & Hd).
        -- injection E as -> ->. by left.
        -- right. eauto.
    + rewrite Hids. split.
      * intros (r' & o' & Hin & Ho' & Hd).
        exists r', o'. split; [by apply list_elem_of_further|done].
      * intros (r' & o' & [E|Hin]%elem_of_cons & Ho' & Hd); [|eauto].
        injection E as -> ->. rewrite Ho in Ho'. injection Ho' as <-. congruence.
  - unfold dict_keys. csimpl. intros [Hk Hnd']%NoDup_cons.
    destruct due; [|by apply Hnd].
    apply NoDup_cons. split; [|by apply Hnd].
    intros (r' & o' & Hin & _)%Hids. apply Hk.
    apply list_elem_of_fmap. by exists (k, r').
Qed.

(** *** One tick *)

Definition due (now : Q) (o : Order) : Prop := should_advance_order o now = Ok true.

(** The snapshot taken after admission: exactly the registered orders that are due. *)
Definition snapshot (now : Q) (st1 : Session) (ids : list string) : Prop :=
  forall k, k ∈ ids <->
    exists r o, dict_get k (active_orders st1) = Some r /\
                store st1 !! r = Some o /\ due now o.

Definition tick_rel (now : Q) (st st' : Session) : Prop :=
  exists st1 ids,
    Inv st1 /\ admission_rel now st st1 /\ snapshot now st1 ids /\ updates_rel ids st1 st'.

(** Every output of a tick is written for the order admitted in it or for
    an order of the store that was due. *)
Definition tick_output (now : Q) (st : Session) (e : output) : Prop :=
  exists s r o', about s r (strip o') e /\
    (r = length (store st) \/ exists o, store st !! r = Some o /\ due now o).

Lemma emits_tick L now st :
  Inv st ->
  emits (tick_output now st) (tick orc L now st)
    (fun st' => Inv st' /\ tick_rel now st st').
Proof.
  intros HI. unfold tick.
  eapply emits_bind.
  { eapply emits_weaken; [by apply emits_admission| |intros a Ha; exact Ha].
    intros e [o He]. exists AtCreation, (length (store st)), o. auto. }
  intros st1 [HI1 Hadm].
  destruct (scan_spec (store st1) now (active_orders st1)) as (ids & Hscan & Hids & Hnd).
  { intros k r Hin. apply (inv_active _ HI1).
    apply dict_elem_get; [apply HI1|done]. }
  assert (Hsnap : snapshot now st1 ids).
  { intros k. rewrite Hids. split; intros (r & o & Hin & Ho & Hd); exists r, o.
    - split; [|done]. apply dict_elem_get; [apply HI1|done].
    - split; [|done]. by apply dict_get_elem. }
  eapply emits_bind_lift; [exact Hscan|].
  eapply emits_weaken; [apply (emits_update_orders L now ids st1 HI1)| |].
  - apply Hnd, HI1.
  - intros k (r & o & Hk & _)%Hsnap. by eexists.
  - intros e (k & r & o' & Hk & Hget & He).
    exists AtStatusUpdate, r, o'. split; [done|].
    apply Hsnap in Hk as (r' & o & Hget' & Ho & Hdue).
    rewrite Hget in Hget'. injection Hget' as <-.
    destruct Hadm as (_ & _ & _ & [(Hst & _)|(sale & k' & Hst & _)]).
    + right. exists o. by rewrite <- Hst.
    + rewrite Hst in Ho. apply lookup_app_Some in Ho as [Ho|[Hge Ho]].
      * right. by exists o.
      * left. apply lookup_lt_Some in Ho. simpl in Ho. lia.
  - intros st' [HI' Hupd]. split; [done|]. by exists st1, ids.
Qed.

Lemma emits_iteration L st :
  Inv st ->
  total (iteration orc L st)
    (fun r outs =>
       match r with
       | None => outs = []
       | Some st' => Inv st' /\ exists now, tick_rel now st st' /\
                                            Forall (tick_output now st) outs
       end).
Proof.
  intros HI. unfold iteration.
  eapply quiet_bind; [apply quiet_time_time|]. intros now _. cbv zeta.
  destruct (Qle_bool _ _); [by apply total_ret|].
  eapply total_bind; [by apply (emits_tick L now st)|].
  intros st' outs [[HI' Hrel] Houts]. apply total_ret.
  rewrite app_nil_r. split; [done|]. by exists now.
Qed.

(** What a tick does to the order objects that existed before it. *)
Lemma tick_rel_old now st st' r o :
  tick_rel now st st' -> store st !! r = Some o ->
  exists o', store st' !! r = Some o' /\ (o' = o \/ (due now o /\ transition o o')).
Proof.
  intros (st1 & ids & HI1 & Hadm & Hsnap & (_ & Hst & _)) Ho.
  assert (Ho1 : store st1 !! r = Some o).
  { destruct Hadm as (_ & _ & _ & [(-> & _)|(sale & k' & -> & _)]); [done|].
    by apply lookup_app_l_Some. }
  destruct (Hst r o Ho1) as (o' & Ho' & Hcase).
  exists o'. split; [done|].
  destruct Hcase as [->|[(k & Hk & Hget) Htr]]; [by left|]. right. split; [|done].
  apply Hsnap in Hk as (r' & o0 & Hget' & Ho0 & Hdue).
  rewrite Hget in Hget'. injection Hget' as <-.
  rewrite Ho1 in Ho0. by injection Ho0 as <-.
Qed.

(** An order object allocated during a tick is still pending when the tick ends. *)
Lemma tick_rel_new now st st' r o' :
  tick_rel now st st' -> store st' !! r = Some o' -> (length (store st) <= r)%nat ->
  r = length (store st) /\ o' !! "status" = Some (VStr "pending").
Proof.
  intros (st1 & ids & HI1 & Hadm & Hsnap & (Hlen & Hst & _)) Ho' Hr.
  pose proof (lookup_lt_Some _ _ _ Ho') as Hlt. rewrite Hlen in Hlt.
  destruct Hadm as (_ & _ & _ & [(Hs1 & _)|(sale & k & Hs1 & Hact & Hpend & Hnd & _)]).
  { rewrite Hs1 in Hlt. lia. }
  rewrite Hs1, length_app in Hlt. simpl in Hlt.
  assert (r = length (store st)) as -> by lia. split; [done|].
  assert (Hsale : store st1 !! length (store st) = Some sale).
  { rewrite Hs1, lookup_app_r by lia. by rewrite Nat.sub_diag. }
  destruct (Hst _ _ Hsale) as (o'' & Ho'' & Hcase).
  rewrite Ho' in Ho''. injection Ho'' as <-.
  destruct Hcase as [->|[(k' & Hk' & Hget) _]]; [done|].
  apply Hsnap in Hk' as (r' & o0 & Hget' & Ho0 & Hdue).
  rewrite Hget in Hget'. injection Hget' as <-.
  rewrite Hsale in Ho0. injection Ho0 as <-.
  unfold due in Hdue. congruence.
Qed.

(** ** The states of a session at its tick boundaries *)

Inductive reachable : Locals -> Session -> World -> Prop :=
| reach_setup c w0 L st w :
    setup orc c w0 = Ok ((L, st), w) -> reachable L st w
| reach_tick L st w st' w' :
    reachable L st w -> iteration orc L st w = Ok (Some st', w') ->
    reachable L st' w'.

Lemma setup_Inv c w0 L st w : setup orc c w0 = Ok ((L, st), w) -> Inv st.
Proof.
  unfold setup, bind, time_time, random_uniform, random_random, random_getrandbits, ret.
  simpl. intros [= <- <- <-]. split; simpl.
  - apply NoDup_nil_2.
  - done.
  - done.
  - intros r o. by rewrite lookup_nil.
Qed.

Lemma reachable_Inv L st w : reachable L st w -> Inv st.
Proof.
  induction 1 as [c w0 L st w Hs|L st w st' w' _ IH Hit].
  - by eapply setup_Inv.
  - destruct (total_run _ _ _ _ _ (emits_iteration L st IH) Hit) as (outs & _ & HI & _).
    exact HI.
Qed.

(** From a reachable state an iteration of the loop raises no exception. *)
Lemma iteration_no_raise L st w :
  reachable L st w -> exists r w', iteration orc L st w = Ok (r, w').
Proof.
  intros HI%reachable_Inv.
  destruct (emits_iteration L st HI w) as (r & w' & _ & E & _). eauto.
Qed.

(** A tick, seen from the loop. *)
Lemma iteration_tick L st w st' w' :
  reachable L st w -> iteration orc L st w = Ok (Some st', w') ->
  tick_rel (clock orc (n_clock w)) st st' /\
  exists outs, out w' = out w ++ outs /\
               Forall (tick_output (clock orc (n_clock w)) st) outs.
Proof.
  intros HI%reachable_Inv. unfold iteration, bind at 1. simpl.
  destruct (Qle_bool _ _); [done|].
  set (now := clock orc (n_clock w)).
  destruct (emits_tick L now st HI
    {| n_rand := n_rand w; n_clock := S (n_clock w); n_utc := n_utc w;
       n_faker := n_faker w; n_ack := n_ack w; out := out w |})
    as (st2 & w2 & outs & E & Hlog & [_ Hrel] & Houts).
  unfold bind. rewrite E. unfold ret. intros [= <- <-].
  split; [done|]. exists outs. done.
Qed.

End SessionSpecs.

(** ** Helper facts used by the main theorems *)

Lemma store_status orc L st w r o :
  reachable orc L st w -> store st !! r = Some o ->
  exists s, o !! "status" = Some (VStr s) /\
            (is_Some (o !! "cancellation_reason") <-> s = "cancelled").
Proof.
  intros HI%reachable_Inv Ho.
  destruct (inv_store _ HI _ _ Ho) as (s & Hs & _ & Hr). eauto.
Qed.

Lemma due_nonterminal now o :
  due now o -> exists s, o !! "status" = Some (VStr s) /\ s ∈ NONTERMINAL.
Proof.
  intros (s & l & d & Hs & Hin & _)%should_advance_true.
  exists s. split; [by apply get_str_inv|done].
Qed.

Lemma not_due_yet now o l d :
  get_num o "last_status_change" = Ok l ->
  get_num o "transition_time" = Ok d ->
  (now - l < d)%Q ->
  ~ due now o.
Proof.
  intros Hl Hd Hlt (s & l' & d' & _ & _ & Hl' & Hd' & Hle)%should_advance_true.
  rewrite Hl in Hl'. injection Hl' as <-.
  rewrite Hd in Hd'. injection Hd' as <-.
  apply Qle_bool_iff in Hle. lra.
Qed.

Lemma about_src s r p e r' : about s r p e -> src_of e = Some r' -> r' = r.
Proof. destruct e; simpl; try done; intros (_ & -> & _) [= <-]; done. Qed.

(** A tick leaves an order that is not due alone and writes nothing for it. *)
Lemma tick_not_due orc L st w st' w' r o :
  reachable orc L st w ->
  iteration orc L st w = Ok (Some st', w') ->
  store st !! r = Some o ->
  ~ due (clock orc (n_clock w)) o ->
  store st' !! r = Some o /\
  exists outs, out w' = out w ++ outs /\ Forall (fun e => src_of e <> Some r) outs.
Proof.
  intros HR Hit Ho Hnd.
  destruct (iteration_tick _ _ _ _ _ _ HR Hit) as (Hrel & outs & Hlog & Houts).
  split.
  - destruct (tick_rel_old _ _ _ _ _ Hrel Ho) as (o' & Ho' & [->|[Hd _]]); done.
  - exists outs. split; [done|]. eapply Forall_impl; [exact Houts|].
    intros e (s & r' & o' & Hab & Hcase) Hsrc.
    apply (about_src _ _ _ _ _ Hab) in Hsrc as <-.
    destruct Hcase as [->|(o0 & Ho0 & Hd)].
    + apply lookup_lt_Some in Ho. lia.
    + rewrite Ho in Ho0. injection Ho0 as <-. done.
Qed.

(** Consecutive ticks of one session, with the clock reading of each. *)
Inductive ticks (orc : Oracle) (L : Locals) :
    Session -> World -> list Q -> Session -> World -> Prop :=
| ticks_done st w : ticks orc L st w [] st w
| ticks_step st w st1 w1 ts st2 w2 :
    iteration orc L st w = Ok (Some st1, w1) ->
    ticks orc L st1 w1 ts st2 w2 ->
    ticks orc L st w (clock orc (n_clock w) :: ts) st2 w2.

(** ** The lifecycle of every order (C1, C4, C9, C10) *)

(** C1. Over any tick of a session, every order object either keeps its
    status, or moves to the entry right after it in ORDER_STATUS_FLOW, or
    moves to cancelled from pending, confirmed or processing; an object
    whose status is shipped or cancelled is never changed again; and an
    order allocated during the tick is pending when the tick ends. *)
Theorem status_moves_forward_only orc L st w st' w' :
  reachable orc L st w ->
  iteration orc L st w = Ok (Some st', w') ->
  (forall r o, store st !! r = Some o ->
     exists o' s s',
       store st' !! r = Some o' /\
       get_str o "status" = Ok s /\ get_str o' "status" = Ok s' /\
       (s' = s \/ forward_step s s' \/ (s ∈ NONTERMINAL /\ s' = "cancelled")) /\
       (s ∈ ["shipped"; "cancelled"] -> o' = o)) /\
  (forall r o', store st' !! r = Some o' -> (length (store st) <= r)%nat ->
     get_str o' "status" = Ok "pending").
Proof.
  intros HR Hit.
  destruct (iteration_tick _ _ _ _ _ _ HR Hit) as (Hrel & _).
  split.
  - intros r o Ho.
    destruct (store_status _ _ _ _ _ _ HR Ho) as (s & Hs & _).
    destruct (tick_rel_old _ _ _ _ _ Hrel Ho) as (o' & Ho' & Hcase).
    destruct Hcase as [->|[Hdue Htr]].
    + exists o, s, s. rewrite (get_str_Some _ _ _ Hs). auto 10.
    + destruct Htr as (s0 & s' & Hs0 & Hs' & Hstep & _).
      rewrite Hs in Hs0. injection Hs0 as <-.
      exists o', s, s'.
      rewrite (get_str_Some _ _ _ Hs), (get_str_Some _ _ _ Hs').
      split; [done|]. split; [done|]. split; [done|]. split.
      * right. exact Hstep.
      * intros Hterm. apply lifecycle_step_nonterminal in Hstep.
        rewrite !elem_of_cons, elem_of_nil in Hterm.
        destruct Hterm as [->|[->|[]]]; nonterminal_cases Hstep.
  - intros r o' Ho' Hr.
    destruct (tick_rel_new _ _ _ _ _ Hrel Ho' Hr) as [_ Hp].
    by apply get_str_Some.
Qed.

(** C4. In every order object of a session, cancellation_reason is present
    exactly when the status is cancelled; and when a tick cancels an order,
    the reason belongs to the reason list of the status it had before. *)
Theorem cancellation_reason_matches_status orc L st w :
  reachable orc L st w ->
  (forall r o, store st !! r = Some o ->
     exists s, get_str o "status" = Ok s /\
       (is_Some (o !! "cancellation_reason") <-> s = "cancelled")) /\
  (forall st' w' r o o' s,
     iteration orc L st w = Ok (Some st', w') ->
     store st !! r = Some o -> store st' !! r = Some o' ->
     get_str o "status" = Ok s -> s <> "cancelled" ->
     get_str o' "status" = Ok "cancelled" ->
     exists reasons reason,
       CANCELLATION_REASONS !! s = Some reasons /\
       o' !! "cancellation_reason" = Some (VStr reason) /\
       reason ∈ reasons).
Proof.
  intros HR. split.
  - intros r o Ho.
    destruct (store_status _ _ _ _ _ _ HR Ho) as (s & Hs & Hiff).
    exists s. by rewrite (get_str_Some _ _ _ Hs).
  - intros st' w' r o o' s Hit Ho Ho' Hs Hnc Hc.
    destruct (iteration_tick _ _ _ _ _ _ HR Hit) as (Hrel & _).
    destruct (tick_rel_old _ _ _ _ _ Hrel Ho) as (o2 & Ho2 & Hcase).
    rewrite Ho' in Ho2. injection Ho2 as <-.
    destruct Hcase as [->|[_ Htr]]; [congruence|].
    destruct Htr as (s0 & s' & Hs0 & Hs' & _ & _ & Hreason & _).
    apply get_str_inv in Hs, Hc.
    rewrite Hs in Hs0. injection Hs0 as <-.
    rewrite Hc in Hs'. injection Hs' as <-.
    by apply Hreason.
Qed.

(** C9. An order whose time in its current state is below its drawn dwell
    duration at the clock reading of every one of any number of consecutive
    ticks is left exactly as it was by those ticks, and none of their
    outputs was written for it. *)
Theorem not_due_order_is_untouched orc L st w ts st' w' r o l d :
  reachable orc L st w ->
  ticks orc L st w ts st' w' ->
  store st !! r = Some o ->
  get_num o "last_status_change" = Ok l ->
  get_num o "transition_time" = Ok d ->
  Forall (fun now => (now - l < d)%Q) ts ->
  store st' !! r = Some o /\
  exists outs, out w' = out w ++ outs /\ Forall (fun e => src_of e <> Some r) outs.
Proof.
  intros HR Hticks Ho Hl Hd. revert HR Ho.
  induction Hticks as [st w|st w st1 w1 ts st2 w2 Hit Hrest IH]; intros HR Ho Hts.
  - split; [done|]. exists []. by rewrite app_nil_r.
  - apply Forall_cons in Hts as [Hnow Hts].
    destruct (tick_not_due _ _ _ _ _ _ _ _ HR Hit Ho) as (Ho1 & o1 & Hlog1 & Hout1).
    { by eapply not_due_yet. }
    destruct IH as (Ho2 & o2 & Hlog2 & Hout2); [by eapply reach_tick|done|done|].
    split; [done|]. exists (o1 ++ o2). split.
    + by rewrite Hlog2, Hlog1, app_assoc.
    + by apply Forall_app.
Qed.

(** C10. The two lookups fail on cancelled, but the loop never reaches
    them with it: [should_advance_order] answers false on shipped and
    cancelled orders, every order it finds due has a status on which both
    lookups succeed, every order of the registry has such a status, and no
    iteration of the loop raises an exception. *)
Theorem status_lookups_never_fail :
  (get_next_status "cancelled" = Raise ValueError /\
   STATUS_TRANSITION_TIMES !! "cancelled" = None) /\
  (forall o now s,
     get_str o "status" = Ok s -> s ∈ ["shipped"; "cancelled"] ->
     should_advance_order o now = Ok false) /\
  (forall o now,
     should_advance_order o now = Ok true ->
     exists s s', get_str o "status" = Ok s /\ s ∈ NONTERMINAL /\
       get_next_status s = Ok s' /\ is_Some (STATUS_TRANSITION_TIMES !! s)) /\
  (forall orc L st w,
     reachable orc L st w ->
     (forall k r o, dict_get k (active_orders st) = Some r -> store st !! r = Some o ->
        exists s s', get_str o "status" = Ok s /\ s ∈ NONTERMINAL /\
          get_next_status s = Ok s' /\ is_Some (STATUS_TRANSITION_TIMES !! s)) /\
     (exists res w', iteration orc L st w = Ok (res, w'))).
Proof.
  split; [split; reflexivity|].
  split; [intros o now s; apply should_advance_terminal|].
  assert (Hlook : forall s, s ∈ NONTERMINAL ->
            exists s', get_next_status s = Ok s' /\ is_Some (STATUS_TRANSITION_TIMES !! s)).
  { intros s Hin. destruct (nonterminal_next _ Hin) as (s' & Hn & _).
    destruct (nonterminal_times _ Hin) as [range Hr]. exists s'. by rewrite Hr. }
  split.
  - intros o now (s & l & d & Hs & Hin & _)%should_advance_true.
    destruct (Hlook s Hin) as (s' & ? & ?). by exists s, s'.
  - intros orc L st w HR. split; [|by apply iteration_no_raise].
    intros k r o Hk Ho.
    destruct (inv_active _ (reachable_Inv _ _ _ _ HR) _ _ Hk) as (o0 & Ho0 & Hact).
    rewrite Ho in Ho0. injection Ho0 as <-.
    destruct (ao_status _ _ Hact) as (s & Hs & Hin).
    destruct (Hlook s Hin) as (s' & ? & ?).
    exists s, s'. by rewrite (get_str_Some _ _ _ Hs).
Qed.

(** ** Whole sessions *)

Lemma bind_Ok {A B} (m : M A) (k : A -> M B) w b w' :
  bind m k w = Ok (b, w') -> exists a w1, m w = Ok (a, w1) /\ k a w1 = Ok (b, w').
Proof.
  unfold bind. destruct (m w) as [[a w1]|e]; [|done]. eauto.
Qed.

(** [logs P m]: whenever [m] returns, the outputs it appended satisfy [P]. *)
Definition logs {A} (P : output -> Prop) (m : M A) : Prop :=
  forall w a w', m w = Ok (a, w') ->
    exists outs, out w' = out w ++ outs /\ Forall P outs.

Lemma logs_ret {A} P (a : A) : logs P (ret a).
Proof. intros w a' w' [= <- <-]. exists []. by rewrite app_nil_r. Qed.

Lemma logs_lift {A} P (r : res A) : logs P (lift r).
Proof.
  intros w a w'. unfold lift. destruct r; [|done].
  intros [= <- <-]. exists []. by rewrite app_nil_r.
Qed.

Lemma logs_bind {A B} P (m : M A) (k : A -> M B) :
  logs P m -> (forall a, logs P (k a)) -> logs P (bind m k).
Proof.
  intros Hm Hk w b w' (a & w1 & E1 & E2)%bind_Ok.
  destruct (Hm _ _ _ E1) as (o1 & L1 & H1).
  destruct (Hk a _ _ _ E2) as (o2 & L2 & H2).
  exists (o1 ++ o2). split; [by rewrite L2, L1, app_assoc|by apply Forall_app].
Qed.

Lemma logs_emit P (o : output) : P o -> logs P (emit o).
Proof. intros HP w a w' [= <- <-]. exists [o]. simpl. auto. Qed.

Lemma logs_total {A} P (m : M A) (Q : A -> list output -> Prop) :
  total m Q -> (forall a outs, Q a outs -> Forall P outs) -> logs P m.
Proof.
  intros Hm HQ w a w' E.
  destruct (total_run _ _ _ _ _ Hm E) as (outs & L & H). eauto.
Qed.

Section Sessions.
Variable orc : Oracle.

Lemma setup_quiet c w0 L st w : setup orc c w0 = Ok ((L, st), w) -> out w = out w0.
Proof.
  unfold setup, bind, time_time, random_uniform, random_random, random_getrandbits, ret.
  simpl. by intros [= <- <- <-].
Qed.

End Sessions.

(** ** Sessions whose order identifiers are pairwise distinct

    What C2 and C3 state holds of every session in which no identifier is
    drawn twice. *)

Definition order_ids (st : Session) : list (option value) :=
  (fun o : Order => o !! "order_id") <$> store st.

(** No order has been lost: the counters balance and every order that is
    not terminal is in the registry. *)
Definition complete (st : Session) : Prop :=
  new_orders_count st = settled st /\
  forall r o s,
    store st !! r = Some o -> o !! "status" = Some (VStr s) -> s ∈ NONTERMINAL ->
    exists k, dict_get k (active_orders st) = Some r.

Lemma transition_changes_status o : ~ transition o o.
Proof.
  intros (s & s' & Hs & Hs' & Hstep & _).
  rewrite Hs in Hs'. injection Hs' as <-.
  by apply lifecycle_step_target in Hstep as (_ & _ & ?).
Qed.

Lemma updates_rel_ids ids st1 st' :
  updates_rel ids st1 st' -> order_ids st' = order_ids st1.
Proof.
  intros (Hlen & Hst & _). unfold order_ids. apply list_eq. intros i.
  rewrite !list_lookup_fmap.
  destruct (store st1 !! i) as [o|] eqn:Ho.
  - destruct (Hst i o Ho) as (o' & -> & Hcase). simpl. f_equal.
    destruct Hcase as [->|[_ (s & s' & _ & _ & _ & Hid & _)]]; done.
  - apply lookup_ge_None in Ho. rewrite <- Hlen in Ho.
    apply lookup_ge_None in Ho. by rewrite Ho.
Qed.

Lemma admission_complete now st st1 :
  Inv st -> admission_rel now st st1 -> NoDup (order_ids st1) ->
  complete st -> complete st1.
Proof.
  intros HI (Hu & Hs & Hc & Hcase) Hnd [Hbal Hreg].
  destruct Hcase as [(Hst & Ha & Hn)|(sale & k & Hst & Hact & _ & _ & Ha & Hn)].
  { split.
    - unfold settled in *. rewrite Hn, Hs, Hc, Ha. done.
    - intros r o s. rewrite Hst, Ha. apply Hreg. }
  assert (Hfresh : k ∉ dict_keys (active_orders st)).
  { intros [r Hk]%dict_get_keys.
    destruct (inv_active _ HI _ _ Hk) as (o & Ho & Hact').
    unfold order_ids in Hnd. rewrite Hst, fmap_app in Hnd. simpl in Hnd.
    apply NoDup_app in Hnd as (_ & Hnd & _).
    apply (Hnd (Some (VStr k))).
    - apply list_elem_of_fmap. exists o. split; [symmetry; apply Hact'|].
      by eapply list_elem_of_lookup_2.
    - rewrite (ao_id _ _ Hact). apply list_elem_of_here. }
  split.
  - unfold settled in *. rewrite Hn, Hs, Hc, Ha, dict_set_length.
    rewrite decide_False by done. lia.
  - intros r o s. rewrite Hst, Ha. intros Ho Hstat Hin.
    apply lookup_app_Some in Ho as [Ho|[Hge Ho]].
    + destruct (Hreg r o s Ho Hstat Hin) as [k' Hk'].
      exists k'. rewrite dict_get_set. rewrite decide_False; [done|].
      intros ->. apply Hfresh, dict_get_keys. by eexists.
    + assert (r = length (store st)) as ->.
      { apply lookup_lt_Some in Ho. simpl in Ho. lia. }
      exists k. rewrite dict_get_set. by rewrite decide_True.
Qed.

Lemma updates_complete now ids st1 st' :
  snapshot now st1 ids -> updates_rel ids st1 st' -> complete st1 -> complete st'.
Proof.
  intros Hsnap (Hlen & Hst & Hkeep & Hn & Hset & HU) [Hbal Hreg]. split.
  - congruence.
  - intros r o' s' Ho' Hs' Hin.
    destruct (store st1 !! r) as [o|] eqn:Ho.
    2: { apply lookup_ge_None in Ho. apply lookup_lt_Some in Ho'. lia. }
    assert (Hdone : forall k, k ∈ ids -> dict_get k (active_orders st1) = Some r ->
              transition o o' /\ dict_get k (active_orders st') = Some r).
    { intros k Hk Hget.
      destruct (HU k r o Hk Hget Ho) as (o2 & s2 & Ho2 & Htr & Hs2 & Hget').
      rewrite Ho' in Ho2. injection Ho2 as <-.
      rewrite Hs' in Hs2. injection Hs2 as <-.
      rewrite (nonterminal_not_terminal _ Hin) in Hget'. done. }
    destruct (Hst r o Ho) as (o2 & Ho2 & Hcase).
    rewrite Ho' in Ho2. injection Ho2 as <-.
    destruct Hcase as [->|[(k & Hk & Hget) _]].
    + destruct (Hreg r o s' Ho Hs' Hin) as [k Hget].
      destruct (decide (k ∈ ids)) as [Hk|Hk].
      * destruct (Hdone k Hk Hget) as [Htr _]. by apply transition_changes_status in Htr.
      * exists k. by rewrite Hkeep.
    + exists k. by apply (Hdone k Hk Hget).
Qed.

Lemma tick_rel_ids now st st' :
  tick_rel now st st' -> exists news, order_ids st' = order_ids st ++ news.
Proof.
  intros (st1 & ids & _ & (_ & _ & _ & Hcase) & _ & Hupd).
  rewrite (updates_rel_ids _ _ _ Hupd). unfold order_ids.
  destruct Hcase as [(-> & _)|(sale & k & -> & _)].
  - exists []. by rewrite app_nil_r.
  - eexists. by rewrite fmap_app.
Qed.

Lemma tick_complete now st st' :
  Inv st -> tick_rel now st st' -> NoDup (order_ids st') -> complete st -> complete st'.
Proof.
  intros HI (st1 & ids & HI1 & Hadm & Hsnap & Hupd) Hnd Hc.
  eapply updates_complete; [exact Hsnap|exact Hupd|].
  eapply admission_complete; [exact HI|exact Hadm| |exact Hc].
  by rewrite <- (updates_rel_ids _ _ _ Hupd).
Qed.

Lemma reachable_complete orc L st w :
  reachable orc L st w -> NoDup (order_ids st) -> complete st.
Proof.
  induction 1 as [c w0 L st w Hs|L st w st' w' HR IH Hit]; intros Hnd.
  - revert Hs.
    unfold setup, bind, time_time, random_uniform, random_random, random_getrandbits, ret.
    simpl. intros [= <- <- <-]. split; [done|].
    intros r o s Ho. simpl in Ho. by rewrite lookup_nil in Ho.
  - destruct (iteration_tick _ _ _ _ _ _ HR Hit) as (Hrel & _).
    destruct (tick_rel_ids _ _ _ Hrel) as [news Hids].
    eapply tick_complete; [by eapply reachable_Inv|exact Hrel|exact Hnd|].
    apply IH. rewrite Hids in Hnd. by apply NoDup_app in Hnd as (? & _).
Qed.

(** An order of the registry is never terminal, collisions or not. *)
Lemma registered_orders_are_nonterminal orc L st w k r o :
  reachable orc L st w ->
  dict_get k (active_orders st) = Some r -> store st !! r = Some o ->
  exists s, get_str o "status" = Ok s /\ s ∈ NONTERMINAL.
Proof.
  intros HR Hk Ho.
  destruct (inv_active _ (reachable_Inv _ _ _ _ HR) _ _ Hk) as (o0 & Ho0 & Hact).
  rewrite Ho in Ho0. injection Ho0 as <-.
  destruct (ao_status _ _ Hact) as (s & Hs & Hin).
  exists s. by rewrite (get_str_Some _ _ _ Hs).
Qed.

(** With distinct identifiers the registry holds exactly the orders that
    are not terminal. *)
Lemma registry_holds_the_nonterminal_orders orc L st w r o s :
  reachable orc L st w -> NoDup (order_ids st) ->
  store st !! r = Some o -> get_str o "status" = Ok s ->
  (exists k, dict_get k (active_orders st) = Some r) <-> s ∈ NONTERMINAL.
Proof.
  intros HR Hnd Ho Hs. split.
  - intros [k Hk].
    destruct (registered_orders_are_nonterminal _ _ _ _ _ _ _ HR Hk Ho) as (s' & Hs' & Hin).
    congruence.
  - intros Hin. destruct (reachable_complete _ _ _ _ HR Hnd) as [_ Hreg].
    eapply Hreg; [exact Ho|by apply get_str_inv|exact Hin].
Qed.

(** With distinct identifiers the counters balance at every tick boundary. *)
Lemma counters_balance orc L st w :
  reachable orc L st w -> NoDup (order_ids st) ->
  new_orders_count st =
  shipped_orders_count st + cancelled_orders_count st
  + Z.of_nat (length (active_orders st)).
Proof.
  intros HR Hnd. by destruct (reachable_complete _ _ _ _ HR Hnd) as [Hbal _].
Qed.

Lemma loop_reachable orc ticks L :
  forall st w st' w',
    reachable orc L st w -> loop orc ticks L st w = Ok (st', w') ->
    exists w'', reachable orc L st' w''.
Proof.
  induction ticks as [|n IH]; intros st w st' w' HR; simpl.
  - intros [= <- <-]. by exists w.
  - intros ([st1|] & w1 & E1 & E2)%bind_Ok.
    + eapply IH; [|exact E2]. by eapply reach_tick.
    + injection E2 as <- <-. by exists w.
Qed.

Lemma shutdown_report orc L st w report w' :
  shutdown orc L st w = Ok (report, w') ->
  total_created report = new_orders_count st /\
  total_status_updates report = status_updates_count st /\
  total_shipped report = shipped_orders_count st /\
  total_cancelled report = cancelled_orders_count st /\
  still_active report = length (active_orders st).
Proof.
  unfold shutdown.
  intros (_ & w1 & _ & E)%bind_Ok.
  apply bind_Ok in E as (now & w2 & _ & E). cbv zeta in E.
  apply bind_Ok in E as (success & w3 & _ & E).
  apply bind_Ok in E as (cancellation & w4 & _ & E).
  apply bind_Ok in E as (minutes & w5 & _ & E).
  apply bind_Ok in E as (rate & w6 & _ & E).
  by injection E as <- <-.
Qed.

(** The report of every completed session whose identifiers are distinct
    satisfies created = shipped + cancelled + still active. *)
Lemma report_balances orc ticks c w0 st report w' :
  run_generator orc ticks c w0 = Ok ((st, report), w') ->
  NoDup (order_ids st) ->
  total_created report =
  total_shipped report + total_cancelled report + Z.of_nat (still_active report).
Proof.
  unfold run_generator.
  intros ([L st0] & w1 & E1 & E2)%bind_Ok Hnd.
  apply bind_Ok in E2 as (st1 & w2 & E2 & E3).
  apply bind_Ok in E3 as (report1 & w3 & E3 & E4). injection E4 as <- <- <-.
  simpl in E2, E3.
  destruct (loop_reachable _ _ _ _ _ _ _ (reach_setup _ _ _ _ _ _ E1) E2) as [w'' HR].
  destruct (shutdown_report _ _ _ _ _ _ E3) as (-> & _ & -> & -> & ->).
  by eapply counters_balance.
Qed.

(** ** Sessions of zero duration

    What C7 states of the loop holds whenever the clock does not run
    backwards between the start and the first tick; whether the report is
    produced depends on the clock having moved by the time it is computed. *)

Lemma zero_duration_loop orc ticks c w0 L st w :
  setup orc c w0 = Ok ((L, st), w) ->
  duration_minutes c = 0 ->
  (clock orc (n_clock w0) <= clock orc (n_clock w))%Q ->
  exists w',
    loop orc (S ticks) L st w = Ok (st, w') /\
    out w' = out w0 /\ n_clock w' = S (n_clock w) /\
    new_orders_count st = 0 /\ status_updates_count st = 0 /\
    shipped_orders_count st = 0 /\ cancelled_orders_count st = 0 /\
    store st = [] /\ active_orders st = [].
Proof.
  unfold setup, bind, time_time, random_uniform, random_random, random_getrandbits, ret.
  simpl. intros [= <- <- <-] Hd Hle. simpl in Hle.
  unfold iteration, bind, time_time, duration_seconds. simpl. rewrite Hd.
  change (0 * 60) with 0.
  assert (Qle_bool (inject_Z 0) (clock orc (S (S (n_clock w0))) - clock orc (n_clock w0)) = true)
    as ->.
  { apply Qle_bool_iff. change (inject_Z 0) with 0%Q. lra. }
  eexists. split; [reflexivity|]. simpl. done.
Qed.

Lemma truediv_zero a b : (b == 0)%Q -> truediv a b = Raise ZeroDivisionError.
Proof. intros H. unfold truediv. by rewrite (proj2 (Qeq_bool_iff _ _) H). Qed.

Lemma truediv_nonzero a b : ~ (b == 0)%Q -> truediv a b = Ok (a / b)%Q.
Proof.
  intros H. unfold truediv. destruct (Qeq_bool b 0) eqn:E; [|done].
  by apply Qeq_bool_iff in E.
Qed.

(** The report of a session that created nothing: its two guarded rates
    are zero, and its average rate is computed exactly when the elapsed
    time is not zero. *)
Lemma bind_ret {A B} (a : A) (k : A -> M B) w : bind (ret a) k w = k a w.
Proof. reflexivity. Qed.

Lemma bind_lift_Ok {A B} (r : res A) (a : A) (k : A -> M B) w :
  r = Ok a -> bind (lift r) k w = k a w.
Proof. by intros ->. Qed.

Lemma bind_lift_Raise {A B} (r : res A) e (k : A -> M B) w :
  r = Raise e -> bind (lift r) k w = Raise e.
Proof. by intros ->. Qed.

Lemma bind_run {A B} (m : M A) (k : A -> M B) w a w1 :
  m w = Ok (a, w1) -> bind m k w = k a w1.
Proof. intros E. unfold bind. by rewrite E. Qed.

(** The report of a session that created nothing: its two guarded rates
    are zero, and its average rate is computed exactly when the elapsed
    time is not zero. *)
Lemma empty_session_report orc L st w :
  new_orders_count st = 0 ->
  let elapsed_time := (clock orc (n_clock w) - start_time L)%Q in
  ((elapsed_time == 0)%Q -> shutdown orc L st w = Raise ZeroDivisionError) /\
  (~ (elapsed_time == 0)%Q ->
   exists report w',
     shutdown orc L st w = Ok (report, w') /\
     total_created report = 0 /\
     success_rate report = 0%Q /\ cancellation_rate report = 0%Q /\
     (average_rate report == 0)%Q).
Proof.
  intros Hn elapsed_time.
  assert (Hsixty : truediv elapsed_time 60 = Ok (elapsed_time / 60)%Q).
  { by apply truediv_nonzero. }
  assert (Hw : exists w1,
            when (kafka_producer L)
              (emit (Line "Flushing and closing Kafka producer...") ;;;
               emit (Line "Kafka producer closed.")) w = Ok (tt, w1) /\
            n_clock w1 = n_clock w).
  { destruct (kafka_producer L); eexists; split; reflexivity. }
  destruct Hw as (w1 & Ew & Hw1).
  assert (Ht : exists w2, time_time orc w1 = Ok (clock orc (n_clock w), w2)).
  { unfold time_time. rewrite Hw1. by eexists. }
  destruct Ht as (w2 & Et).
  unfold shutdown.
  rewrite (bind_run _ _ _ _ _ Ew). rewrite (bind_run _ _ _ _ _ Et).
  cbv zeta. fold elapsed_time. rewrite Hn. change (0 <? 0) with false. cbv iota.
  rewrite !bind_ret. rewrite (bind_lift_Ok _ _ _ _ Hsixty).
  change (inject_Z 0) with 0%Q.
  split.
  - intros Hz. apply bind_lift_Raise, truediv_zero. rewrite Hz. reflexivity.
  - intros Hnz.
    assert (Hm : ~ (elapsed_time / 60 == 0)%Q).
    { intros H. apply Hnz. rewrite <- (Qmult_div_r elapsed_time 60) by done.
      rewrite H. ring. }
    rewrite (bind_lift_Ok _ _ _ _ (truediv_nonzero _ _ Hm)).
    eexists _, _. split; [reflexivity|]. simpl.
    split; [done|]. split; [done|]. split; [done|]. unfold Qdiv. ring.
Qed.

(** A session of zero duration, from start to report. *)
Lemma zero_duration_session orc ticks c w0 :
  duration_minutes c = 0 ->
  (clock orc (n_clock w0) <= clock orc (S (S (n_clock w0))))%Q ->
  let elapsed_time := (clock orc (S (S (S (n_clock w0)))) - clock orc (n_clock w0))%Q in
  ((elapsed_time == 0)%Q ->
   run_generator orc (S ticks) c w0 = Raise ZeroDivisionError) /\
  (~ (elapsed_time == 0)%Q ->
   exists st report w',
     run_generator orc (S ticks) c w0 = Ok ((st, report), w') /\
     store st = [] /\
     total_created report = 0 /\
     success_rate report = 0%Q /\ cancellation_rate report = 0%Q /\
     (average_rate report == 0)%Q).
Proof.
  intros Hd Hle elapsed_time.
  destruct (setup orc c w0) as [[[L st] w]|e] eqn:Es.
  2: { revert Es. unfold setup, bind, time_time, random_uniform, random_random,
         random_getrandbits, ret. simpl. done. }
  assert (Hw : n_clock w = S (S (n_clock w0)) /\ start_time L = clock orc (n_clock w0)).
  { revert Es. unfold setup, bind, time_time, random_uniform, random_random,
      random_getrandbits, ret. simpl. by intros [= <- <- <-]. }
  destruct Hw as [Hw Hstart].
  destruct (zero_duration_loop orc ticks c w0 L st w Es Hd)
    as (w1 & El & _ & Hw1 & Hn & _ & _ & _ & Hst & _).
  { by rewrite Hw. }
  rewrite Hw in Hw1.
  destruct (empty_session_report orc L st w1 Hn) as [Hzero Hnz].
  rewrite Hw1, Hstart in Hzero, Hnz. fold elapsed_time in Hzero, Hnz.
  unfold run_generator. rewrite (bind_run _ _ _ _ _ Es). simpl.
  rewrite (bind_run _ _ _ _ _ El).
  split.
  - intros Hz. unfold bind. by rewrite (Hzero Hz).
  - intros Hne. destruct (Hnz Hne) as (report & w' & E & H1 & H2 & H3 & H4).
    exists st, report, w'. rewrite (bind_run _ _ _ _ _ E). done.
Qed.

(** ** Sessions on concrete oracles *)

(** The session after [n] ticks ([None] when the loop left earlier). *)
Fixpoint run_ticks (orc : Oracle) (n : nat) (L : Locals) (st : Session) : M (option Session) :=
  match n with
  | O => ret (Some st)
  | S n =>
      r <- iteration orc L st ;;
      match r with
      | None => ret None
      | Some st' => run_ticks orc n L st'
      end
  end.

Definition session_at (orc : Oracle) (c : Config) (n : nat) : M (option (Locals * Session)) :=
  p <- setup orc c ;;
  r <- run_ticks orc n p.1 p.2 ;;
  ret (match r with Some st => Some (p.1, st) | None => None end).

Lemma run_ticks_reachable orc n L :
  forall st w st' w',
    reachable orc L st w -> run_ticks orc n L st w = Ok (Some st', w') ->
    reachable orc L st' w'.
Proof.
  induction n as [|n IH]; intros st w st' w' HR; simpl.
  - by intros [= <- <-].
  - intros ([st1|] & w1 & E1 & E2)%bind_Ok; [|done].
    eapply IH; [|exact E2]. by eapply reach_tick.
Qed.

Lemma session_at_reachable orc c n w0 L st w :
  session_at orc c n w0 = Ok (Some (L, st), w) -> reachable orc L st w.
Proof.
  unfold session_at.
  intros ([L0 st0] & w1 & E1 & E2)%bind_Ok.
  apply bind_Ok in E2 as ([st1|] & w2 & E2 & E3); [|done].
  injection E3 as <- <- <-. simpl in E2.
  eapply run_ticks_reachable; [|exact E2]. by eapply reach_setup.
Qed.

(** An oracle given by the lists of its random draws and clock readings. *)
Definition scripted (bits : list N) (times : list Q) : Oracle :=
  {| rand_bits := fun n => nth n bits 0%N;
     clock := fun n => nth n times (List.last times 0%Q);
     utc := fun n => "2024-01-01T00:00:0" +:+ pretty n;
     faker := fun n => "fake-" +:+ pretty n;
     kafka_up := false;
     kafka_ack := fun _ => true |}.

(** A broker that acknowledges every other record, a clock read every 12 s. *)
Definition demo_oracle : Oracle :=
  {| rand_bits := fun n => (N.of_nat n * 2000000000000007 + 13)%N;
     clock := fun n => (inject_Z (Z.of_nat n) * 12 + 1000)%Q;
     utc := fun n => "2024-01-01T00:00:" +:+ pretty n;
     faker := fun n => "fake-" +:+ pretty n;
     kafka_up := true;
     kafka_ack := fun n => Nat.even n |}.

Definition demo_config : Config :=
  {| duration_minutes := 5; min_delay := 1; max_delay := 60;
     kafka_bootstrap_servers := Some "localhost:9092";
     kafka_topic := Some "ecommerce-sales";
     output_console := true |}.

Definition console_config (minutes : Z) : Config :=
  {| duration_minutes := minutes; min_delay := 1; max_delay := 60;
     kafka_bootstrap_servers := None; kafka_topic := None;
     output_console := true |}.

(** The order admitted at t = 1 is due at t = 11; the draw of its
    cancellation check is 0, below CANCELLATION_PROBABILITY. *)
Definition cancelling_oracle : Oracle :=
  scripted [0; 4; 2; 2 ^ 52; 2345678; 23456; 1; 0; 2 ^ 52; 0; 2]%N
           [0; 0; 1; 11; 60; 61]%Q.

(** The draws of the two calls of [random.randint(10000000, 99999999)]
    (the fifth and the thirteenth draw) are both 2345678. *)
Definition colliding_oracle : Oracle :=
  scripted [0; 4; 2; 2 ^ 52; 2345678; 23456; 1; 0; 0;
            7; 0; 2 ^ 51; 2345678; 654321; 3; 0; 0]%N
           [0; 0; 1; 2; 60; 61]%Q.

(** A clock that returns the same reading every time it is read. *)
Definition frozen_clock_oracle : Oracle := scripted [] [1000]%Q.




(** A tick of a concrete session, checked by evaluation: the state after
    [n] ticks, one more iteration from it, and a test on both. *)
Definition is_tick (orc : Oracle) (c : Config) (n : nat)
    (test : Session -> Session -> World -> World -> bool) : bool :=
  match session_at orc c n world0 with
  | Ok (Some (L, st), w) =>
      match iteration orc L st w with
      | Ok (Some st', w') => test st st' w w'
      | _ => false
      end
  | _ => false
  end.

Lemma is_tick_elim orc c n test :
  is_tick orc c n test = true ->
  exists L st w st' w',
    session_at orc c n world0 = Ok (Some (L, st), w) /\
    iteration orc L st w = Ok (Some st', w') /\
    test st st' w w' = true.
Proof.
  unfold is_tick.
  destruct (session_at orc c n world0) as [[[[L st]|] w]|e]; try done.
  destruct (iteration orc L st w) as [[[st'|] w']|e] eqn:E; try done.
  intros Ht. by exists L, st, w, st', w'.
Qed.

Definition has_status (s : list Order) (r : nat) (status : string) : bool :=
  match s !! r with
  | Some o => match get_str o "status" with
              | Ok s' => bool_decide (s' = status)
              | Raise _ => false
              end
  | None => false
  end.

Lemma has_status_true s r status :
  has_status s r status = true ->
  exists o, s !! r = Some o /\ get_str o "status" = Ok status.
Proof.
  unfold has_status. destruct (s !! r) as [o|]; [|done].
  destruct (get_str o "status") as [s'|] eqn:Hs; [|done].
  intros E%bool_decide_eq_true. subst s'. by exists o.
Qed.

Lemma status_moves_forward_only_witness :
  exists L st w st' w',
    session_at demo_oracle demo_config 2 world0 = Ok (Some (L, st), w) /\
    iteration demo_oracle L st w = Ok (Some st', w') /\
    (has_status (store st) 0 "pending" && has_status (store st') 0 "confirmed" = true) /\
    (forall r o, store st !! r = Some o ->
       exists o' s s',
         store st' !! r = Some o' /\
         get_str o "status" = Ok s /\ get_str o' "status" = Ok s' /\
         (s' = s \/ forward_step s s' \/ (s ∈ NONTERMINAL /\ s' = "cancelled")) /\
         (s ∈ ["shipped"; "cancelled"] -> o' = o)) /\
    (forall r o', store st' !! r = Some o' -> (length (store st) <= r)%nat ->
       get_str o' "status" = Ok "pending").
Proof.
  destruct (is_tick_elim demo_oracle demo_config 2
              (fun st st' _ _ =>
                 has_status (store st) 0 "pending" && has_status (store st') 0 "confirmed"))
    as (L & st & w & st' & w' & E & Hit & Ht).
  { vm_compute. reflexivity. }
  exists L, st, w, st', w'. split; [exact E|]. split; [exact Hit|]. split; [exact Ht|].
  exact (status_moves_forward_only _ _ _ _ _ _ (session_at_reachable _ _ _ _ _ _ _ E) Hit).
Defined.

Lemma cancellation_reason_matches_status_witness :
  exists L st w st' w' o o',
    session_at cancelling_oracle (console_config 1) 1 world0 = Ok (Some (L, st), w) /\
    iteration cancelling_oracle L st w = Ok (Some st', w') /\
    store st !! 0%nat = Some o /\ store st' !! 0%nat = Some o' /\
    get_str o "status" = Ok "pending" /\
    get_str o' "status" = Ok "cancelled" /\
    (exists reasons reason,
       CANCELLATION_REASONS !! "pending" = Some reasons /\
       o' !! "cancellation_reason" = Some (VStr reason) /\
       reason ∈ reasons) /\
    (forall r o, store st !! r = Some o ->
       exists s, get_str o "status" = Ok s /\
         (is_Some (o !! "cancellation_reason") <-> s = "cancelled")).
Proof.
  destruct (is_tick_elim cancelling_oracle (console_config 1) 1
              (fun st st' _ _ =>
                 has_status (store st) 0 "pending" && has_status (store st') 0 "cancelled"))
    as (L & st & w & st' & w' & E & Hit & Ht).
  { vm_compute. reflexivity. }
  apply andb_true_iff in Ht as [H1 H2].
  apply has_status_true in H1 as (o & Ho & Hs).
  apply has_status_true in H2 as (o' & Ho' & Hs').
  pose proof (cancellation_reason_matches_status _ _ _ _
                (session_at_reachable _ _ _ _ _ _ _ E)) as [Hiff Hreason].
  exists L, st, w, st', w', o, o'.
  split; [exact E|]. split; [exact Hit|]. split; [exact Ho|]. split; [exact Ho'|].
  split; [exact Hs|]. split; [exact Hs'|]. split; [|exact Hiff].
  apply (Hreason st' w' 0%nat o o' "pending" Hit Ho Ho' Hs); [discriminate|exact Hs'].
Defined.

Definition not_due_at (orc : Oracle) (o : Order) (w : World) : bool :=
  match get_num o "last_status_change", get_num o "transition_time" with
  | Ok l, Ok d => Qlt_bool (clock orc (n_clock w) - l) d
  | _, _ => false
  end.

Lemma not_due_at_true orc o w :
  not_due_at orc o w = true ->
  exists l d, get_num o "last_status_change" = Ok l /\
              get_num o "transition_time" = Ok d /\
              (clock orc (n_clock w) - l < d)%Q.
Proof.
  unfold not_due_at, Qlt_bool.
  destruct (get_num o "last_status_change") as [l|]; [|done].
  destruct (get_num o "transition_time") as [d|]; [|done].
  intros H%negb_true_iff. exists l, d. split; [done|]. split; [done|].
  apply Qnot_le_lt. intros Hle%Qle_bool_iff. congruence.
Qed.

(** Two consecutive ticks of a concrete session, checked by evaluation. *)
Definition is_two_ticks (orc : Oracle) (c : Config) (n : nat)
    (test : Session -> World -> World -> bool) : bool :=
  match session_at orc c n world0 with
  | Ok (Some (L, st), w) =>
      match iteration orc L st w with
      | Ok (Some st1, w1) =>
          match iteration orc L st1 w1 with
          | Ok (Some st2, w2) => test st w w1
          | _ => false
          end
      | _ => false
      end
  | _ => false
  end.

Lemma is_two_ticks_elim orc c n test :
  is_two_ticks orc c n test = true ->
  exists L st w st1 w1 st2 w2,
    session_at orc c n world0 = Ok (Some (L, st), w) /\
    iteration orc L st w = Ok (Some st1, w1) /\
    iteration orc L st1 w1 = Ok (Some st2, w2) /\
    test st w w1 = true.
Proof.
  unfold is_two_ticks.
  destruct (session_at orc c n world0) as [[[[L st]|] w]|e]; try done.
  destruct (iteration orc L st w) as [[[st1|] w1]|e] eqn:E1; try done.
  destruct (iteration orc L st1 w1) as [[[st2|] w2]|e] eqn:E2; try done.
  intros Ht. by exists L, st, w, st1, w1, st2, w2.
Qed.

(** The order admitted at t = 1 has to dwell 10 s; the clock is read again
    at t = 3 and at t = 5. *)
Definition patient_oracle : Oracle :=
  scripted [0; 4; 2; 2 ^ 52; 2345678; 23456; 1; 0; 2 ^ 52]%N
           [0; 0; 1; 3; 5; 60; 61]%Q.

Definition waiting (orc : Oracle) (st : Session) (w w1 : World) : bool :=
  match store st !! 0%nat with
  | Some o =>
      not_due_at orc o w && not_due_at orc o w1 &&
      bool_decide (n_clock w = 3%nat) && bool_decide (n_clock w1 = 4%nat)
  | None => false
  end.

Lemma not_due_order_is_untouched_witness :
  exists L st w st' w' o,
    session_at patient_oracle (console_config 1) 1 world0 = Ok (Some (L, st), w) /\
    ticks patient_oracle L st w [3; 5]%Q st' w' /\
    store st !! 0%nat = Some o /\
    store st' !! 0%nat = Some o /\
    exists outs, out w' = out w ++ outs /\ Forall (fun e => src_of e <> Some 0%nat) outs.
Proof.
  destruct (is_two_ticks_elim patient_oracle (console_config 1) 1 (waiting patient_oracle))
    as (L & st & w & st1 & w1 & st2 & w2 & E & E1 & E2 & Ht).
  { vm_compute. reflexivity. }
  unfold waiting in Ht.
  destruct (store st !! 0%nat) as [o|] eqn:Ho; [|discriminate Ht].
  apply andb_true_iff in Ht as [Ht Hw1]. apply andb_true_iff in Ht as [Ht Hw].
  apply andb_true_iff in Ht as [H1 H2].
  apply bool_decide_eq_true in Hw, Hw1.
  destruct (not_due_at_true _ _ _ H1) as (l & d & Hl & Hd & Hlt1).
  destruct (not_due_at_true _ _ _ H2) as (l' & d' & Hl' & Hd' & Hlt2).
  rewrite Hl in Hl'. injection Hl' as <-. rewrite Hd in Hd'. injection Hd' as <-.
  pose proof (ticks_step _ _ _ _ _ _ _ _ _ E1
                (ticks_step _ _ _ _ _ _ _ _ _ E2 (ticks_done _ _ _ _))) as Hticks.
  rewrite Hw, Hw1 in Hticks. rewrite Hw in Hlt1. rewrite Hw1 in Hlt2.
  change (clock patient_oracle 3) with 3%Q in Hticks, Hlt1.
  change (clock patient_oracle 4) with 5%Q in Hticks, Hlt2.
  exists L, st, w, st2, w2, o.
  split; [exact E|]. split; [exact Hticks|]. split; [exact Ho|].
  apply (not_due_order_is_untouched patient_oracle L st w [3; 5]%Q st2 w2 0%nat o l d
           (session_at_reachable _ _ _ _ _ _ _ E) Hticks Ho Hl Hd).
  apply Forall_cons. split; [exact Hlt1|].
  apply Forall_cons. split; [exact Hlt2|]. apply Forall_nil_2.
Defined.

Definition is_boundary (orc : Oracle) (c : Config) (n : nat) : bool :=
  match session_at orc c n world0 with
  | Ok (Some _, _) => true
  | _ => false
  end.

Lemma is_boundary_elim orc c n :
  is_boundary orc c n = true ->
  exists L st w, session_at orc c n world0 = Ok (Some (L, st), w).
Proof.
  unfold is_boundary.
  destruct (session_at orc c n world0) as [[[[L st]|] w]|e]; try done. eauto.
Qed.

Lemma status_lookups_never_fail_witness :
  exists L st w,
    session_at demo_oracle demo_config 4 world0 = Ok (Some (L, st), w) /\
    (forall k r o, dict_get k (active_orders st) = Some r -> store st !! r = Some o ->
       exists s s', get_str o "status" = Ok s /\ s ∈ NONTERMINAL /\
         get_next_status s = Ok s' /\ is_Some (STATUS_TRANSITION_TIMES !! s)) /\
    (exists res w', iteration demo_oracle L st w = Ok (res, w')).
Proof.
  destruct (is_boundary_elim demo_oracle demo_config 4) as (L & st & w & E).
  { vm_compute. reflexivity. }
  exists L, st, w. split; [exact E|].
  destruct status_lookups_never_fail as (_ & _ & _ & H).
  exact (H _ _ _ _ (session_at_reachable _ _ _ _ _ _ _ E)).
Defined.

(** ** Sessions in which the code departs from its documentation (C2, C3, C5, C7) *)

(** A whole run on a concrete oracle, checked by evaluation. *)
Definition is_run (orc : Oracle) (ticks : nat) (c : Config)
    (test : Session -> Report -> World -> bool) : bool :=
  match run_generator orc ticks c world0 with
  | Ok ((st, report), w) => test st report w
  | Raise _ => false
  end.

Lemma is_run_elim orc ticks c test :
  is_run orc ticks c test = true ->
  exists st report w,
    run_generator orc ticks c world0 = Ok ((st, report), w) /\ test st report w = true.
Proof.
  unfold is_run.
  destruct (run_generator orc ticks c world0) as [[[st report] w]|e]; [|done].
  intros Ht. by exists st, report, w.
Qed.

(** Was the loop left by the interrupt branch. *)
Definition interrupted (w : World) : bool :=
  existsb (fun e => match e with
                    | Line msg => bool_decide (msg = "Generator stopped by user.")
                    | _ => false
                    end) (out w).

Definition has_order_id (s : list Order) (r : nat) (id : string) : bool :=
  match s !! r with
  | Some o => match get_str o "order_id" with
              | Ok id' => bool_decide (id' = id)
              | Raise _ => false
              end
  | None => false
  end.

Lemma has_order_id_true s r id :
  has_order_id s r id = true ->
  exists o, s !! r = Some o /\ get_str o "order_id" = Ok id.
Proof.
  unfold has_order_id. destruct (s !! r) as [o|]; [|done].
  destruct (get_str o "order_id") as [id'|] eqn:Hs; [|done].
  intros E%bool_decide_eq_true. subst id'. by exists o.
Qed.

(** C5. On [colliding_oracle] the two orders created in one session, two
    distinct objects of the store, carry the same identifier: the code draws
    identifiers at random and never checks them against the registry. *)
Theorem two_orders_share_an_identifier :
  exists st report w a b,
    run_generator colliding_oracle 10 (console_config 1) world0 = Ok ((st, report), w) /\
    total_created report = 2 /\
    store st !! 0%nat = Some a /\ store st !! 1%nat = Some b /\
    get_str a "order_id" = Ok "ORD-12345678" /\
    get_str b "order_id" = Ok "ORD-12345678".
Proof.
  destruct (is_run_elim colliding_oracle 10 (console_config 1)
              (fun st report _ =>
                 bool_decide (total_created report = 2) &&
                 has_order_id (store st) 0 "ORD-12345678" &&
                 has_order_id (store st) 1 "ORD-12345678"))
    as (st & report & w & E & Ht).
  { vm_compute. reflexivity. }
  apply andb_true_iff in Ht as [Ht Hb]. apply andb_true_iff in Ht as [Hn Ha].
  apply bool_decide_eq_true in Hn.
  apply has_order_id_true in Ha as (a & Ha & Hida).
  apply has_order_id_true in Hb as (b & Hb & Hidb).
  exists st, report, w, a, b.
  split; [exact E|]. split; [exact Hn|]. split; [exact Ha|]. split; [exact Hb|].
  split; [exact Hida|exact Hidb].
Qed.

(** C2. The same session runs to the end of its minute and reports two
    orders created, none shipped, none cancelled and one still active: the
    second order replaced the first under their common key. *)
Theorem collision_breaks_the_balance :
  exists st report w,
    run_generator colliding_oracle 10 (console_config 1) world0 = Ok ((st, report), w) /\
    interrupted w = false /\
    total_created report = 2 /\
    total_shipped report = 0 /\
    total_cancelled report = 0 /\
    still_active report = 1%nat /\
    total_created report <> total_shipped report + total_cancelled report
                            + Z.of_nat (still_active report).
Proof.
  destruct (is_run_elim colliding_oracle 10 (console_config 1)
              (fun _ report w =>
                 negb (interrupted w) &&
                 bool_decide (total_created report = 2) &&
                 bool_decide (total_shipped report = 0) &&
                 bool_decide (total_cancelled report = 0) &&
                 bool_decide (still_active report = 1%nat)))
    as (st & report & w & E & Ht).
  { vm_compute. reflexivity. }
  apply andb_true_iff in Ht as [Ht H5]. apply andb_true_iff in Ht as [Ht H4].
  apply andb_true_iff in Ht as [Ht H3]. apply andb_true_iff in Ht as [H1 H2].
  apply negb_true_iff in H1.
  apply bool_decide_eq_true in H2, H3, H4, H5.
  exists st, report, w.
  split; [exact E|]. split; [exact H1|]. split; [exact H2|]. split; [exact H3|].
  split; [exact H4|]. split; [exact H5|].
  rewrite H2, H3, H4, H5. discriminate.
Qed.

(** C3. At the end of the same session the first order is still pending,
    yet the registry no longer refers to it. *)
Theorem collision_drops_a_pending_order :
  exists st report w o,
    run_generator colliding_oracle 10 (console_config 1) world0 = Ok ((st, report), w) /\
    store st !! 0%nat = Some o /\
    get_str o "status" = Ok "pending" /\
    0%nat ∉ dict_values (active_orders st).
Proof.
  destruct (is_run_elim colliding_oracle 10 (console_config 1)
              (fun st _ _ =>
                 has_status (store st) 0 "pending" &&
                 bool_decide (0%nat ∉ dict_values (active_orders st))))
    as (st & report & w & E & Ht).
  { vm_compute. reflexivity. }
  apply andb_true_iff in Ht as [H1 H2].
  apply has_status_true in H1 as (o & Ho & Hs).
  apply bool_decide_eq_true in H2.
  exists st, report, w, o.
  split; [exact E|]. split; [exact Ho|]. split; [exact Hs|exact H2].
Qed.

Definition is_loop (orc : Oracle) (ticks : nat) (c : Config)
    (test : Session -> World -> bool) : bool :=
  match setup orc c world0 with
  | Ok ((L, st), w) =>
      match loop orc ticks L st w with
      | Ok (st', w') => test st' w'
      | Raise _ => false
      end
  | Raise _ => false
  end.

Lemma is_loop_elim orc ticks c test :
  is_loop orc ticks c test = true ->
  exists L st w st' w',
    setup orc c world0 = Ok ((L, st), w) /\
    loop orc ticks L st w = Ok (st', w') /\ test st' w' = true.
Proof.
  unfold is_loop.
  destruct (setup orc c world0) as [[[L st] w]|e]; [|done].
  destruct (loop orc ticks L st w) as [[st' w']|e] eqn:E; [|done].
  intros Ht. by exists L, st, w, st', w'.
Qed.

(** C7. With a duration of 0 minutes and a clock that returns the same
    reading at every call, the loop leaves at its first tick with nothing
    created and nothing written, and the report then divides by an elapsed
    time of zero: the average rate has no guard, unlike the two rates
    computed just before it. *)
Theorem zero_duration_rate_divides_by_zero :
  (exists L st w st' w',
     setup frozen_clock_oracle (console_config 0) world0 = Ok ((L, st), w) /\
     loop frozen_clock_oracle 10 L st w = Ok (st', w') /\
     new_orders_count st' = 0 /\ status_updates_count st' = 0 /\
     shipped_orders_count st' = 0 /\ cancelled_orders_count st' = 0 /\
     store st' = [] /\ out w' = []) /\
  run_generator frozen_clock_oracle 10 (console_config 0) world0 = Raise ZeroDivisionError.
Proof.
  split; [|vm_compute; reflexivity].
  destruct (is_loop_elim frozen_clock_oracle 10 (console_config 0)
              (fun st w =>
                 bool_decide (new_orders_count st = 0) &&
                 bool_decide (status_updates_count st = 0) &&
                 bool_decide (shipped_orders_count st = 0) &&
                 bool_decide (cancelled_orders_count st = 0) &&
                 bool_decide (length (store st) = 0%nat) &&
                 bool_decide (length (out w) = 0%nat)))
    as (L & st & w & st' & w' & E & El & Ht).
  { vm_compute. reflexivity. }
  apply andb_true_iff in Ht as [Ht H6]. apply andb_true_iff in Ht as [Ht H5].
  apply andb_true_iff in Ht as [Ht H4]. apply andb_true_iff in Ht as [Ht H3].
  apply andb_true_iff in Ht as [H1 H2].
  apply bool_decide_eq_true in H1, H2, H3, H4, H5, H6.
  exists L, st, w, st', w'.
  split; [exact E|]. split; [exact El|]. split; [exact H1|]. split; [exact H2|].
  split; [exact H3|]. split; [exact H4|].
  split; [by apply nil_length_inv|by apply nil_length_inv].
Qed.

(** ** Startup validation (C6) *)







(** * Further properties of the generator *)

(** ** Numbers drawn and rounded *)

Lemma ret_Ok {A} (a b : A) w w' : ret a w = Ok (b, w') -> b = a /\ w' = w.
Proof. by intros [= <- <-]. Qed.

Lemma lift_Ok {A} (r : res A) (a : A) w w' : lift r w = Ok (a, w') -> r = Ok a /\ w' = w.
Proof. unfold lift. destruct r; [|done]. by intros [= <- <-]. Qed.

Lemma unit_interval_scale (d u : Q) :
  (0 <= d)%Q -> (0 <= u <= 1)%Q -> (0 <= d * u <= d)%Q.
Proof.
  intros Hd [H0 H1]. split; [by apply Qmult_le_0_compat|].
  assert (0 <= d * (1 - u))%Q by (apply Qmult_le_0_compat; lra). lra.
Qed.

(** [random.uniform(a, b)] stays between its bounds, in either order. *)
Definition between (a b x : Q) : Prop :=
  ((a <= b)%Q -> (a <= x <= b)%Q) /\ ((b <= a)%Q -> (b <= x <= a)%Q).

Lemma affine_between (a b u : Q) :
  (0 <= u <= 1)%Q -> between a b (a + (b - a) * u)%Q.
Proof.
  intros Hu. split; intros Hab.
  - destruct (unit_interval_scale (b - a) u) as [H1 H2]; [lra|done|]. lra.
  - destruct (unit_interval_scale (a - b) u) as [H1 H2]; [lra|done|].
    assert ((b - a) * u == - ((a - b) * u))%Q by ring. lra.
Qed.

Lemma quiet_random_unit orc : quiet (random_random orc) (fun u => (0 <= u <= 1)%Q).
Proof.
  unfold random_random. eapply quiet_bind; [apply quiet_getrandbits|].
  intros b _. apply total_ret. split; [done|].
  pose proof (N.mod_lt b (2 ^ 53)) as Hlt.
  unfold Qle. cbn [Qnum Qden]. rewrite Z.mul_0_l, !Z.mul_1_r, Z.mul_1_l.
  split; [apply N2Z.is_nonneg|].
  assert (Z.of_N (b mod 2 ^ 53) < Z.of_N (2 ^ 53)) by (apply N2Z.inj_lt, Hlt; done).
  change (Z.of_N (2 ^ 53)) with (Z.pos (2 ^ 53)) in *. lia.
Qed.

Lemma quiet_random_between orc a b : quiet (random_uniform orc a b) (between a b).
Proof.
  unfold random_uniform. eapply quiet_bind; [apply quiet_random_unit|].
  intros u Hu. cbv beta in Hu. apply total_ret. split; [done|]. by apply affine_between.
Qed.

Lemma round_half_even_lower (n : Z) (q : Q) :
  (inject_Z n <= q)%Q -> n <= round_half_even q.
Proof.
  intros H. unfold round_half_even.
  assert (n <= Qfloor q).
  { rewrite <- (Qfloor_Z n). by apply Qfloor_resp_le. }
  destruct (_ ?= _)%Q; [destruct (Z.even _)| |]; lia.
Qed.

Lemma round_half_even_upper (n : Z) (q : Q) :
  (q <= inject_Z n)%Q -> round_half_even q <= n.
Proof.
  intros H. unfold round_half_even.
  assert (Hf : Qfloor q <= n).
  { rewrite <- (Qfloor_Z n). by apply Qfloor_resp_le. }
  destruct (decide (Qfloor q = n)) as [E|Hne].
  - assert (Hd : (q - inject_Z (Qfloor q) < 1 # 2)%Q).
    { rewrite E. lra. }
    destruct (_ ?= _)%Q eqn:Ec; [|lia|].
    + apply Qeq_alt in Ec. lra.
    + apply Qgt_alt in Ec. lra.
  - destruct (_ ?= _)%Q; [destruct (Z.even _)| |]; lia.
Qed.

(** Rounding to two decimals keeps an amount between bounds that are
    themselves amounts in hundredths. *)
Lemma round2_between (a b : Z) (u : Q) :
  (a # 100 <= u <= b # 100)%Q -> (a # 100 <= round2 u <= b # 100)%Q.
Proof.
  intros [Ha Hb]. unfold round2.
  assert (H1 : a <= round_half_even (u * 100)).
  { apply round_half_even_lower. destruct u as [p q]. unfold Qle in *. cbn in *.
    rewrite Pos.mul_1_r. lia. }
  assert (H2 : round_half_even (u * 100) <= b).
  { apply round_half_even_upper. destruct u as [p q]. unfold Qle in *. cbn in *.
    rewrite Pos.mul_1_r. lia. }
  generalize dependent (round_half_even (u * 100)). intros r H1 H2.
  unfold Qle, Qdiv, Qmult, Qinv, inject_Z. cbn. lia.
Qed.

(** ** The order factory *)

Definition SALE_FIELDS : list string :=
  ["order_id"; "timestamp"; "product_id"; "product_name"; "quantity"; "price";
   "total"; "customer_id"; "customer_email"; "payment_method";
   "shipping_address"; "status"].

(** What [generate_sale] promises of the dictionary it returns. *)
Record sale_schema (o : Order) : Prop := {
  ss_fields : dom o = list_to_set SALE_FIELDS;
  ss_status : o !! "status" = Some (VStr "pending");
  ss_product : exists product,
    product ∈ PRODUCTS /\
    o !! "product_id" = Some (VStr (p_id product)) /\
    o !! "product_name" = Some (VStr (p_name product)) /\
    exists quantity unit_price,
      o !! "quantity" = Some (VInt quantity) /\ 1 <= quantity <= 5 /\
      o !! "price" = Some (VFloat unit_price) /\
      ((p_price_range product).1 <= unit_price <= (p_price_range product).2)%Q /\
      o !! "total" = Some (VFloat (round2 (inject_Z quantity * unit_price)));
  ss_order_id : exists n,
    o !! "order_id" = Some (VStr ("ORD-" +:+ pretty n)) /\ 10000000 <= n <= 99999999;
  ss_customer_id : exists n,
    o !! "customer_id" = Some (VStr ("CUST-" +:+ pretty n)) /\ 100000 <= n <= 999999;
  ss_payment : exists m,
    m ∈ PAYMENT_METHODS /\ o !! "payment_method" = Some (VStr m)
}.

Definition price_range_ok (p : product) : Prop :=
  exists a b, p_price_range p = ((a # 100)%Q, (b # 100)%Q) /\ a <= b.

Lemma products_price_ranges : Forall price_range_ok PRODUCTS.
Proof.
  unfold PRODUCTS. repeat apply Forall_cons_2; try apply Forall_nil_2;
    (eexists _, _; split; [reflexivity|done]).
Qed.

Lemma quiet_order_id orc :
  quiet (generate_order_id orc)
    (fun s => exists n, s = "ORD-" +:+ pretty n /\ 10000000 <= n <= 99999999).
Proof.
  unfold generate_order_id.
  eapply quiet_bind; [by apply quiet_random_randint|].
  intros n Hn. apply total_ret. split; [done|]. by exists n.
Qed.

Lemma quiet_customer_id orc :
  quiet (generate_customer_id orc)
    (fun s => exists n, s = "CUST-" +:+ pretty n /\ 100000 <= n <= 999999).
Proof.
  unfold generate_customer_id.
  eapply quiet_bind; [by apply quiet_random_randint|].
  intros n Hn. apply total_ret. split; [done|]. by exists n.
Qed.

Lemma quiet_generate_sale_schema orc : quiet (generate_sale orc) sale_schema.
Proof.
  unfold generate_sale.
  eapply quiet_bind; [by apply quiet_random_choice|]. intros product Hproduct.
  eapply quiet_bind; [by apply quiet_random_randint|]. intros quantity Hquantity.
  eapply quiet_bind; [apply quiet_random_between|]. intros u Hu.
  eapply quiet_bind; [apply quiet_order_id|]. intros order_id (n & -> & Hn).
  eapply quiet_bind; [apply quiet_utcnow|]. intros timestamp _.
  eapply quiet_bind; [apply quiet_customer_id|]. intros customer_id (c & -> & Hc).
  eapply quiet_bind; [apply quiet_fake|]. intros customer_email _.
  eapply quiet_bind; [by apply quiet_random_choice|]. intros payment_method Hpay.
  eapply quiet_bind; [apply quiet_generate_address|]. intros shipping_address _.
  apply total_ret. split; [done|].
  cbv beta in Hproduct, Hquantity, Hu, Hpay.
  split.
  - rewrite !dom_insert_L, dom_empty_L. unfold SALE_FIELDS. simpl.
    apply set_eq. intros k. rewrite !elem_of_union, !elem_of_singleton.
    rewrite elem_of_empty. tauto.
  - reflexivity.
  - exists product. split; [done|]. split; [reflexivity|]. split; [reflexivity|].
    exists quantity, (round2 u). split; [reflexivity|]. split; [done|].
    split; [reflexivity|]. split; [|reflexivity].
    pose proof products_price_ranges as Hall. rewrite Forall_forall in Hall.
    destruct (Hall product Hproduct) as (a & b & Hr & Hab).
    rewrite Hr in *. simpl in *. apply round2_between. apply Hu.
    unfold Qle. simpl. lia.
  - by exists n.
  - by exists c.
  - by exists payment_method.
Qed.

(** X1. [generate_sale] never raises and writes nothing; the dictionary it
    returns has exactly the twelve fields of a sale, is pending, names a
    product of the catalog with a quantity from 1 to 5, a unit price within
    the product's price range and the rounded total, an order and a customer
    identifier in their numeric ranges, and a listed payment method. *)
Theorem generate_sale_schema orc w :
  exists o w', generate_sale orc w = Ok (o, w') /\ out w' = out w /\ sale_schema o.
Proof.
  destruct (quiet_generate_sale_schema orc w) as (o & w' & outs & E & Hout & -> & Hs).
  exists o, w'. rewrite app_nil_r in Hout. done.
Qed.

(** ** The lifecycle policy, on any order *)

Lemma list_index_absent x l : x ∉ l -> list_index x l = Raise ValueError.
Proof.
  induction l as [|y l IH]; simpl; [done|].
  intros [Hne Hl]%not_elem_of_cons. rewrite decide_False by done.
  by rewrite IH.
Qed.

(** X2. [get_next_status] is defined exactly on the statuses of
    ORDER_STATUS_FLOW: it raises ValueError on any other string, returns the
    next entry for pending, confirmed and processing, and returns shipped
    for shipped. *)
Theorem get_next_status_cases s :
  (s ∉ ORDER_STATUS_FLOW -> get_next_status s = Raise ValueError) /\
  (s ∈ ORDER_STATUS_FLOW ->
   exists s', get_next_status s = Ok s' /\ s' ∈ ORDER_STATUS_FLOW /\
     (forward_step s s' \/ (s = "shipped" /\ s' = "shipped"))).
Proof.
  split.
  - intros Hs. unfold get_next_status. by rewrite list_index_absent.
  - unfold ORDER_STATUS_FLOW. rewrite !elem_of_cons, elem_of_nil.
    intros [->|[->|[->|[->|[]]]]].
    + exists "confirmed". split; [reflexivity|]. split; [in_list|]. left. by exists 0%nat.
    + exists "processing". split; [reflexivity|]. split; [in_list|]. left. by exists 1%nat.
    + exists "shipped". split; [reflexivity|]. split; [in_list|]. left. by exists 2%nat.
    + exists "shipped". split; [reflexivity|]. split; [in_list|]. by right.
Qed.

Lemma get_next_status_cases_witness :
  (("refunded" ∉ ORDER_STATUS_FLOW) /\ get_next_status "refunded" = Raise ValueError) /\
  ("shipped" ∈ ORDER_STATUS_FLOW /\
   exists s', get_next_status "shipped" = Ok s' /\ s' ∈ ORDER_STATUS_FLOW /\
     (forward_step "shipped" s' \/ ("shipped" = "shipped" /\ s' = "shipped"))).
Proof.
  assert (H1 : "refunded" ∉ ORDER_STATUS_FLOW).
  { unfold ORDER_STATUS_FLOW. rewrite !not_elem_of_cons. repeat split; try discriminate.
    apply not_elem_of_nil. }
  assert (H2 : "shipped" ∈ ORDER_STATUS_FLOW) by in_list.
  split.
  - split; [exact H1|]. exact (proj1 (get_next_status_cases "refunded") H1).
  - split; [exact H2|]. exact (proj2 (get_next_status_cases "shipped") H2).
Defined.

Lemma reasons_nonempty s reasons :
  CANCELLATION_REASONS !! s = Some reasons -> reasons <> [].
Proof.
  unfold CANCELLATION_REASONS. intros H.
  apply lookup_insert_Some in H as [[_ <-]|[_ H]]; [done|].
  apply lookup_insert_Some in H as [[_ <-]|[_ H]]; [done|].
  apply lookup_insert_Some in H as [[_ <-]|[_ H]]; [done|].
  by rewrite lookup_empty in H.
Qed.

Lemma transition_times_ordered s range :
  STATUS_TRANSITION_TIMES !! s = Some range -> 0 < range.1 <= range.2.
Proof.
  unfold STATUS_TRANSITION_TIMES. intros H.
  apply lookup_insert_Some in H as [[_ <-]|[_ H]]; [done|].
  apply lookup_insert_Some in H as [[_ <-]|[_ H]]; [done|].
  apply lookup_insert_Some in H as [[_ <-]|[_ H]]; [done|].
  by rewrite lookup_empty in H.
Qed.

(** The result of [cancel_order] on [o] with the reason and timestamp drawn. *)
Definition cancelled_at (o : Order) (now : Q) (reason timestamp : string) : Order :=
  <["last_status_change" := VFloat now]>
  (<["timestamp" := VStr timestamp]>
  (<["cancellation_reason" := VStr reason]>
  (<["status" := VStr "cancelled"]> o))).

Definition reason_for (s reason : string) : Prop :=
  match CANCELLATION_REASONS !! s with
  | Some reasons => reason ∈ reasons
  | None => reason = "order_cancelled"
  end.

(** The reasons [cancel_order] can give to an order whose status is the
    value [v]: only a string can be a key of CANCELLATION_REASONS. *)
Definition reason_for_status (v : value) (reason : string) : Prop :=
  match v with
  | VStr s => reason_for s reason
  | _ => reason = "order_cancelled"
  end.

Definition hashable (v : value) : bool :=
  match v with VAddr _ => false | _ => true end.

Lemma quiet_cancel_hashable orc o now v :
  o !! "status" = Some v -> hashable v = true ->
  quiet (cancel_order orc o now)
    (fun o' => exists reason timestamp,
       o' = cancelled_at o now reason timestamp /\ reason_for_status v reason).
Proof.
  intros Hs Hv. unfold cancel_order.
  eapply total_bind_lift; [unfold getitem; by rewrite Hs|].
  assert (Hdefault : quiet (ret "order_cancelled" ;;; (timestamp <- utcnow_isoformat_Z orc ;;
                        ret (cancelled_at o now "order_cancelled" timestamp)))
            (fun o' => exists reason timestamp,
               o' = cancelled_at o now reason timestamp /\ reason = "order_cancelled")).
  { eapply (quiet_bind _ _ (fun _ => True)); [by apply total_ret|]. intros _ _.
    eapply quiet_bind; [apply quiet_utcnow|]. intros timestamp _.
    apply total_ret. split; [done|]. by exists "order_cancelled", timestamp. }
  destruct v as [s|z|q|a]; [|exact Hdefault|exact Hdefault|done].
  unfold reason_for_status, reason_for.
  destruct (CANCELLATION_REASONS !! s) as [reasons|] eqn:Hr.
  - eapply quiet_bind; [apply quiet_random_choice; by eapply reasons_nonempty|].
    intros reason Hreason.
    eapply quiet_bind; [apply quiet_utcnow|]. intros timestamp _.
    apply total_ret. split; [done|]. by exists reason, timestamp.
  - exact Hdefault.
Qed.

Lemma quiet_cancel_any orc o now s :
  o !! "status" = Some (VStr s) ->
  quiet (cancel_order orc o now)
    (fun o' => exists reason timestamp,
       o' = cancelled_at o now reason timestamp /\ reason_for s reason).
Proof. intros Hs. by apply (quiet_cancel_hashable orc o now (VStr s)). Qed.

(** X4. On any order whose status is a string or a number, [cancel_order]
    raises nothing and writes nothing: the status becomes cancelled,
    last_status_change becomes the current time, the reason comes from the
    list of the status the order had, or is order_cancelled when that status
    has no list (as for shipped, cancelled, any other string and any
    number), and every field but status, cancellation_reason, timestamp and
    last_status_change is kept.  On an order whose status is a dictionary
    it raises TypeError, and on an order without a status KeyError. *)
Theorem cancel_order_effect orc o now w :
  (forall v, o !! "status" = Some v -> hashable v = true ->
   exists o' w' reason,
     cancel_order orc o now w = Ok (o', w') /\ out w' = out w /\
     o' !! "status" = Some (VStr "cancelled") /\
     o' !! "cancellation_reason" = Some (VStr reason) /\ reason_for_status v reason /\
     o' !! "last_status_change" = Some (VFloat now) /\
     forall k, k ∉ ["status"; "cancellation_reason"; "timestamp"; "last_status_change"] ->
               o' !! k = o !! k) /\
  (forall a, o !! "status" = Some (VAddr a) ->
   cancel_order orc o now w = Raise TypeError) /\
  (o !! "status" = None -> cancel_order orc o now w = Raise KeyError).
Proof.
  split; [|split].
  - intros v Hs Hv.
    destruct (quiet_cancel_hashable orc o now v Hs Hv w)
      as (o' & w' & outs & E & Hout & -> & reason & timestamp & -> & Hreason).
    rewrite app_nil_r in Hout.
    exists (cancelled_at o now reason timestamp), w', reason.
    split; [done|]. split; [done|]. unfold cancelled_at.
    split; [by simplify_map_eq|]. split; [by simplify_map_eq|].
    split; [done|]. split; [by simplify_map_eq|].
    intros k Hk. rewrite !not_elem_of_cons in Hk.
    destruct Hk as (? & ? & ? & ? & _). by simplify_map_eq.
  - intros a Hs. unfold cancel_order, bind, lift, getitem. by rewrite Hs.
  - intros Hs. unfold cancel_order, bind, lift, getitem. by rewrite Hs.
Qed.

Definition shipped_example : Order :=
  <["status" := VStr "shipped"]> (<["order_id" := VStr "ORD-10000000"]> ∅).

(** An order whose status is the number 5. *)
Definition numbered_example : Order :=
  <["status" := VInt 5]> (<["order_id" := VStr "ORD-10000000"]> ∅).

Lemma cancel_order_effect_witness :
  (shipped_example !! "status" = Some (VStr "shipped") /\
   exists o' w' reason,
     cancel_order demo_oracle shipped_example 7 world0 = Ok (o', w') /\ out w' = out world0 /\
     o' !! "status" = Some (VStr "cancelled") /\
     o' !! "cancellation_reason" = Some (VStr reason) /\ reason_for "shipped" reason /\
     o' !! "last_status_change" = Some (VFloat 7) /\
     forall k, k ∉ ["status"; "cancellation_reason"; "timestamp"; "last_status_change"] ->
               o' !! k = shipped_example !! k) /\
  (numbered_example !! "status" = Some (VInt 5) /\
   exists o' w' reason,
     cancel_order demo_oracle numbered_example 7 world0 = Ok (o', w') /\ out w' = out world0 /\
     o' !! "status" = Some (VStr "cancelled") /\
     o' !! "cancellation_reason" = Some (VStr reason) /\ reason = "order_cancelled" /\
     o' !! "last_status_change" = Some (VFloat 7) /\
     forall k, k ∉ ["status"; "cancellation_reason"; "timestamp"; "last_status_change"] ->
               o' !! k = numbered_example !! k).
Proof.
  assert (H : shipped_example !! "status" = Some (VStr "shipped")) by reflexivity.
  assert (H5 : numbered_example !! "status" = Some (VInt 5)) by reflexivity.
  split.
  - split; [exact H|].
    exact (proj1 (cancel_order_effect demo_oracle shipped_example 7 world0)
             (VStr "shipped") H eq_refl).
  - split; [exact H5|].
    exact (proj1 (cancel_order_effect demo_oracle numbered_example 7 world0)
             (VInt 5) H5 eq_refl).
Defined.

(** The order after a normal advance to [s'], before any new dwell is drawn. *)
Definition advanced_to (o : Order) (now : Q) (s' timestamp : string) : Order :=
  <["last_status_change" := VFloat now]>
  (<["timestamp" := VStr timestamp]>
  (<["status" := VStr s']> o)).

(** The three ways [advance_order_status] returns on an order of status [s]. *)
Inductive advance_result (o : Order) (now : Q) (s : string) : Order -> Prop :=
| ar_cancel reason timestamp :
    s ∉ ["shipped"; "cancelled"] -> reason_for s reason ->
    advance_result o now s (cancelled_at o now reason timestamp)
| ar_final timestamp :
    get_next_status s = Ok "shipped" ->
    advance_result o now s (advanced_to o now "shipped" timestamp)
| ar_step s' timestamp range t :
    get_next_status s = Ok s' -> s' <> "shipped" ->
    STATUS_TRANSITION_TIMES !! s' = Some range ->
    (inject_Z range.1 <= t <= inject_Z range.2)%Q ->
    advance_result o now s
      (<["transition_time" := VFloat t]> (advanced_to o now s' timestamp)).

Lemma inject_Z_le (a b : Z) : a <= b -> (inject_Z a <= inject_Z b)%Q.
Proof. intros H. unfold Qle. simpl. lia. Qed.

Lemma quiet_should_cancel orc s :
  quiet (should_cancel_order orc s)
    (fun cancel => cancel = true -> s ∉ ["shipped"; "cancelled"]).
Proof.
  unfold should_cancel_order, str_in. case_bool_decide as Hin.
  - by apply total_ret.
  - eapply quiet_bind; [apply quiet_random_random|]. intros u _.
    by apply total_ret.
Qed.

Lemma advance_inv orc o now w o' w' :
  advance_order_status orc o now w = Ok (o', w') ->
  exists s, o !! "status" = Some (VStr s) /\ advance_result o now s o' /\ out w' = out w.
Proof.
  unfold advance_order_status.
  intros (s & w1 & [Hs ->]%lift_Ok & E)%bind_Ok.
  apply get_str_inv in Hs. exists s. split; [done|].
  apply bind_Ok in E as (cancel & w2 & Ec & E).
  destruct (total_run _ _ _ _ _ (quiet_should_cancel orc s) Ec) as (o1 & Ho1 & -> & Hc).
  rewrite app_nil_r in Ho1. destruct cancel.
  - destruct (total_run _ _ _ _ _ (quiet_cancel_any orc o now s Hs) E)
      as (o2 & Ho2 & -> & reason & ts & -> & Hreason).
    rewrite app_nil_r in Ho2. split; [|congruence].
    apply ar_cancel; auto.
  - apply bind_Ok in E as (s' & w3 & [Hnext ->]%lift_Ok & E).
    apply bind_Ok in E as (ts & w4 & Ets & E).
    destruct (total_run _ _ _ _ _ (quiet_utcnow orc) Ets) as (o3 & Ho3 & -> & _).
    rewrite app_nil_r in Ho3. cbv zeta in E.
    case_bool_decide as Hship.
    + apply bind_Ok in E as (range & w5 & [Hrange ->]%lift_Ok & E).
      apply bind_Ok in E as (t & w6 & Et & [-> ->]%ret_Ok).
      destruct (STATUS_TRANSITION_TIMES !! s') as [range'|] eqn:Hr; [|done].
      injection Hrange as ->.
      destruct (total_run _ _ _ _ _ (quiet_random_between orc _ _) Et)
        as (o4 & Ho4 & -> & [Hbetween _]).
      rewrite app_nil_r in Ho4. split; [|congruence].
      eapply ar_step; eauto. apply Hbetween, inject_Z_le.
      by apply (transition_times_ordered _ _ Hr).
    + apply ret_Ok in E as [-> ->]. split; [|congruence].
      rewrite Hship in *. by apply ar_final.
Qed.

(** X3. Called on an order that is already shipped, [advance_order_status]
    draws no random number, never cancels, and leaves it shipped: only the
    timestamp and last_status_change are rewritten.  Called on a cancelled
    order it raises ValueError. *)
Theorem advance_terminal_order orc o now w :
  (o !! "status" = Some (VStr "shipped") ->
   exists timestamp w',
     advance_order_status orc o now w = Ok (advanced_to o now "shipped" timestamp, w') /\
     n_rand w' = n_rand w /\ out w' = out w /\
     forall k, k ∉ ["timestamp"; "last_status_change"] ->
               advanced_to o now "shipped" timestamp !! k = o !! k) /\
  (o !! "status" = Some (VStr "cancelled") ->
   advance_order_status orc o now w = Raise ValueError).
Proof.
  split; intros Hs.
  - unfold advance_order_status, bind, lift. rewrite (get_str_Some _ _ _ Hs).
    simpl. eexists _, _. split; [reflexivity|]. split; [done|]. split; [done|].
    intros k Hk. rewrite !not_elem_of_cons in Hk. destruct Hk as (? & ? & _).
    unfold advanced_to. destruct (decide (k = "status")) as [->|]; by simplify_map_eq.
  - unfold advance_order_status, bind, lift. by rewrite (get_str_Some _ _ _ Hs).
Qed.

Lemma advance_terminal_order_witness :
  shipped_example !! "status" = Some (VStr "shipped") /\
  exists timestamp w',
    advance_order_status demo_oracle shipped_example 7 world0
      = Ok (advanced_to shipped_example 7 "shipped" timestamp, w') /\
    n_rand w' = n_rand world0 /\ out w' = out world0 /\
    forall k, k ∉ ["timestamp"; "last_status_change"] ->
              advanced_to shipped_example 7 "shipped" timestamp !! k = shipped_example !! k.
Proof.
  assert (H : shipped_example !! "status" = Some (VStr "shipped")) by reflexivity.
  split; [exact H|].
  exact (proj1 (advance_terminal_order demo_oracle shipped_example 7 world0) H).
Defined.

(** The fields a transition may write. *)
Definition LIFECYCLE_FIELDS : list string :=
  ["status"; "timestamp"; "last_status_change"; "transition_time"; "cancellation_reason"].

(** Two states of one order: the same dictionary outside the lifecycle fields. *)
Definition same_commercial (o o' : Order) : Prop :=
  forall k, k ∉ LIFECYCLE_FIELDS -> o' !! k = o !! k.

Lemma same_commercial_refl o : same_commercial o o.
Proof. by intros k _. Qed.

Lemma same_commercial_trans o1 o2 o3 :
  same_commercial o1 o2 -> same_commercial o2 o3 -> same_commercial o1 o3.
Proof. intros H1 H2 k Hk. by rewrite H2, H1. Qed.

Lemma advance_result_commercial o now s o' :
  advance_result o now s o' ->
  same_commercial o o' /\ o' !! "last_status_change" = Some (VFloat now).
Proof.
  intros H. split.
  - intros k Hk. unfold LIFECYCLE_FIELDS in Hk. rewrite !not_elem_of_cons in Hk.
    destruct Hk as (? & ? & ? & ? & ? & _).
    destruct H; unfold cancelled_at, advanced_to; by simplify_map_eq.
  - destruct H; unfold cancelled_at, advanced_to; by simplify_map_eq.
Qed.

(** ** What one pass of the loop body does, exactly *)

(** The outputs of one of the two output blocks of the loop, for the key
    read from the order and the acknowledgement of the broker. *)
Definition dispatch_outputs (L : Locals) (s : site) (src : nat) (key : string)
    (p : Order) (ok : bool) : list output :=
  (if kafka_producer L
   then ToKafka s src (kafka_topic (cfg L)) key p ok
        :: (if ok then [] else [Line "ERROR sending to Kafka"; Warning s key])
   else [])
  ++ (if output_console (cfg L) then [ToConsole s src p] else []).

Lemma dispatch_inv orc L s src o p w u w' :
  dispatch orc L s src o p w = Ok (u, w') ->
  exists key ok,
    (kafka_producer L = true -> get_str o "order_id" = Ok key) /\
    out w' = out w ++ dispatch_outputs L s src key p ok.
Proof.
  unfold dispatch, dispatch_outputs, send_to_kafka, future_get, emit, when, bind, lift, ret.
  destruct (kafka_producer L).
  - destruct (get_str o "order_id") as [key|]; [|done].
    destruct (kafka_ack orc (n_ack w)) eqn:Hack; simpl;
      destruct (output_console (cfg L)); simpl; intros [= <- <-]; simpl;
      [exists key, true | exists key, true | exists key, false | exists key, false];
      (split; [done|]); rewrite <- ?app_assoc; reflexivity.
  - destruct (output_console (cfg L)); simpl; intros [= <- <-]; simpl;
      exists "", true; (split; [done|]); by rewrite ?app_nil_r.
Qed.

(** What the admission block does when the arrival time has come. *)
Definition admission_effect (orc : Oracle) (L : Locals) (now : Q) (st st' : Session)
    (w : World) (outs : list output) : Prop :=
  exists sale0 w1 t key ok delay,
    generate_sale orc w = Ok (sale0, w1) /\
    (10 <= t <= 30)%Q /\
    between (inject_Z (min_delay (cfg L))) (inject_Z (max_delay (cfg L))) delay /\
    let sale := <["transition_time" := VFloat t]>
                  (<["last_status_change" := VFloat now]> sale0) in
    get_str sale "order_id" = Ok key /\
    store st' = store st ++ [sale] /\
    active_orders st' = dict_set key (length (store st)) (active_orders st) /\
    new_orders_count st' = new_orders_count st + 1 /\
    status_updates_count st' = status_updates_count st /\
    shipped_orders_count st' = shipped_orders_count st /\
    cancelled_orders_count st' = cancelled_orders_count st /\
    next_order_time st' = (now + delay)%Q /\
    outs = dispatch_outputs L AtCreation (length (store st)) key (strip sale) ok.

Lemma admission_inv orc L now st w st' w' :
  admission orc L now st w = Ok (st', w') ->
  (Qle_bool (next_order_time st) now = false /\ st' = st /\ w' = w) \/
  (Qle_bool (next_order_time st) now = true /\
   exists outs, out w' = out w ++ outs /\ admission_effect orc L now st st' w outs).
Proof.
  unfold admission. destruct (Qle_bool (next_order_time st) now).
  2: { intros [-> ->]%ret_Ok. by left. }
  intros H. right. split; [done|].
  apply bind_Ok in H as (sale0 & w1 & Esale & E).
  destruct (total_run _ _ _ _ _ (quiet_generate_sale orc) Esale) as (o1 & Ho1 & -> & _).
  rewrite app_nil_r in Ho1. cbv zeta in E.
  assert (Hp : STATUS_TRANSITION_TIMES !! "pending" = Some (10, 30)) by reflexivity.
  rewrite Hp in E.
  apply bind_Ok in E as (range & w2 & [Hrange ->]%lift_Ok & E).
  injection Hrange as <-. cbn [fst snd] in E.
  apply bind_Ok in E as (t & w3 & Et & E).
  destruct (total_run _ _ _ _ _ (quiet_random_between orc _ _) Et) as (o2 & Ho2 & -> & [Ht _]).
  rewrite app_nil_r in Ho2.
  apply bind_Ok in E as (key & w4 & [Hkey ->]%lift_Ok & E).
  apply bind_Ok in E as (u & w5 & Ed & E).
  destruct (dispatch_inv _ _ _ _ _ _ _ _ _ Ed) as (key' & ok & Hk' & Hout).
  apply bind_Ok in E as (delay & w6 & Edelay & [-> ->]%ret_Ok).
  destruct (total_run _ _ _ _ _ (quiet_random_between orc _ _) Edelay)
    as (o3 & Ho3 & -> & Hdelay).
  rewrite app_nil_r in Ho3.
  assert (Hkk : dispatch_outputs L AtCreation (length (store st)) key'
                  (strip (<["transition_time" := VFloat t]>
                            (<["last_status_change" := VFloat now]> sale0))) ok
              = dispatch_outputs L AtCreation (length (store st)) key
                  (strip (<["transition_time" := VFloat t]>
                            (<["last_status_change" := VFloat now]> sale0))) ok).
  { unfold dispatch_outputs. destruct (kafka_producer L); [|done].
    specialize (Hk' eq_refl). rewrite Hkey in Hk'. by injection Hk' as ->. }
  exists (dispatch_outputs L AtCreation (length (store st)) key
            (strip (<["transition_time" := VFloat t]>
                      (<["last_status_change" := VFloat now]> sale0))) ok).
  split; [rewrite Ho3, Hout, Hkk, Ho2, Ho1; reflexivity|].
  exists sale0, w1, t, key, ok, delay.
  split; [done|]. split; [by apply Ht|]. split; [done|]. cbv zeta.
  split; [done|]. repeat (split; [reflexivity|]). reflexivity.
Qed.

(** What one pass of the update loop does to the session, for the order
    [o'] that [advance_order_status] returned and its status [s']. *)
Definition update_effect (L : Locals) (k : string) (r : nat) (o' : Order) (s' : string)
    (st st' : Session) (outs : list output) : Prop :=
  store st' = <[r := o']> (store st) /\
  active_orders st' =
    (if bool_decide (s' ∈ ["shipped"; "cancelled"])
     then dict_del k (active_orders st) else active_orders st) /\
  new_orders_count st' = new_orders_count st /\
  status_updates_count st' = status_updates_count st + 1 /\
  shipped_orders_count st' =
    shipped_orders_count st + (if bool_decide (s' = "shipped") then 1 else 0) /\
  cancelled_orders_count st' =
    cancelled_orders_count st + (if bool_decide (s' = "cancelled") then 1 else 0) /\
  next_order_time st' = next_order_time st /\
  exists key ok,
    (kafka_producer L = true -> get_str o' "order_id" = Ok key) /\
    outs = dispatch_outputs L AtStatusUpdate r key (strip o') ok.

Lemma update_order_inv orc L now k st w st' w' :
  update_order orc L now k st w = Ok (st', w') ->
  exists r o o' s' w1 outs,
    dict_get k (active_orders st) = Some r /\
    store st !! r = Some o /\
    advance_order_status orc o now w = Ok (o', w1) /\
    o' !! "status" = Some (VStr s') /\
    out w' = out w ++ outs /\
    update_effect L k r o' s' st st' outs.
Proof.
  unfold update_order.
  intros (r & w0 & [Hr ->]%lift_Ok & E)%bind_Ok.
  destruct (dict_get k (active_orders st)) as [r'|] eqn:Hk; [|done].
  injection Hr as ->.
  apply bind_Ok in E as (o & w0 & [Ho ->]%lift_Ok & E).
  unfold deref in Ho. destruct (store st !! r) as [o0|] eqn:Hst; [|done].
  injection Ho as ->.
  apply bind_Ok in E as (o' & w1 & Eadv & E).
  destruct (advance_inv _ _ _ _ _ _ Eadv) as (s & Hs & _ & Hout1).
  cbv zeta in E.
  apply bind_Ok in E as (u & w2 & Ed & E).
  destruct (dispatch_inv _ _ _ _ _ _ _ _ _ Ed) as (key & ok & Hkey & Hout2).
  apply bind_Ok in E as (s' & w3 & [Hs' ->]%lift_Ok & E).
  apply get_str_inv in Hs'.
  assert (Hex : exists key0 ok0,
            (kafka_producer L = true -> get_str o' "order_id" = Ok key0) /\
            dispatch_outputs L AtStatusUpdate r key (strip o') ok
            = dispatch_outputs L AtStatusUpdate r key0 (strip o') ok0)
    by (by exists key, ok).
  assert (Hout : out w2 = out w ++ dispatch_outputs L AtStatusUpdate r key (strip o') ok)
    by (by rewrite Hout2, Hout1).
  exists r, o, o', s', w1, (dispatch_outputs L AtStatusUpdate r key (strip o') ok).
  split; [done|]. split; [done|]. split; [done|]. split; [done|].
  destruct (decide (s' = "shipped")) as [->|Hns].
  { rewrite bool_decide_eq_true_2 in E by done. apply ret_Ok in E as [-> ->].
    split; [exact Hout|].
    unfold update_effect. simpl. repeat (split; [first [reflexivity | lia]|]). exact Hex. }
  rewrite (bool_decide_eq_false_2 (s' = "shipped")) in E by done.
  destruct (decide (s' = "cancelled")) as [->|Hnc].
  { rewrite bool_decide_eq_true_2 in E by done. apply ret_Ok in E as [-> ->].
    split; [exact Hout|].
    unfold update_effect. simpl. repeat (split; [first [reflexivity | lia]|]). exact Hex. }
  rewrite (bool_decide_eq_false_2 (s' = "cancelled")) in E by done.
  apply ret_Ok in E as [-> ->].
  split; [exact Hout|].
  unfold update_effect. simpl.
  rewrite (bool_decide_eq_false_2 (s' ∈ ["shipped"; "cancelled"])).
  2: { rewrite !elem_of_cons, elem_of_nil. by intros [?|[?|?]]. }
  rewrite !(bool_decide_eq_false_2 (s' = _)) by done.
  repeat (split; [first [reflexivity | lia]|]). exact Hex.
Qed.

(** ** Relations kept by every step of a session

    A reflexive and transitive relation between the session and log before
    and after, kept by the admission block and by each pass of the update
    loop, is kept by ticks, loops and whole sessions. *)

Section Steps.
Variable orc : Oracle.
Variable L : Locals.
Variable R : Session -> list output -> Session -> list output -> Prop.
Hypothesis R_refl : forall st o, R st o st o.
Hypothesis R_trans : forall st1 o1 st2 o2 st3 o3,
  R st1 o1 st2 o2 -> R st2 o2 st3 o3 -> R st1 o1 st3 o3.

Section OneTick.
Variable now : Q.
Hypothesis R_admission : forall st w st' w',
  Inv st -> admission orc L now st w = Ok (st', w') -> R st (out w) st' (out w').
Hypothesis R_update : forall k st w st' w',
  Inv st -> update_order orc L now k st w = Ok (st', w') -> R st (out w) st' (out w').

Lemma update_orders_steps ids :
  forall st w st' w',
    Inv st -> NoDup ids ->
    (forall k, k ∈ ids -> is_Some (dict_get k (active_orders st))) ->
    update_orders orc L now ids st w = Ok (st', w') ->
    R st (out w) st' (out w').
Proof.
  induction ids as [|k rest IH]; intros st w st' w' HI Hnd Hin; simpl.
  { intros [-> ->]%ret_Ok. apply R_refl. }
  intros (st1 & w1 & E1 & E2)%bind_Ok.
  apply NoDup_cons in Hnd as [Hk_rest Hnd].
  destruct (Hin k) as [r Hk]; [apply list_elem_of_here|].
  destruct (inv_active _ HI _ _ Hk) as (o & Ho & Hact).
  destruct (emits_run _ _ _ _ _ _ (emits_update_order orc L now k st r o HI Hk Ho) E1)
    as [[HI1 (o' & s' & _ & _ & _ & Hreg & _)] _].
  eapply R_trans; [by eapply R_update|].
  eapply IH; [exact HI1|exact Hnd| |exact E2].
  intros k' Hk'. assert (k' <> k) by (intros ->; done).
  rewrite Hreg. destruct (str_in s' _).
  - rewrite dict_get_del by apply HI. rewrite decide_False by done.
    apply Hin. by apply list_elem_of_further.
  - apply Hin. by apply list_elem_of_further.
Qed.

Lemma tick_steps st w st' w' :
  Inv st -> tick orc L now st w = Ok (st', w') -> R st (out w) st' (out w').
Proof.
  intros HI. unfold tick.
  intros (st1 & w1 & E1 & E2)%bind_Ok.
  apply bind_Ok in E2 as (ids & w2 & [Hscan ->]%lift_Ok & E2).
  destruct (emits_run _ _ _ _ _ _ (emits_admission orc L now st HI) E1) as [[HI1 _] _].
  destruct (scan_spec (store st1) now (active_orders st1)) as (ids' & Hscan' & Hids & Hnd).
  { intros k r Hin. apply (inv_active _ HI1).
    apply dict_elem_get; [apply HI1|done]. }
  rewrite Hscan in Hscan'. injection Hscan' as <-.
  eapply R_trans; [by eapply R_admission|].
  eapply update_orders_steps; [exact HI1|apply Hnd, HI1| |exact E2].
  intros k (r & o & Hin & _)%Hids. exists r.
  apply dict_elem_get; [apply HI1|done].
Qed.

End OneTick.

Hypothesis R_admission : forall now st w st' w',
  Inv st -> admission orc L now st w = Ok (st', w') -> R st (out w) st' (out w').
Hypothesis R_update : forall now k st w st' w',
  Inv st -> update_order orc L now k st w = Ok (st', w') -> R st (out w) st' (out w').

Lemma iteration_steps st w st' w' :
  Inv st -> iteration orc L st w = Ok (Some st', w') -> R st (out w) st' (out w').
Proof.
  intros HI. unfold iteration.
  intros (now & w1 & E1 & E2)%bind_Ok.
  destruct (total_run _ _ _ _ _ (quiet_time_time orc) E1) as (o1 & Ho1 & -> & _).
  rewrite app_nil_r in Ho1. cbv zeta in E2.
  destruct (Qle_bool _ _); [by apply ret_Ok in E2 as [? _]|].
  apply bind_Ok in E2 as (st2 & w2 & E2 & [[= <-] ->]%ret_Ok).
  rewrite <- Ho1. eapply tick_steps; eauto.
Qed.

Lemma reachable_steps st w st' w' :
  reachable orc L st w -> iteration orc L st w = Ok (Some st', w') ->
  R st (out w) st' (out w').
Proof. intros HR. apply iteration_steps. by eapply reachable_Inv. Qed.

Hypothesis R_interrupt : forall st o,
  R st o st (o ++ [Line "Generator stopped by user."]).

Lemma loop_steps ticks :
  forall st w st' w',
    reachable orc L st w -> loop orc ticks L st w = Ok (st', w') ->
    R st (out w) st' (out w').
Proof.
  induction ticks as [|n IH]; intros st w st' w' HR; simpl.
  - intros [= <- <-]. simpl. apply R_interrupt.
  - intros ([st1|] & w1 & E1 & E2)%bind_Ok.
    + eapply R_trans; [by eapply reachable_steps|].
      eapply IH; [|exact E2]. by eapply reach_tick.
    + apply ret_Ok in E2 as [-> ->].
      destruct (total_run _ _ _ _ _ (emits_iteration orc L st (reachable_Inv _ _ _ _ HR)) E1)
        as (outs & -> & ->).
      rewrite app_nil_r. apply R_refl.
Qed.

End Steps.

(** An invariant of the sessions: true of the empty session, kept by the
    admission block and by each pass of the update loop. *)
Lemma reachable_invariant orc (Q : Locals -> Session -> Prop) :
  (forall c w0 L st w, setup orc c w0 = Ok ((L, st), w) -> Q L st) ->
  (forall L now st w st' w',
     Inv st -> Q L st -> admission orc L now st w = Ok (st', w') -> Q L st') ->
  (forall L now k st w st' w',
     Inv st -> Q L st -> update_order orc L now k st w = Ok (st', w') -> Q L st') ->
  forall L st w, reachable orc L st w -> Q L st.
Proof.
  intros Hinit Hadm Hupd L st w HR.
  induction HR as [c w0 L st w Hs|L st w st' w' HR IH Hit]; [by eapply Hinit|].
  revert IH.
  apply (reachable_steps orc L (fun st _ st' _ => Q L st -> Q L st')) with (w := w) (w' := w').
  - auto.
  - auto.
  - intros now st1 w1 st2 w2 HI E HQ. by eapply Hadm.
  - intros now k st1 w1 st2 w2 HI E HQ. by eapply Hupd.
  - exact HR.
  - exact Hit.
Qed.

Lemma iteration_inv orc L st w st' w' :
  iteration orc L st w = Ok (Some st', w') ->
  exists w1,
    out w1 = out w /\
    Qle_bool (inject_Z (duration_seconds L)) (clock orc (n_clock w) - start_time L) = false /\
    tick orc L (clock orc (n_clock w)) st w1 = Ok (st', w').
Proof.
  unfold iteration. unfold bind at 1. unfold time_time at 1. cbv zeta.
  destruct (Qle_bool _ _); [by intros [[=] _]%ret_Ok|].
  intros (st2 & w2 & E2 & [[= <-] ->]%ret_Ok)%bind_Ok.
  eexists. split; [|split; [done|exact E2]]. done.
Qed.

Lemma tick_inv orc L now st w st' w' :
  Inv st -> tick orc L now st w = Ok (st', w') ->
  exists st1 w1 ids,
    admission orc L now st w = Ok (st1, w1) /\ Inv st1 /\ NoDup ids /\
    (forall k, k ∈ ids -> is_Some (dict_get k (active_orders st1))) /\
    update_orders orc L now ids st1 w1 = Ok (st', w').
Proof.
  intros HI. unfold tick.
  intros (st1 & w1 & E1 & E2)%bind_Ok.
  apply bind_Ok in E2 as (ids & w2 & [Hscan ->]%lift_Ok & E2).
  destruct (emits_run _ _ _ _ _ _ (emits_admission orc L now st HI) E1) as [[HI1 _] _].
  destruct (scan_spec (store st1) now (active_orders st1)) as (ids' & Hscan' & Hids & Hnd).
  { intros k r Hin. apply (inv_active _ HI1).
    apply dict_elem_get; [apply HI1|done]. }
  rewrite Hscan in Hscan'. injection Hscan' as <-.
  exists st1, w1, ids. split; [done|]. split; [done|]. split; [apply Hnd, HI1|].
  split; [|done].
  intros k (r & o & Hin & _)%Hids. exists r.
  apply dict_elem_get; [apply HI1|done].
Qed.

(** ** Orders over a session *)

(** X5. Over any tick of a session every order object keeps all its fields
    except status, timestamp, last_status_change, transition_time and
    cancellation_reason: identifiers, product, quantity, prices, customer,
    payment method and address never change after creation. *)
Theorem commercial_fields_never_change orc L st w st' w' :
  reachable orc L st w ->
  iteration orc L st w = Ok (Some st', w') ->
  forall r o, store st !! r = Some o ->
    exists o', store st' !! r = Some o' /\
      forall k, k ∉ LIFECYCLE_FIELDS -> o' !! k = o !! k.
Proof.
  intros HR Hit.
  apply (reachable_steps orc L
           (fun st _ st' _ =>
              forall r o, store st !! r = Some o ->
                exists o', store st' !! r = Some o' /\ same_commercial o o'))
    with (w := w) (w' := w'); try done.
  - intros st0 _ r o Ho. exists o. split; [done|apply same_commercial_refl].
  - intros st1 _ st2 _ st3 _ H12 H23 r o Ho.
    destruct (H12 r o Ho) as (o2 & Ho2 & Hc2).
    destruct (H23 r o2 Ho2) as (o3 & Ho3 & Hc3).
    exists o3. split; [done|]. by eapply same_commercial_trans.
  - intros now st1 w1 st2 w2 _ E r o Ho.
    exists o. split; [|apply same_commercial_refl].
    apply admission_inv in E as [(_ & -> & _)|(_ & outs & _ & Hadm)]; [done|].
    destruct Hadm as (? & ? & ? & ? & ? & ? & _ & _ & _ & _ & -> & _).
    by apply lookup_app_l_Some.
  - intros now k st1 w1 st2 w2 _ E r o Ho.
    apply update_order_inv in E
      as (r0 & o0 & o' & s' & w3 & outs & _ & Ho0 & Eadv & _ & _ & (-> & _)).
    destruct (decide (r = r0)) as [->|Hne].
    + rewrite Ho in Ho0. injection Ho0 as <-.
      exists o'. split; [apply list_lookup_insert_eq; by eapply lookup_lt_Some|].
      destruct (advance_inv _ _ _ _ _ _ Eadv) as (s & _ & Hres & _).
      by apply advance_result_commercial in Hres as [? _].
    + exists o. split; [by rewrite list_lookup_insert_ne|apply same_commercial_refl].
Qed.

Lemma commercial_fields_never_change_witness :
  exists L st w st' w',
    session_at demo_oracle demo_config 2 world0 = Ok (Some (L, st), w) /\
    iteration demo_oracle L st w = Ok (Some st', w') /\
    (has_status (store st) 0 "pending" && has_status (store st') 0 "confirmed" = true) /\
    forall r o, store st !! r = Some o ->
      exists o', store st' !! r = Some o' /\
        forall k, k ∉ LIFECYCLE_FIELDS -> o' !! k = o !! k.
Proof.
  destruct (is_tick_elim demo_oracle demo_config 2
              (fun st st' _ _ =>
                 has_status (store st) 0 "pending" && has_status (store st') 0 "confirmed"))
    as (L & st & w & st' & w' & E & Hit & Ht).
  { vm_compute. reflexivity. }
  exists L, st, w, st', w'. split; [exact E|]. split; [exact Hit|]. split; [exact Ht|].
  exact (commercial_fields_never_change _ _ _ _ _ _
           (session_at_reachable _ _ _ _ _ _ _ E) Hit).
Defined.

(** Every order whose status has a dwell range carries a dwell duration
    drawn within that range. *)
Definition dwell_in_range (o : Order) : Prop :=
  forall s range,
    o !! "status" = Some (VStr s) -> STATUS_TRANSITION_TIMES !! s = Some range ->
    exists t, o !! "transition_time" = Some (VFloat t) /\
              (inject_Z range.1 <= t <= inject_Z range.2)%Q.

Lemma advance_result_dwell o now s o' : advance_result o now s o' -> dwell_in_range o'.
Proof.
  intros H s0 range0. destruct H as [reason ts Hs Hr|ts Hn|s' ts range t Hn Hs' Hrange Ht];
    unfold cancelled_at, advanced_to.
  - rewrite lookup_insert_ne, lookup_insert_ne, lookup_insert_ne, lookup_insert_eq by done.
    intros [= <-]. done.
  - rewrite lookup_insert_ne, lookup_insert_ne, lookup_insert_eq by done.
    intros [= <-]. done.
  - rewrite lookup_insert_ne, lookup_insert_ne, lookup_insert_ne, lookup_insert_eq by done.
    intros [= <-]. rewrite Hrange. intros [= <-].
    exists t. by rewrite lookup_insert_eq.
Qed.

Lemma dwell_invariant orc L st w :
  reachable orc L st w -> Forall dwell_in_range (store st).
Proof.
  apply (reachable_invariant orc (fun _ st => Forall dwell_in_range (store st))).
  - intros c w0 L0 st0 w1.
    unfold setup, bind, time_time, random_uniform, random_random, random_getrandbits, ret.
    simpl. intros [= <- <- <-]. simpl. apply Forall_nil_2.
  - intros L0 now st0 w0 st1 w1 _ HQ E.
    apply admission_inv in E as [(_ & -> & _)|(_ & outs & _ & Hadm)]; [done|].
    destruct Hadm as (sale0 & w2 & t & key & ok & delay & Esale & Ht & _ & Hrest).
    cbv zeta in Hrest. destruct Hrest as (_ & -> & _).
    apply Forall_app. split; [done|]. apply Forall_singleton.
    destruct (total_run _ _ _ _ _ (quiet_generate_sale orc) Esale)
      as (o1 & _ & _ & Hpending & _).
    intros s range. rewrite lookup_insert_ne, lookup_insert_ne by done.
    rewrite Hpending. intros [= <-] [= <-].
    exists t. by rewrite lookup_insert_eq.
  - intros L0 now k st0 w0 st1 w1 _ HQ E.
    apply update_order_inv in E
      as (r0 & o0 & o' & s' & w3 & outs & _ & Ho0 & Eadv & _ & _ & (-> & _)).
    destruct (advance_inv _ _ _ _ _ _ Eadv) as (s & _ & Hres & _).
    apply Forall_insert; [done|]. by eapply advance_result_dwell.
Qed.

(** X6. In every state of a session, every order whose status has a dwell
    range (pending, confirmed, processing) carries a transition_time within
    the range of its status. *)
Theorem dwell_time_within_range orc L st w r o s range :
  reachable orc L st w ->
  store st !! r = Some o ->
  get_str o "status" = Ok s ->
  STATUS_TRANSITION_TIMES !! s = Some range ->
  exists t, get_num o "transition_time" = Ok t /\
            (inject_Z range.1 <= t <= inject_Z range.2)%Q.
Proof.
  intros HR Ho Hs Hrange.
  pose proof (dwell_invariant _ _ _ _ HR) as Hall. rewrite Forall_forall in Hall.
  destruct (Hall o (list_elem_of_lookup_2 _ _ _ Ho) s range (get_str_inv _ _ _ Hs) Hrange)
    as (t & Ht & Hin).
  exists t. by rewrite (get_num_Some _ _ _ Ht).
Qed.

Lemma dwell_time_within_range_witness :
  exists L st w o,
    session_at demo_oracle demo_config 3 world0 = Ok (Some (L, st), w) /\
    store st !! 0%nat = Some o /\
    get_str o "status" = Ok "confirmed" /\
    STATUS_TRANSITION_TIMES !! "confirmed" = Some (15, 45) /\
    exists t, get_num o "transition_time" = Ok t /\ (inject_Z 15 <= t <= inject_Z 45)%Q.
Proof.
  destruct (is_tick_elim demo_oracle demo_config 3
              (fun st _ _ _ => has_status (store st) 0 "confirmed"))
    as (L & st & w & st' & w' & E & _ & Ht).
  { vm_compute. reflexivity. }
  apply has_status_true in Ht as (o & Ho & Hs).
  exists L, st, w, o. split; [exact E|]. split; [exact Ho|]. split; [exact Hs|].
  split; [reflexivity|].
  exact (dwell_time_within_range _ _ _ _ 0%nat o "confirmed" (15, 45)
           (session_at_reachable _ _ _ _ _ _ _ E) Ho Hs eq_refl).
Defined.

Lemma tick_stamps orc L now st w st' w' :
  Inv st -> tick orc L now st w = Ok (st', w') ->
  forall r o, store st !! r = Some o ->
    exists o', store st' !! r = Some o' /\
      (o' = o \/ o' !! "last_status_change" = Some (VFloat now)).
Proof.
  intros HI E.
  apply (tick_steps orc L
           (fun st _ st' _ =>
              forall r o, store st !! r = Some o ->
                exists o', store st' !! r = Some o' /\
                  (o' = o \/ o' !! "last_status_change" = Some (VFloat now))) )
    with (now := now) (w := w) (w' := w'); try done.
  - intros st0 _ r o Ho. exists o. split; [done|by left].
  - intros st1 _ st2 _ st3 _ H12 H23 r o Ho.
    destruct (H12 r o Ho) as (o2 & Ho2 & Hc2).
    destruct (H23 r o2 Ho2) as (o3 & Ho3 & Hc3).
    exists o3. split; [done|].
    destruct Hc3 as [->|Hc3]; [done|by right].
  - intros st1 w1 st2 w2 _ E1 r o Ho.
    exists o. split; [|by left].
    apply admission_inv in E1 as [(_ & -> & _)|(_ & outs & _ & Hadm)]; [done|].
    destruct Hadm as (? & ? & ? & ? & ? & ? & _ & _ & _ & _ & -> & _).
    by apply lookup_app_l_Some.
  - intros k st1 w1 st2 w2 _ E1 r o Ho.
    apply update_order_inv in E1
      as (r0 & o0 & o' & s' & w3 & outs & _ & Ho0 & Eadv & _ & _ & (-> & _)).
    destruct (decide (r = r0)) as [->|Hne].
    + exists o'. split; [apply list_lookup_insert_eq; by eapply lookup_lt_Some|].
      right. destruct (advance_inv _ _ _ _ _ _ Eadv) as (s & _ & Hres & _).
      by apply advance_result_commercial in Hres as [_ ?].
    + exists o. split; [by rewrite list_lookup_insert_ne|by left].
Qed.

(** X7. An order object that a tick changes had stayed in its status for at
    least the minimum dwell time of that status, counted from its last
    status change to the clock reading of the tick, and its
    last_status_change becomes that clock reading. *)
Theorem transition_respects_minimum_dwell orc L st w st' w' r o o' :
  reachable orc L st w ->
  iteration orc L st w = Ok (Some st', w') ->
  store st !! r = Some o -> store st' !! r = Some o' -> o' <> o ->
  exists s range l,
    get_str o "status" = Ok s /\ STATUS_TRANSITION_TIMES !! s = Some range /\
    get_num o "last_status_change" = Ok l /\
    (inject_Z range.1 <= clock orc (n_clock w) - l)%Q /\
    o' !! "last_status_change" = Some (VFloat (clock orc (n_clock w))).
Proof.
  intros HR Hit Ho Ho' Hne.
  destruct (iteration_tick _ _ _ _ _ _ HR Hit) as [Hrel _].
  destruct (tick_rel_old _ _ _ _ _ Hrel Ho) as (o1 & Ho1 & Hcase).
  rewrite Ho' in Ho1. injection Ho1 as <-.
  destruct Hcase as [->|[Hdue _]]; [done|].
  apply should_advance_true in Hdue as (s & l & d & Hs & Hin & Hl & Hd & Hle).
  assert (exists range, STATUS_TRANSITION_TIMES !! s = Some range) as [range Hrange].
  { unfold NONTERMINAL in Hin.
    repeat (apply elem_of_cons in Hin as [->|Hin]; [by eexists|]).
    by apply elem_of_nil in Hin. }
  pose proof (dwell_invariant _ _ _ _ HR) as Hall. rewrite Forall_forall in Hall.
  destruct (Hall o (list_elem_of_lookup_2 _ _ _ Ho) s range (get_str_inv _ _ _ Hs) Hrange)
    as (t & Ht & Hlo & _).
  rewrite (get_num_Some _ _ _ Ht) in Hd. injection Hd as <-.
  exists s, range, l. split; [done|]. split; [done|]. split; [done|].
  split.
  { apply Qle_bool_iff in Hle. by eapply Qle_trans. }
  apply iteration_inv in Hit as (w1 & _ & _ & Etick).
  destruct (tick_stamps _ _ _ _ _ _ _ (reachable_Inv _ _ _ _ HR) Etick r o Ho)
    as (o2 & Ho2 & Hc).
  rewrite Ho' in Ho2. injection Ho2 as <-.
  by destruct Hc as [->|Hc].
Qed.

Lemma transition_respects_minimum_dwell_witness :
  exists L st w st' w' o o',
    session_at demo_oracle demo_config 2 world0 = Ok (Some (L, st), w) /\
    iteration demo_oracle L st w = Ok (Some st', w') /\
    store st !! 0%nat = Some o /\ store st' !! 0%nat = Some o' /\ o' <> o /\
    exists s range l,
      get_str o "status" = Ok s /\ STATUS_TRANSITION_TIMES !! s = Some range /\
      get_num o "last_status_change" = Ok l /\
      (inject_Z range.1 <= clock demo_oracle (n_clock w) - l)%Q /\
      o' !! "last_status_change" = Some (VFloat (clock demo_oracle (n_clock w))).
Proof.
  destruct (is_tick_elim demo_oracle demo_config 2
              (fun st st' _ _ =>
                 has_status (store st) 0 "pending" && has_status (store st') 0 "confirmed"))
    as (L & st & w & st' & w' & E & Hit & Ht).
  { vm_compute. reflexivity. }
  apply andb_prop in Ht as [(o & Ho & Hs)%has_status_true (o' & Ho' & Hs')%has_status_true].
  assert (Hne : o' <> o).
  { intros ->. rewrite Hs in Hs'. discriminate Hs'. }
  exists L, st, w, st', w', o, o'.
  split; [exact E|]. split; [exact Hit|]. split; [exact Ho|]. split; [exact Ho'|].
  split; [exact Hne|].
  exact (transition_respects_minimum_dwell _ _ _ _ _ _ 0%nat o o'
           (session_at_reachable _ _ _ _ _ _ _ E) Hit Ho Ho' Hne).
Defined.

(** The passes of the update loop leave the number of order objects, the
    created counter and the time of the next arrival alone. *)
Lemma update_orders_arrivals orc L now ids st w st' w' :
  Inv st -> NoDup ids ->
  (forall k, k ∈ ids -> is_Some (dict_get k (active_orders st))) ->
  update_orders orc L now ids st w = Ok (st', w') ->
  length (store st') = length (store st) /\
  new_orders_count st' = new_orders_count st /\
  next_order_time st' = next_order_time st.
Proof.
  intros HI Hnd Hin E.
  apply (update_orders_steps orc L
           (fun st _ st' _ =>
              length (store st') = length (store st) /\
              new_orders_count st' = new_orders_count st /\
              next_order_time st' = next_order_time st))
    with (now := now) (ids := ids) (w := w) (w' := w'); try done.
  - intros st1 _ st2 _ st3 _ (-> & -> & ->) (-> & -> & ->). done.
  - intros k st1 w1 st2 w2 _ E1.
    apply update_order_inv in E1
      as (r0 & o0 & o' & s' & w3 & outs & _ & _ & _ & _ & _ & (-> & _ & -> & _ & _ & _ & -> & _)).
    by rewrite length_insert.
Qed.

(** X8. A tick creates at most one order.  It creates one exactly when the
    time of the next arrival has been reached; the next arrival is then set
    to the clock reading of the tick plus a delay between min_delay and
    max_delay.  Otherwise the arrival time is left as it is. *)
Theorem arrival_schedule orc L st w st' w' :
  reachable orc L st w ->
  iteration orc L st w = Ok (Some st', w') ->
  (~ (next_order_time st <= clock orc (n_clock w))%Q /\
   length (store st') = length (store st) /\
   new_orders_count st' = new_orders_count st /\
   next_order_time st' = next_order_time st) \/
  ((next_order_time st <= clock orc (n_clock w))%Q /\
   length (store st') = S (length (store st)) /\
   new_orders_count st' = new_orders_count st + 1 /\
   exists delay,
     between (inject_Z (min_delay (cfg L))) (inject_Z (max_delay (cfg L))) delay /\
     next_order_time st' = (clock orc (n_clock w) + delay)%Q).
Proof.
  intros HR Hit.
  apply iteration_inv in Hit as (w1 & _ & _ & Etick).
  apply tick_inv in Etick as (st1 & w2 & ids & Eadm & HI1 & Hnd & Hin & Eupd);
    [|by eapply reachable_Inv].
  destruct (update_orders_arrivals _ _ _ _ _ _ _ _ HI1 Hnd Hin Eupd) as (-> & -> & ->).
  apply admission_inv in Eadm as [(Hlt & -> & _)|(Hle & outs & _ & Hadm)].
  - left. split; [|done].
    intros Hle%Qle_bool_iff. by rewrite Hle in Hlt.
  - right. apply Qle_bool_iff in Hle. split; [done|].
    destruct Hadm as (sale0 & w3 & t & key & ok & delay & _ & _ & Hdelay & Hrest).
    cbv zeta in Hrest. destruct Hrest as (_ & -> & _ & -> & _ & _ & _ & -> & _).
    split; [rewrite length_app; simpl; lia|]. split; [done|].
    by exists delay.
Qed.

Lemma arrival_schedule_witness :
  exists L st w st' w',
    session_at demo_oracle demo_config 2 world0 = Ok (Some (L, st), w) /\
    iteration demo_oracle L st w = Ok (Some st', w') /\
    ((~ (next_order_time st <= clock demo_oracle (n_clock w))%Q /\
      length (store st') = length (store st) /\
      new_orders_count st' = new_orders_count st /\
      next_order_time st' = next_order_time st) \/
     ((next_order_time st <= clock demo_oracle (n_clock w))%Q /\
      length (store st') = S (length (store st)) /\
      new_orders_count st' = new_orders_count st + 1 /\
      exists delay,
        between (inject_Z (min_delay (cfg L))) (inject_Z (max_delay (cfg L))) delay /\
        next_order_time st' = (clock demo_oracle (n_clock w) + delay)%Q)).
Proof.
  destruct (is_tick_elim demo_oracle demo_config 2 (fun _ _ _ _ => true))
    as (L & st & w & st' & w' & E & Hit & _).
  { vm_compute. reflexivity. }
  exists L, st, w, st', w'. split; [exact E|]. split; [exact Hit|].
  exact (arrival_schedule _ _ _ _ _ _ (session_at_reachable _ _ _ _ _ _ _ E) Hit).
Defined.

(** ** Counters and the final report *)

Lemma run_generator_inv orc ticks c w0 st report w' :
  run_generator orc ticks c w0 = Ok ((st, report), w') ->
  exists L st0 w1 w2,
    setup orc c w0 = Ok ((L, st0), w1) /\
    loop orc ticks L st0 w1 = Ok (st, w2) /\
    shutdown orc L st w2 = Ok (report, w').
Proof.
  unfold run_generator.
  intros ([L st0] & w1 & E1 & E2)%bind_Ok.
  apply bind_Ok in E2 as (st1 & w2 & E2 & E3).
  apply bind_Ok in E3 as (report1 & w3 & E3 & E4). injection E4 as <- <- <-.
  simpl in E2, E3. by exists L, st0, w1, w2.
Qed.

(** The number of order objects of a list whose status is [s]. *)
Definition status_is (s : string) (o : Order) : bool :=
  match o !! "status" with
  | Some (VStr s') => bool_decide (s' = s)
  | _ => false
  end.

Definition count_status (s : string) (l : list Order) : Z :=
  Z.of_nat (length (List.filter (status_is s) l)).

Lemma count_status_app s l1 l2 :
  count_status s (l1 ++ l2) = count_status s l1 + count_status s l2.
Proof. unfold count_status. rewrite List.filter_app, length_app. lia. Qed.

Lemma count_status_insert s (l : list Order) r o o' :
  l !! r = Some o ->
  count_status s (<[r := o']> l) =
  count_status s l - (if status_is s o then 1 else 0) + (if status_is s o' then 1 else 0).
Proof.
  intros Ho.
  rewrite (insert_take_drop l r o') by (by eapply lookup_lt_Some).
  rewrite <- (take_drop_middle l r o Ho) at 3.
  rewrite !count_status_app.
  change (o' :: drop (S r) l) with ([o'] ++ drop (S r) l).
  change (o :: drop (S r) l) with ([o] ++ drop (S r) l).
  rewrite !count_status_app. unfold count_status at 2 5. simpl.
  destruct (status_is s o), (status_is s o'); simpl; lia.
Qed.

Lemma count_status_bound (l : list Order) :
  0 <= count_status "shipped" l /\ 0 <= count_status "cancelled" l /\
  count_status "shipped" l + count_status "cancelled" l <= Z.of_nat (length l).
Proof.
  induction l as [|o l IH]; [done|].
  change (o :: l) with ([o] ++ l). rewrite !count_status_app, length_app.
  unfold count_status at 1 3 5 7. simpl. unfold status_is.
  destruct (o !! "status") as [[s| | |]|]; simpl; try lia.
  repeat case_bool_decide; simpl; try lia. congruence.
Qed.

Record counters_ok (st : Session) : Prop := {
  co_created : new_orders_count st = Z.of_nat (length (store st));
  co_shipped : shipped_orders_count st = count_status "shipped" (store st);
  co_cancelled : cancelled_orders_count st = count_status "cancelled" (store st);
  co_updates : 0 <= status_updates_count st;
  co_settled : settled st <= new_orders_count st
}.

Lemma counters_invariant orc L st w : reachable orc L st w -> counters_ok st.
Proof.
  apply (reachable_invariant orc (fun _ st => counters_ok st)).
  - intros c w0 L0 st0 w1.
    unfold setup, bind, time_time, random_uniform, random_random, random_getrandbits, ret.
    simpl. intros [= <- <- <-]. by split.
  - intros L0 now st0 w0 st1 w1 _ [Hn Hs Hc Hu Hset] E.
    apply admission_inv in E as [(_ & -> & _)|(_ & outs & _ & Hadm)]; [done|].
    destruct Hadm as (sale0 & w2 & t & key & ok & delay & Esale & _ & _ & Hrest).
    cbv zeta in Hrest.
    destruct Hrest as (_ & Hst & Hact & Hn1 & Hu1 & Hs1 & Hc1 & _).
    destruct (total_run _ _ _ _ _ (quiet_generate_sale orc) Esale)
      as (o1 & _ & _ & Hpending & _).
    assert (Hnot : forall s, s <> "pending" ->
              count_status s [<["transition_time" := VFloat t]>
                                (<["last_status_change" := VFloat now]> sale0)] = 0).
    { intros s Hne. unfold count_status, status_is. simpl.
      rewrite lookup_insert_ne, lookup_insert_ne, Hpending by done.
      by rewrite bool_decide_eq_false_2. }
    split.
    + rewrite Hn1, Hst, length_app, Hn. simpl. lia.
    + rewrite Hs1, Hst, count_status_app, Hnot, Hs by done. lia.
    + rewrite Hc1, Hst, count_status_app, Hnot, Hc by done. lia.
    + by rewrite Hu1.
    + unfold settled in *. rewrite Hs1, Hc1, Hn1, Hact, dict_set_length.
      destruct (decide _); lia.
  - intros L0 now k st0 w0 st1 w1 HI [Hn Hs Hc Hu Hset] E.
    apply update_order_inv in E
      as (r & o & o' & s' & w3 & outs & Hk & Ho & _ & Hs' & _ &
          (Hst & Hact & Hn1 & Hu1 & Hs1 & Hc1 & _)).
    destruct (inv_active _ HI _ _ Hk) as (o0 & Ho0 & [(s & Hstat & Hnt) _ _ _ _]).
    rewrite Ho in Ho0. injection Ho0 as <-.
    assert (Hold : forall x, x ∈ ["shipped"; "cancelled"] -> status_is x o = false).
    { intros x Hx. unfold status_is. rewrite Hstat. apply bool_decide_eq_false_2.
      intros ->. unfold NONTERMINAL in Hnt.
      repeat (apply elem_of_cons in Hnt as [->|Hnt];
              [repeat (apply elem_of_cons in Hx as [Hx|Hx]; [discriminate Hx|]);
               by apply elem_of_nil in Hx|]).
      by apply elem_of_nil in Hnt. }
    assert (Hnew : forall x, status_is x o' = bool_decide (s' = x)).
    { intros x. unfold status_is. by rewrite Hs'. }
    split.
    + by rewrite Hn1, Hst, length_insert.
    + rewrite Hs1, Hst, (count_status_insert _ _ _ _ _ Ho), Hold, Hnew, Hs
        by (apply elem_of_cons; by left). lia.
    + rewrite Hc1, Hst, (count_status_insert _ _ _ _ _ Ho), Hold, Hnew, Hc
        by (apply elem_of_cons; right; apply elem_of_cons; by left). lia.
    + rewrite Hu1. lia.
    + unfold settled in *. rewrite Hs1, Hc1, Hn1, Hact.
      assert (Hin : k ∈ dict_keys (active_orders st0)) by (apply dict_get_keys; by eexists).
      pose proof (dict_del_length _ _ Hin) as Hlen.
      repeat case_bool_decide; try lia; try congruence; exfalso;
        match goal with H : _ ∉ _ |- _ => apply H end; subst s';
        repeat (first [apply list_elem_of_here | apply list_elem_of_further]).
Qed.

(** X9. In a session that runs to its deadline, the final report counts
    the order objects of the session: created is the number of objects,
    shipped and cancelled are the numbers of objects whose status is
    shipped and cancelled. *)
Theorem report_counts_orders orc ticks c w0 st report w' :
  run_generator orc ticks c w0 = Ok ((st, report), w') ->
  interrupted w' = false ->
  total_created report = Z.of_nat (length (store st)) /\
  total_shipped report = count_status "shipped" (store st) /\
  total_cancelled report = count_status "cancelled" (store st).
Proof.
  intros (L & st0 & w1 & w2 & E1 & E2 & E3)%run_generator_inv _.
  destruct (loop_reachable _ _ _ _ _ _ _ (reach_setup _ _ _ _ _ _ E1) E2) as [w'' HR].
  destruct (shutdown_report _ _ _ _ _ _ E3) as (-> & _ & -> & -> & _).
  by destruct (counters_invariant _ _ _ _ HR).
Qed.

Lemma report_counts_orders_witness :
  exists st report w,
    run_generator demo_oracle 30 demo_config world0 = Ok ((st, report), w) /\
    interrupted w = false /\
    (0 <? total_shipped report) = true /\
    total_created report = Z.of_nat (length (store st)) /\
    total_shipped report = count_status "shipped" (store st) /\
    total_cancelled report = count_status "cancelled" (store st).
Proof.
  destruct (is_run_elim demo_oracle 30 demo_config
              (fun _ report w => negb (interrupted w) && (0 <? total_shipped report)))
    as (st & report & w & E & Ht).
  { vm_compute. reflexivity. }
  apply andb_prop in Ht as [Hrun%negb_true_iff Hs].
  exists st, report, w. split; [exact E|]. split; [exact Hrun|]. split; [exact Hs|].
  exact (report_counts_orders _ _ _ _ _ _ _ E Hrun).
Defined.

Lemma shutdown_rates orc L st w report w' :
  shutdown orc L st w = Ok (report, w') ->
  success_rate report =
    (if 0 <? new_orders_count st
     then inject_Z (shipped_orders_count st) / inject_Z (new_orders_count st) * 100
     else 0)%Q /\
  cancellation_rate report =
    (if 0 <? new_orders_count st
     then inject_Z (cancelled_orders_count st) / inject_Z (new_orders_count st) * 100
     else 0)%Q.
Proof.
  unfold shutdown.
  intros (_ & w1 & _ & E)%bind_Ok.
  apply bind_Ok in E as (now & w2 & _ & E). cbv zeta in E.
  apply bind_Ok in E as (success & w3 & Es & E).
  apply bind_Ok in E as (cancellation & w4 & Ec & E).
  apply bind_Ok in E as (minutes & w5 & _ & E).
  apply bind_Ok in E as (rate & w6 & _ & E).
  injection E as <- <-. simpl.
  destruct (0 <? new_orders_count st) eqn:Hpos.
  - apply Z.ltb_lt in Hpos.
    assert (Hnz : ~ (inject_Z (new_orders_count st) == 0)%Q).
    { unfold Qeq. simpl. lia. }
    apply bind_Ok in Es as (q1 & w7 & [Hq1 ->]%lift_Ok & [-> _]%ret_Ok).
    apply bind_Ok in Ec as (q2 & w8 & [Hq2 ->]%lift_Ok & [-> _]%ret_Ok).
    rewrite truediv_nonzero in Hq1, Hq2 by done.
    injection Hq1 as <-. injection Hq2 as <-. done.
  - apply ret_Ok in Es as [-> _]. apply ret_Ok in Ec as [-> _]. done.
Qed.

Lemma percentage_bounded (a n : Z) :
  0 <= a <= n -> 0 < n -> (0 <= inject_Z a / inject_Z n * 100 <= 100)%Q.
Proof.
  intros [Ha Han] Hn.
  assert (Hn' : (0 < inject_Z n)%Q) by (unfold Qlt; simpl; lia).
  assert (Ha' : (0 <= inject_Z a)%Q) by (unfold Qle; simpl; lia).
  assert (Han' : (inject_Z a <= inject_Z n)%Q) by (unfold Qle; simpl; lia).
  assert (Hlo : (0 <= inject_Z a / inject_Z n)%Q).
  { apply Qle_shift_div_l; [done|]. lra. }
  assert (Hhi : (inject_Z a / inject_Z n <= 1)%Q).
  { apply Qle_shift_div_r; [done|]. lra. }
  split; lra.
Qed.

(** X10. In the report of a session that runs to its deadline, shipped,
    cancelled and still-active orders together never exceed the orders
    created, and the success rate and the cancellation rate each lie
    between 0 and 100.  (The rates are quotients of the counters: the two
    bounds are those of the exact quotient, and rounding to the nearest
    float is monotone and leaves 0 and 100 fixed.) *)
Theorem report_rates_bounded orc ticks c w0 st report w' :
  run_generator orc ticks c w0 = Ok ((st, report), w') ->
  interrupted w' = false ->
  0 <= total_shipped report /\ 0 <= total_cancelled report /\
  total_shipped report + total_cancelled report + Z.of_nat (still_active report)
    <= total_created report /\
  (0 <= success_rate report <= 100)%Q /\
  (0 <= cancellation_rate report <= 100)%Q.
Proof.
  intros (L & st0 & w1 & w2 & E1 & E2 & E3)%run_generator_inv _.
  destruct (loop_reachable _ _ _ _ _ _ _ (reach_setup _ _ _ _ _ _ E1) E2) as [w'' HR].
  destruct (shutdown_rates _ _ _ _ _ _ E3) as [-> ->].
  destruct (shutdown_report _ _ _ _ _ _ E3) as (-> & _ & -> & -> & ->).
  destruct (counters_invariant _ _ _ _ HR) as [Hn Hs Hc _ Hset].
  destruct (count_status_bound (store st)) as (Hs0 & Hc0 & _).
  rewrite <- Hs in Hs0. rewrite <- Hc in Hc0. unfold settled in Hset.
  split; [done|]. split; [done|]. split; [done|].
  destruct (0 <? new_orders_count st) eqn:Hpos.
  - apply Z.ltb_lt in Hpos. split; apply percentage_bounded; lia.
  - split; split; lra.
Qed.

Lemma report_rates_bounded_witness :
  exists st report w,
    run_generator demo_oracle 30 demo_config world0 = Ok ((st, report), w) /\
    interrupted w = false /\
    (0 <? total_shipped report) = true /\
    0 <= total_shipped report /\ 0 <= total_cancelled report /\
    total_shipped report + total_cancelled report + Z.of_nat (still_active report)
      <= total_created report /\
    (0 <= success_rate report <= 100)%Q /\
    (0 <= cancellation_rate report <= 100)%Q.
Proof.
  destruct (is_run_elim demo_oracle 30 demo_config
              (fun _ report w => negb (interrupted w) && (0 <? total_shipped report)))
    as (st & report & w & E & Ht).
  { vm_compute. reflexivity. }
  apply andb_prop in Ht as [Hrun%negb_true_iff Hs].
  exists st, report, w. split; [exact E|]. split; [exact Hrun|]. split; [exact Hs|].
  exact (report_rates_bounded _ _ _ _ _ _ _ E Hrun).
Defined.

(** ** Where the records go *)

Lemma setup_locals orc c w0 L st w :
  setup orc c w0 = Ok ((L, st), w) ->
  cfg L = c /\
  kafka_producer L =
    truthy (kafka_bootstrap_servers c) && truthy (kafka_topic c) && kafka_up orc /\
  new_orders_count st = 0 /\ status_updates_count st = 0.
Proof.
  unfold setup, bind, time_time, random_uniform, random_random, random_getrandbits, ret.
  simpl. by intros [= <- <- <-].
Qed.

Lemma order_id_visible : "order_id" ∉ INTERNAL_FIELDS.
Proof. intros H. apply (bool_decide_eq_true_2 _) in H. vm_compute in H. discriminate H. Qed.

Lemma status_visible : "status" ∉ INTERNAL_FIELDS.
Proof. intros H. apply (bool_decide_eq_true_2 _) in H. vm_compute in H. discriminate H. Qed.

Definition is_line (e : output) : Prop := exists msg, e = Line msg.

Lemma shutdown_lines orc L st : logs is_line (shutdown orc L st).
Proof.
  unfold shutdown.
  apply logs_bind.
  { unfold when. destruct (kafka_producer L); [|apply logs_ret].
    apply logs_bind; [apply logs_emit; by eexists|].
    intros _. apply logs_emit. by eexists. }
  intros _. apply logs_bind.
  { eapply logs_total; [apply quiet_time_time|]. by intros a outs [-> _]. }
  intros now. cbv zeta.
  apply logs_bind.
  { destruct (0 <? _); [|apply logs_ret].
    apply logs_bind; [apply logs_lift|]. intros q. apply logs_ret. }
  intros success. apply logs_bind.
  { destruct (0 <? _); [|apply logs_ret].
    apply logs_bind; [apply logs_lift|]. intros q. apply logs_ret. }
  intros cancellation.
  apply logs_bind; [apply logs_lift|]. intros minutes.
  apply logs_bind; [apply logs_lift|]. intros rate. apply logs_ret.
Qed.

(** What a session with locals [L] may write: records to the broker only
    with a producer, on the configured topic and keyed by the order_id of
    their payload; records to the console only when console output is on;
    warnings only with a producer. *)
Definition sink_ok (L : Locals) (e : output) : Prop :=
  match e with
  | ToKafka _ _ topic key p _ =>
      kafka_producer L = true /\ topic = kafka_topic (cfg L) /\
      p !! "order_id" = Some (VStr key)
  | ToConsole _ _ _ => output_console (cfg L) = true
  | Warning _ _ => kafka_producer L = true
  | Line _ => True
  end.

Lemma dispatch_outputs_sink L s src key o ok :
  (kafka_producer L = true -> get_str o "order_id" = Ok key) ->
  Forall (sink_ok L) (dispatch_outputs L s src key (strip o) ok).
Proof.
  intros Hkey. unfold dispatch_outputs. apply Forall_app. split.
  - destruct (kafka_producer L) eqn:Hp; [|apply Forall_nil_2].
    apply Forall_cons. split.
    + split; [done|]. split; [done|].
      rewrite strip_visible by apply order_id_visible.
      by apply get_str_inv, Hkey.
    + destruct ok; [apply Forall_nil_2|].
      apply Forall_cons. split; [done|]. by apply Forall_singleton.
  - destruct (output_console (cfg L)) eqn:Hc; [|apply Forall_nil_2].
    by apply Forall_singleton.
Qed.

Lemma loop_sinks orc L ticks st w st' w' :
  reachable orc L st w -> loop orc ticks L st w = Ok (st', w') ->
  exists outs, out w' = out w ++ outs /\ Forall (sink_ok L) outs.
Proof.
  apply (loop_steps orc L
           (fun _ o _ o' => exists outs, o' = o ++ outs /\ Forall (sink_ok L) outs)).
  - intros _ o. exists []. by rewrite app_nil_r.
  - intros _ o1 _ o2 _ o3 (outs1 & -> & H1) (outs2 & -> & H2).
    exists (outs1 ++ outs2). split; [by rewrite app_assoc|by apply Forall_app].
  - intros now st1 w1 st2 w2 _ E.
    apply admission_inv in E as [(_ & _ & ->)|(_ & outs & Hout & Hadm)].
    { exists []. by rewrite app_nil_r. }
    exists outs. split; [done|].
    destruct Hadm as (sale0 & w3 & t & key & ok & delay & _ & _ & _ & Hrest).
    cbv zeta in Hrest. destruct Hrest as (Hkey & _ & _ & _ & _ & _ & _ & _ & ->).
    by apply dispatch_outputs_sink.
  - intros now k st1 w1 st2 w2 _ E.
    apply update_order_inv in E
      as (r & o & o' & s' & w3 & outs & _ & _ & _ & _ & Hout & Hupd).
    destruct Hupd as (_ & _ & _ & _ & _ & _ & _ & key & ok & Hkey & ->).
    exists (dispatch_outputs L AtStatusUpdate r key (strip o') ok).
    split; [done|]. by apply dispatch_outputs_sink.
  - intros _ o. eexists. split; [done|]. by apply Forall_singleton.
Qed.

(** X11. In a completed session, a record goes to the broker only when
    both broker settings are given and the producer could be created; it is
    sent on the configured topic with the order_id of its payload as key.
    A record goes to the console only when console output is on, and a
    send warning appears only when there is a producer. *)
Theorem sink_discipline orc ticks c w0 st report w' :
  run_generator orc ticks c w0 = Ok ((st, report), w') ->
  exists outs, out w' = out w0 ++ outs /\
    forall e, e ∈ outs ->
      match e with
      | ToKafka _ _ topic key p _ =>
          (truthy (kafka_bootstrap_servers c) = true /\
           truthy (kafka_topic c) = true /\ kafka_up orc = true) /\
          topic = kafka_topic c /\ p !! "order_id" = Some (VStr key)
      | ToConsole _ _ _ => output_console c = true
      | Warning _ _ =>
          truthy (kafka_bootstrap_servers c) = true /\
          truthy (kafka_topic c) = true /\ kafka_up orc = true
      | Line _ => True
      end.
Proof.
  intros (L & st0 & w1 & w2 & E1 & E2 & E3)%run_generator_inv.
  destruct (setup_locals _ _ _ _ _ _ E1) as (Hcfg & Hprod & _).
  destruct (loop_sinks _ _ _ _ _ _ _ (reach_setup _ _ _ _ _ _ E1) E2) as (outs1 & Ho1 & H1).
  destruct (shutdown_lines _ _ _ _ _ _ E3) as (outs2 & Ho2 & H2).
  exists (outs1 ++ outs2).
  split; [by rewrite Ho2, Ho1, (setup_quiet _ _ _ _ _ _ E1), app_assoc|].
  assert (Hp : kafka_producer L = true ->
               truthy (kafka_bootstrap_servers c) = true /\
               truthy (kafka_topic c) = true /\ kafka_up orc = true).
  { rewrite Hprod. by intros [[? ?]%andb_prop ?]%andb_prop. }
  rewrite Forall_forall in H1. rewrite Forall_forall in H2.
  intros e [He|He]%elem_of_app.
  - specialize (H1 e He).
    destruct e as [s src topic key p ok|s src p|s k|msg]; simpl in H1;
      rewrite ?Hcfg in H1.
    + destruct H1 as (Hk & ? & ?). by split; [apply Hp|].
    + done.
    + by apply Hp.
    + done.
  - by destruct (H2 e He) as [msg ->].
Qed.

Lemma sink_discipline_witness :
  exists st report w,
    run_generator demo_oracle 12 demo_config world0 = Ok ((st, report), w) /\
    existsb (fun e => match e with ToKafka _ _ _ _ _ _ => true | _ => false end) (out w) = true /\
    exists outs, out w = out world0 ++ outs /\
      forall e, e ∈ outs ->
        match e with
        | ToKafka _ _ topic key p _ =>
            (truthy (kafka_bootstrap_servers demo_config) = true /\
             truthy (kafka_topic demo_config) = true /\ kafka_up demo_oracle = true) /\
            topic = kafka_topic demo_config /\ p !! "order_id" = Some (VStr key)
        | ToConsole _ _ _ => output_console demo_config = true
        | Warning _ _ =>
            truthy (kafka_bootstrap_servers demo_config) = true /\
            truthy (kafka_topic demo_config) = true /\ kafka_up demo_oracle = true
        | Line _ => True
        end.
Proof.
  destruct (is_run_elim demo_oracle 12 demo_config
              (fun _ _ w =>
                 existsb (fun e => match e with ToKafka _ _ _ _ _ _ => true | _ => false end)
                         (out w)))
    as (st & report & w & E & Ht).
  { vm_compute. reflexivity. }
  exists st, report, w. split; [exact E|]. split; [exact Ht|].
  exact (sink_discipline _ _ _ _ _ _ _ E).
Defined.

(** ** How many records are written *)

Definition tally (f : output -> bool) (outs : list output) : Z :=
  Z.of_nat (length (List.filter f outs)).

Lemma tally_app f l1 l2 : tally f (l1 ++ l2) = tally f l1 + tally f l2.
Proof. unfold tally. rewrite List.filter_app, length_app. lia. Qed.

Definition same_site (s s' : site) : bool :=
  match s, s' with
  | AtCreation, AtCreation | AtStatusUpdate, AtStatusUpdate => true
  | _, _ => false
  end.

Definition console_at (s : site) (e : output) : bool :=
  match e with ToConsole s' _ _ => same_site s s' | _ => false end.

Definition kafka_at (s : site) (e : output) : bool :=
  match e with ToKafka s' _ _ _ _ _ => same_site s s' | _ => false end.

Definition failed_send (e : output) : bool :=
  match e with ToKafka _ _ _ _ _ ok => negb ok | _ => false end.

Definition is_warning (e : output) : bool :=
  match e with Warning _ _ => true | _ => false end.

(** The records of [outs] against the growth of the counters. *)
Record tallied (L : Locals) (st st' : Session) (outs : list output) : Prop := {
  ta_console_new :
    tally (console_at AtCreation) outs =
    if output_console (cfg L) then new_orders_count st' - new_orders_count st else 0;
  ta_console_upd :
    tally (console_at AtStatusUpdate) outs =
    if output_console (cfg L) then status_updates_count st' - status_updates_count st else 0;
  ta_kafka_new :
    tally (kafka_at AtCreation) outs =
    if kafka_producer L then new_orders_count st' - new_orders_count st else 0;
  ta_kafka_upd :
    tally (kafka_at AtStatusUpdate) outs =
    if kafka_producer L then status_updates_count st' - status_updates_count st else 0;
  ta_warnings : tally is_warning outs = tally failed_send outs
}.

Lemma tallied_nil L st : tallied L st st [].
Proof.
  split; unfold tally; simpl;
    try destruct (output_console (cfg L)); try destruct (kafka_producer L); lia.
Qed.

Lemma tallied_app L st1 st2 st3 outs1 outs2 :
  tallied L st1 st2 outs1 -> tallied L st2 st3 outs2 -> tallied L st1 st3 (outs1 ++ outs2).
Proof.
  intros [A1 A2 A3 A4 A5] [B1 B2 B3 B4 B5].
  split; rewrite !tally_app;
    [rewrite A1, B1|rewrite A2, B2|rewrite A3, B3|rewrite A4, B4|rewrite A5, B5];
    try destruct (output_console (cfg L)); try destruct (kafka_producer L); lia.
Qed.

Lemma tallied_line L st msg : tallied L st st [Line msg].
Proof.
  split; unfold tally; simpl;
    try destruct (output_console (cfg L)); try destruct (kafka_producer L); lia.
Qed.

Lemma loop_tallied orc L ticks st w st' w' :
  reachable orc L st w -> loop orc ticks L st w = Ok (st', w') ->
  exists outs, out w' = out w ++ outs /\ tallied L st st' outs.
Proof.
  apply (loop_steps orc L
           (fun st o st' o' => exists outs, o' = o ++ outs /\ tallied L st st' outs)).
  - intros st0 o. exists []. split; [by rewrite app_nil_r|apply tallied_nil].
  - intros st1 o1 st2 o2 st3 o3 (outs1 & -> & H1) (outs2 & -> & H2).
    exists (outs1 ++ outs2). split; [by rewrite app_assoc|by eapply tallied_app].
  - intros now st1 w1 st2 w2 _ E.
    apply admission_inv in E as [(_ & -> & ->)|(_ & outs & Hout & Hadm)].
    { exists []. split; [by rewrite app_nil_r|apply tallied_nil]. }
    exists outs. split; [done|].
    destruct Hadm as (sale0 & w3 & t & key & ok & delay & _ & _ & _ & Hrest).
    cbv zeta in Hrest. destruct Hrest as (_ & _ & _ & Hn & Hu & _ & _ & _ & ->).
    split; rewrite ?Hn, ?Hu; unfold dispatch_outputs, tally;
      destruct (kafka_producer L), (output_console (cfg L)), ok; simpl; lia.
  - intros now k st1 w1 st2 w2 _ E.
    apply update_order_inv in E
      as (r & o & o' & s' & w3 & outs & _ & _ & _ & _ & Hout & Hupd).
    destruct Hupd as (_ & _ & Hn & Hu & _ & _ & _ & key & ok & _ & ->).
    eexists. split; [done|].
    split; rewrite ?Hn, ?Hu; unfold dispatch_outputs, tally;
      destruct (kafka_producer L), (output_console (cfg L)), ok; simpl; lia.
  - intros st0 o. eexists. split; [done|apply tallied_line].
Qed.

Lemma tally_lines f outs :
  (forall msg, f (Line msg) = false) -> Forall is_line outs -> tally f outs = 0.
Proof.
  intros Hf. induction 1 as [|e outs [msg ->] _ IH]; [done|].
  change (Line msg :: outs) with ([Line msg] ++ outs).
  rewrite tally_app, IH. unfold tally. simpl. by rewrite Hf.
Qed.

(** The records of a whole run against its report, for console switch
    [console] and producer switch [producer]. *)
Definition run_tally (console producer : bool) (report : Report) (outs : list output) : Prop :=
  tally (console_at AtCreation) outs = (if console then total_created report else 0) /\
  tally (console_at AtStatusUpdate) outs =
    (if console then total_status_updates report else 0) /\
  tally (kafka_at AtCreation) outs = (if producer then total_created report else 0) /\
  tally (kafka_at AtStatusUpdate) outs =
    (if producer then total_status_updates report else 0) /\
  tally is_warning outs = tally failed_send outs.

Lemma run_generator_tally orc ticks c w0 st report w' :
  run_generator orc ticks c w0 = Ok ((st, report), w') ->
  exists outs, out w' = out w0 ++ outs /\
    run_tally (output_console c)
      (truthy (kafka_bootstrap_servers c) && truthy (kafka_topic c) && kafka_up orc)
      report outs.
Proof.
  intros (L & st0 & w1 & w2 & E1 & E2 & E3)%run_generator_inv.
  destruct (setup_locals _ _ _ _ _ _ E1) as (Hcfg & Hprod & Hn0 & Hu0).
  destruct (loop_tallied _ _ _ _ _ _ _ (reach_setup _ _ _ _ _ _ E1) E2)
    as (outs1 & Ho1 & [A1 A2 A3 A4 A5]).
  destruct (shutdown_lines _ _ _ _ _ _ E3) as (outs2 & Ho2 & H2).
  destruct (shutdown_report _ _ _ _ _ _ E3) as (Hc & Hu & _).
  exists (outs1 ++ outs2).
  split; [by rewrite Ho2, Ho1, (setup_quiet _ _ _ _ _ _ E1), app_assoc|].
  rewrite Hcfg in A1, A2. rewrite Hprod in A3, A4. rewrite Hn0 in A1, A3. rewrite Hu0 in A2, A4.
  unfold run_tally. rewrite !tally_app, !(tally_lines _ outs2) by done.
  rewrite Hc, Hu, A1, A2, A3, A4, A5.
  repeat split; try destruct (output_console c); try destruct (_ && _); lia.
Qed.

(** X12. In a session that runs to its deadline, with console output on,
    the console gets one creation record per created order and one update
    record per status update, and none otherwise; the same holds for the
    broker and the producer.  There are as many send warnings as
    unacknowledged sends. *)
Theorem records_match_counters orc ticks c w0 st report w' :
  run_generator orc ticks c w0 = Ok ((st, report), w') ->
  interrupted w' = false ->
  exists outs, out w' = out w0 ++ outs /\
    tally (console_at AtCreation) outs =
      (if output_console c then total_created report else 0) /\
    tally (console_at AtStatusUpdate) outs =
      (if output_console c then total_status_updates report else 0) /\
    tally (kafka_at AtCreation) outs =
      (if truthy (kafka_bootstrap_servers c) && truthy (kafka_topic c) && kafka_up orc
       then total_created report else 0) /\
    tally (kafka_at AtStatusUpdate) outs =
      (if truthy (kafka_bootstrap_servers c) && truthy (kafka_topic c) && kafka_up orc
       then total_status_updates report else 0) /\
    tally is_warning outs = tally failed_send outs.
Proof. intros E _. exact (run_generator_tally _ _ _ _ _ _ _ E). Qed.

Lemma records_match_counters_witness :
  exists st report w,
    run_generator demo_oracle 30 demo_config world0 = Ok ((st, report), w) /\
    interrupted w = false /\
    (0 <? total_status_updates report) && (0 <? tally failed_send (out w)) = true /\
    exists outs, out w = out world0 ++ outs /\
      tally (console_at AtCreation) outs =
        (if output_console demo_config then total_created report else 0) /\
      tally (console_at AtStatusUpdate) outs =
        (if output_console demo_config then total_status_updates report else 0) /\
      tally (kafka_at AtCreation) outs =
        (if truthy (kafka_bootstrap_servers demo_config) && truthy (kafka_topic demo_config)
            && kafka_up demo_oracle
         then total_created report else 0) /\
      tally (kafka_at AtStatusUpdate) outs =
        (if truthy (kafka_bootstrap_servers demo_config) && truthy (kafka_topic demo_config)
            && kafka_up demo_oracle
         then total_status_updates report else 0) /\
      tally is_warning outs = tally failed_send outs.
Proof.
  destruct (is_run_elim demo_oracle 30 demo_config
              (fun _ report w =>
                 negb (interrupted w) &&
                 ((0 <? total_status_updates report) && (0 <? tally failed_send (out w)))))
    as (st & report & w & E & Ht).
  { vm_compute. reflexivity. }
  apply andb_prop in Ht as [Hrun%negb_true_iff Ht].
  exists st, report, w. split; [exact E|]. split; [exact Hrun|]. split; [exact Ht|].
  exact (records_match_counters _ _ _ _ _ _ _ E Hrun).
Defined.

Lemma main_inv orc ticks args w0 st report w' :
  main orc ticks (Namespace args) w0 = Ok (Finished st report, w') ->
  run_generator orc ticks
    {| duration_minutes := a_duration args;
       min_delay := a_min_delay args;
       max_delay := a_max_delay args;
       kafka_bootstrap_servers := a_kafka_bootstrap_servers args;
       kafka_topic := a_kafka_topic args;
       output_console :=
         negb (a_no_console args) &&
         (a_output_console args || negb (truthy (a_kafka_bootstrap_servers args))) |} w0
  = Ok ((st, report), w').
Proof.
  unfold main.
  destruct (truthy (a_kafka_bootstrap_servers args) && negb (truthy (a_kafka_topic args)));
    [by intros [[=] _]%ret_Ok|].
  destruct (truthy (a_kafka_topic args) && negb (truthy (a_kafka_bootstrap_servers args)));
    [by intros [[=] _]%ret_Ok|].
  intros ([st1 report1] & w1 & E & [[= <- <-] ->]%ret_Ok)%bind_Ok.
  rewrite <- E. f_equal. f_equal.
  by destruct (a_no_console args), (a_output_console args),
       (truthy (a_kafka_bootstrap_servers args)).
Qed.

(** The console switch [main] computes from the options. *)
Definition console_switch (args : Args) : bool :=
  negb (a_no_console args) &&
  (a_output_console args || negb (truthy (a_kafka_bootstrap_servers args))).

Definition is_console_record (e : output) : bool :=
  match e with ToConsole _ _ _ => true | _ => false end.

(** X13. When [main] runs a session, a record is printed on the console
    only if --no-console is absent and either --output-console is given or
    no broker address is.  If the session runs to its deadline with that
    switch on, the console gets one creation record per created order and
    one update record per status update. *)
Theorem main_console_switch orc ticks args w0 st report w' :
  main orc ticks (Namespace args) w0 = Ok (Finished st report, w') ->
  exists outs, out w' = out w0 ++ outs /\
    (forall e, e ∈ outs -> is_console_record e = true -> console_switch args = true) /\
    (interrupted w' = false -> console_switch args = true ->
     tally (console_at AtCreation) outs = total_created report /\
     tally (console_at AtStatusUpdate) outs = total_status_updates report).
Proof.
  intros E%main_inv.
  destruct (run_generator_tally _ _ _ _ _ _ _ E) as (outs & Hout & H1 & H2 & _).
  simpl in H1, H2. fold (console_switch args) in H1, H2.
  destruct (run_generator_inv _ _ _ _ _ _ _ E) as (L & st0 & w1 & w2 & E1 & E2 & E3).
  destruct (setup_locals _ _ _ _ _ _ E1) as (Hcfg & _).
  destruct (loop_sinks _ _ _ _ _ _ _ (reach_setup _ _ _ _ _ _ E1) E2) as (outs1 & Ho1 & Hs1).
  destruct (shutdown_lines _ _ _ _ _ _ E3) as (outs2 & Ho2 & Hs2).
  assert (outs = outs1 ++ outs2) as Houts.
  { apply (app_inv_head (out w0)).
    by rewrite <- Hout, Ho2, Ho1, (setup_quiet _ _ _ _ _ _ E1), app_assoc. }
  exists outs. split; [done|]. split.
  - rewrite Houts. rewrite Forall_forall in Hs1. rewrite Forall_forall in Hs2.
    intros e [He|He]%elem_of_app Hrec.
    + specialize (Hs1 e He). destruct e; try discriminate Hrec.
      simpl in Hs1. by rewrite Hcfg in Hs1.
    + destruct (Hs2 e He) as [msg ->]. discriminate Hrec.
  - intros _ Hon. by rewrite Hon in H1, H2.
Qed.

Definition console_and_broker_args : Args :=
  {| a_duration := 5; a_min_delay := 1; a_max_delay := 60;
     a_kafka_bootstrap_servers := Some "localhost:9092";
     a_kafka_topic := Some "ecommerce-sales";
     a_no_console := false; a_output_console := true |}.

Definition is_main_log (orc : Oracle) (ticks : nat) (args : Args)
    (test : Report -> World -> bool) : bool :=
  match main orc ticks (Namespace args) world0 with
  | Ok (Finished st report, w) => test report w
  | _ => false
  end.

Lemma is_main_log_elim orc ticks args test :
  is_main_log orc ticks args test = true ->
  exists st report w,
    main orc ticks (Namespace args) world0 = Ok (Finished st report, w) /\
    test report w = true.
Proof.
  unfold is_main_log.
  destruct (main orc ticks (Namespace args) world0) as [[[status|msg|st report] w]|e];
    try done.
  intros Ht. by exists st, report, w.
Qed.

Lemma main_console_switch_witness :
  exists st report w,
    main demo_oracle 30 (Namespace console_and_broker_args) world0
      = Ok (Finished st report, w) /\
    interrupted w = false /\ console_switch console_and_broker_args = true /\
    (0 <? total_status_updates report) = true /\
    exists outs, out w = out world0 ++ outs /\
      (forall e, e ∈ outs -> is_console_record e = true ->
                 console_switch console_and_broker_args = true) /\
      tally (console_at AtCreation) outs = total_created report /\
      tally (console_at AtStatusUpdate) outs = total_status_updates report.
Proof.
  destruct (is_main_log_elim demo_oracle 30 console_and_broker_args
              (fun report w => negb (interrupted w) && (0 <? total_status_updates report)))
    as (st & report & w & E & Ht).
  { vm_compute. reflexivity. }
  apply andb_prop in Ht as [Hrun%negb_true_iff Ht].
  destruct (main_console_switch _ _ _ _ _ _ _ E) as (outs & Hout & Hrec & Htally).
  exists st, report, w. split; [exact E|]. split; [exact Hrun|].
  split; [reflexivity|]. split; [exact Ht|].
  exists outs. split; [exact Hout|]. split; [exact Hrec|].
  exact (Htally Hrun eq_refl).
Defined.

(** ** The fields of every record *)

(** The dictionary [o] has exactly the keys of [l]. *)
Definition has_fields (o : Order) (l : list string) : Prop :=
  forall k, is_Some (o !! k) <-> k ∈ l.

Lemma has_fields_insert_old (o : Order) l k v :
  has_fields o l -> k ∈ l -> has_fields (<[k := v]> o) l.
Proof.
  intros Hf Hk k'. destruct (decide (k' = k)) as [->|Hne].
  - rewrite lookup_insert_eq. split; [done|by eexists].
  - rewrite lookup_insert_ne by done. apply Hf.
Qed.

Lemma has_fields_insert_new (o : Order) l k v :
  has_fields o l -> has_fields (<[k := v]> o) (l ++ [k]).
Proof.
  intros Hf k'. rewrite elem_of_app, list_elem_of_singleton.
  destruct (decide (k' = k)) as [->|Hne].
  - rewrite lookup_insert_eq. split; [by right|by eexists].
  - rewrite lookup_insert_ne by done. rewrite (Hf k'). tauto.
Qed.

(** The fields of a record whose status is [s]. *)
Definition record_fields (s : string) : list string :=
  SALE_FIELDS ++ (if bool_decide (s = "cancelled") then ["cancellation_reason"] else []).

(** An order object: the fields of a record and the two internal ones. *)
Definition well_formed (o : Order) : Prop :=
  exists s, o !! "status" = Some (VStr s) /\
            has_fields o (INTERNAL_FIELDS ++ record_fields s).

(** A record: its fields are those of its status; a creation record is
    pending, a status-update record is past pending. *)
Definition record_ok (e : output) : Prop :=
  forall p, payload_of e = Some p ->
    exists s, p !! "status" = Some (VStr s) /\ has_fields p (record_fields s) /\
      (site_of e = Some AtCreation -> s = "pending") /\
      (site_of e = Some AtStatusUpdate ->
       s ∈ ["confirmed"; "processing"; "shipped"; "cancelled"]).

Ltac in_fields :=
  unfold record_fields, SALE_FIELDS, INTERNAL_FIELDS;
  rewrite ?bool_decide_eq_true_2, ?bool_decide_eq_false_2 by done; simpl;
  repeat first [apply list_elem_of_here | apply list_elem_of_further].

Lemma internal_not_record k s : k ∈ INTERNAL_FIELDS -> k ∉ record_fields s.
Proof.
  unfold INTERNAL_FIELDS. rewrite !elem_of_cons, elem_of_nil.
  intros [->|[->|[]]]; unfold record_fields; rewrite elem_of_app;
    (intros [H|H];
     [apply (bool_decide_eq_true_2 _) in H; vm_compute in H; discriminate H
     |destruct (bool_decide _);
      [apply list_elem_of_singleton in H; discriminate H|by apply elem_of_nil in H]]).
Qed.

Lemma has_fields_strip (o : Order) s :
  has_fields o (INTERNAL_FIELDS ++ record_fields s) -> has_fields (strip o) (record_fields s).
Proof.
  intros Hf k. destruct (decide (k ∈ INTERNAL_FIELDS)) as [Hin|Hout].
  - rewrite strip_internal by done. split; [by intros [? ?]|].
    intros Hk. by apply internal_not_record in Hk.
  - rewrite strip_visible by done. rewrite (Hf k), elem_of_app. tauto.
Qed.

Lemma dispatch_outputs_record L site src key o ok s :
  o !! "status" = Some (VStr s) ->
  has_fields o (INTERNAL_FIELDS ++ record_fields s) ->
  (site = AtCreation -> s = "pending") ->
  (site = AtStatusUpdate -> s ∈ ["confirmed"; "processing"; "shipped"; "cancelled"]) ->
  Forall record_ok (dispatch_outputs L site src key (strip o) ok).
Proof.
  intros Hs Hdom Hc Hu.
  assert (Hrec : forall e, payload_of e = Some (strip o) -> site_of e = Some site ->
                           record_ok e).
  { intros e Hp Hsite p Hp'. rewrite Hp in Hp'. injection Hp' as <-.
    exists s. split; [by rewrite strip_visible by apply status_visible|].
    split; [by apply has_fields_strip|]. rewrite Hsite.
    split; intros [= ->]; auto. }
  unfold dispatch_outputs. apply Forall_app. split.
  - destruct (kafka_producer L); [|apply Forall_nil_2].
    apply Forall_cons. split; [by apply Hrec|].
    destruct ok; [apply Forall_nil_2|].
    apply Forall_cons. split; [by intros p|]. apply Forall_singleton. by intros p.
  - destruct (output_console (cfg L)); [|apply Forall_nil_2].
    apply Forall_singleton. by apply Hrec.
Qed.

Lemma advance_result_well_formed o now s o' :
  s ∈ NONTERMINAL -> o !! "status" = Some (VStr s) ->
  has_fields o (INTERNAL_FIELDS ++ record_fields s) ->
  advance_result o now s o' ->
  exists s', o' !! "status" = Some (VStr s') /\
    s' ∈ ["confirmed"; "processing"; "shipped"; "cancelled"] /\
    has_fields o' (INTERNAL_FIELDS ++ record_fields s').
Proof.
  intros Hnt Hs Hdom Hres.
  assert (Hdom0 : has_fields o (INTERNAL_FIELDS ++ SALE_FIELDS)).
  { revert Hdom. unfold record_fields. rewrite bool_decide_eq_false_2, app_nil_r; [done|].
    intros ->. nonterminal_cases Hnt. }
  destruct Hres as [reason ts _ _|ts Hn|s' ts range t Hn Hne _ _].
  - exists "cancelled". unfold cancelled_at.
    split; [by rewrite lookup_insert_ne, lookup_insert_ne, lookup_insert_ne, lookup_insert_eq|].
    split; [in_list|].
    apply has_fields_insert_old; [|in_fields].
    apply has_fields_insert_old; [|in_fields].
    unfold record_fields. rewrite bool_decide_eq_true_2, !app_assoc by done.
    apply has_fields_insert_new.
    apply has_fields_insert_old; [done|in_fields].
  - exists "shipped". unfold advanced_to.
    split; [by rewrite lookup_insert_ne, lookup_insert_ne, lookup_insert_eq|].
    split; [in_list|].
    unfold record_fields. rewrite bool_decide_eq_false_2, app_nil_r by done.
    repeat (apply has_fields_insert_old; [|in_fields]). done.
  - assert (Hs' : s' ∈ ["confirmed"; "processing"; "shipped"; "cancelled"] /\ s' <> "cancelled").
    { nonterminal_cases Hnt; injection Hn as <-; split; try done; in_list. }
    destruct Hs' as [Hin Hnc].
    exists s'. unfold advanced_to.
    split; [by rewrite lookup_insert_ne, lookup_insert_ne, lookup_insert_ne, lookup_insert_eq|].
    split; [done|].
    unfold record_fields. rewrite bool_decide_eq_false_2, app_nil_r by done.
    repeat (apply has_fields_insert_old; [|in_fields]). done.
Qed.

Lemma sale_well_formed (sale0 : Order) t now :
  sale_schema sale0 ->
  well_formed (<["transition_time" := VFloat t]>
                 (<["last_status_change" := VFloat now]> sale0)).
Proof.
  intros [Hdom Hpending _ _ _ _]. exists "pending".
  split; [by rewrite lookup_insert_ne, lookup_insert_ne|].
  intros k. unfold record_fields. rewrite bool_decide_eq_false_2, app_nil_r by done.
  assert (H0 : is_Some (sale0 !! k) <-> k ∈ SALE_FIELDS).
  { by rewrite <- elem_of_dom, Hdom, elem_of_list_to_set. }
  unfold INTERNAL_FIELDS. rewrite elem_of_app, !elem_of_cons, elem_of_nil, <- H0.
  destruct (decide (k = "transition_time")) as [->|Hn1].
  { rewrite lookup_insert_eq. split; [tauto|by eexists]. }
  rewrite lookup_insert_ne by done.
  destruct (decide (k = "last_status_change")) as [->|Hn2].
  { rewrite lookup_insert_eq. split; [tauto|by eexists]. }
  rewrite lookup_insert_ne by done. split; [tauto|].
  intros [[?|[?|[]]]|?]; done.
Qed.

Lemma loop_records orc L ticks st w st' w' :
  reachable orc L st w -> loop orc ticks L st w = Ok (st', w') ->
  Forall well_formed (store st) ->
  Forall well_formed (store st') /\
  exists outs, out w' = out w ++ outs /\ Forall record_ok outs.
Proof.
  apply (loop_steps orc L
           (fun st o st' o' =>
              Forall well_formed (store st) ->
              Forall well_formed (store st') /\
              exists outs, o' = o ++ outs /\ Forall record_ok outs)).
  - intros st0 o H. split; [done|]. exists []. by rewrite app_nil_r.
  - intros st1 o1 st2 o2 st3 o3 H12 H23 H1.
    destruct (H12 H1) as (H2 & outs1 & -> & Hr1).
    destruct (H23 H2) as (H3 & outs2 & -> & Hr2).
    split; [done|]. exists (outs1 ++ outs2).
    split; [by rewrite app_assoc|by apply Forall_app].
  - intros now st1 w1 st2 w2 _ E Hwf.
    apply admission_inv in E as [(_ & -> & ->)|(_ & outs & Hout & Hadm)].
    { split; [done|]. exists []. by rewrite app_nil_r. }
    destruct Hadm as (sale0 & w3 & t & key & ok & delay & Esale & _ & _ & Hrest).
    cbv zeta in Hrest. destruct Hrest as (_ & -> & _ & _ & _ & _ & _ & _ & ->).
    destruct (total_run _ _ _ _ _ (quiet_generate_sale_schema orc) Esale)
      as (o1 & _ & _ & Hschema).
    destruct (sale_well_formed sale0 t now Hschema) as (s & Hs & Hf).
    assert (s = "pending") as ->.
    { destruct Hschema as [_ Hpending _ _ _ _].
      rewrite lookup_insert_ne, lookup_insert_ne, Hpending in Hs by done.
      by injection Hs. }
    split.
    + apply Forall_app. split; [done|]. apply Forall_singleton. by exists "pending".
    + eexists. split; [exact Hout|].
      by apply dispatch_outputs_record with (s := "pending").
  - intros now k st1 w1 st2 w2 HI E Hwf.
    apply update_order_inv in E
      as (r & o & o' & s' & w3 & outs & Hk & Ho & Eadv & Hs' & Hout & Hupd).
    destruct Hupd as (-> & _ & _ & _ & _ & _ & _ & key & ok & _ & ->).
    destruct (advance_inv _ _ _ _ _ _ Eadv) as (s & Hs & Hres & _).
    destruct (inv_active _ HI _ _ Hk) as (o0 & Ho0 & [(s0 & Hstat & Hnt) _ _ _ _]).
    rewrite Ho in Ho0. injection Ho0 as <-.
    rewrite Hs in Hstat. injection Hstat as <-.
    rewrite Forall_forall in Hwf.
    destruct (Hwf o (list_elem_of_lookup_2 _ _ _ Ho)) as (s1 & Hs1 & Hdom).
    rewrite Hs in Hs1. injection Hs1 as <-.
    destruct (advance_result_well_formed _ _ _ _ Hnt Hs Hdom Hres) as (s2 & Hs2 & Hin & Hdom').
    split.
    + apply Forall_insert; [by apply Forall_forall|]. by exists s2.
    + eexists. split; [exact Hout|].
      apply dispatch_outputs_record with (s := s2); try done.
  - intros st0 o H. split; [done|]. eexists. split; [done|].
    apply Forall_singleton. by intros p.
Qed.

(** X14. Every record written in a completed session has exactly the
    twelve sale fields, plus cancellation_reason exactly when its status is
    cancelled.  A record written at creation is pending; a record written
    at a status update is confirmed, processing, shipped or cancelled. *)
Theorem records_follow_the_schema orc ticks c w0 st report w' :
  run_generator orc ticks c w0 = Ok ((st, report), w') ->
  exists outs, out w' = out w0 ++ outs /\
    forall e p, e ∈ outs -> payload_of e = Some p ->
      exists s, p !! "status" = Some (VStr s) /\
        (forall k, is_Some (p !! k) <->
                   k ∈ SALE_FIELDS \/ (k = "cancellation_reason" /\ s = "cancelled")) /\
        (site_of e = Some AtCreation -> s = "pending") /\
        (site_of e = Some AtStatusUpdate ->
         s ∈ ["confirmed"; "processing"; "shipped"; "cancelled"]).
Proof.
  intros (L & st0 & w1 & w2 & E1 & E2 & E3)%run_generator_inv.
  assert (Hempty : store st0 = []).
  { revert E1.
    unfold setup, bind, time_time, random_uniform, random_random, random_getrandbits, ret.
    simpl. by intros [= <- <- <-]. }
  destruct (loop_records _ _ _ _ _ _ _ (reach_setup _ _ _ _ _ _ E1) E2)
    as (_ & outs1 & Ho1 & H1).
  { rewrite Hempty. apply Forall_nil_2. }
  destruct (shutdown_lines _ _ _ _ _ _ E3) as (outs2 & Ho2 & H2).
  exists (outs1 ++ outs2).
  split; [by rewrite Ho2, Ho1, (setup_quiet _ _ _ _ _ _ E1), app_assoc|].
  rewrite Forall_forall in H1. rewrite Forall_forall in H2.
  intros e p [He|He]%elem_of_app Hp.
  - destruct (H1 e He p Hp) as (s & Hs & Hf & Hc & Hu).
    exists s. split; [done|]. split; [|done].
    intros k. rewrite (Hf k). unfold record_fields. rewrite elem_of_app.
    case_bool_decide as Hcase.
    + rewrite list_elem_of_singleton. tauto.
    + rewrite elem_of_nil. tauto.
  - destruct (H2 e He) as [msg ->]. discriminate Hp.
Qed.

Lemma records_follow_the_schema_witness :
  exists st report w,
    run_generator cancelling_oracle 10 (console_config 1) world0 = Ok ((st, report), w) /\
    (0 <? total_cancelled report) = true /\
    exists outs, out w = out world0 ++ outs /\
      forall e p, e ∈ outs -> payload_of e = Some p ->
        exists s, p !! "status" = Some (VStr s) /\
          (forall k, is_Some (p !! k) <->
                     k ∈ SALE_FIELDS \/ (k = "cancellation_reason" /\ s = "cancelled")) /\
          (site_of e = Some AtCreation -> s = "pending") /\
          (site_of e = Some AtStatusUpdate ->
           s ∈ ["confirmed"; "processing"; "shipped"; "cancelled"]).
Proof.
  destruct (is_run_elim cancelling_oracle 10 (console_config 1)
              (fun _ report _ => 0 <? total_cancelled report))
    as (st & report & w & E & Ht).
  { vm_compute. reflexivity. }
  exists st, report, w. split; [exact E|]. split; [exact Ht|].
  exact (records_follow_the_schema _ _ _ _ _ _ _ E).
Defined.

(** ** The deadline *)

Lemma tick_touches orc L now st w st' w' :
  Inv st -> tick orc L now st w = Ok (st', w') ->
  forall r o', store st' !! r = Some o' ->
    store st !! r = Some o' \/ o' !! "last_status_change" = Some (VFloat now).
Proof.
  intros HI E.
  apply (tick_steps orc L
           (fun st _ st' _ =>
              forall r o', store st' !! r = Some o' ->
                store st !! r = Some o' \/
                o' !! "last_status_change" = Some (VFloat now)))
    with (now := now) (w := w) (w' := w'); try done.
  - intros st0 _ r o Ho. by left.
  - intros st1 _ st2 _ st3 _ H12 H23 r o Ho.
    destruct (H23 r o Ho) as [Ho2|Hl]; [|by right]. by apply H12.
  - intros st1 w1 st2 w2 _ E1 r o Ho.
    apply admission_inv in E1 as [(_ & -> & _)|(_ & outs & _ & Hadm)]; [by left|].
    destruct Hadm as (sale0 & ? & t & ? & ? & ? & _ & _ & _ & Hrest).
    cbv zeta in Hrest. destruct Hrest as (_ & Hst & _).
    rewrite Hst in Ho. apply lookup_app_Some in Ho as [Ho|[_ Ho]]; [by left|].
    right. apply list_lookup_singleton_Some in Ho as [_ <-].
    by rewrite lookup_insert_ne, lookup_insert_eq.
  - intros k st1 w1 st2 w2 _ E1 r o Ho.
    apply update_order_inv in E1
      as (r0 & o0 & o' & s' & w3 & outs & _ & Ho0 & Eadv & _ & _ & (Hst & _)).
    rewrite Hst in Ho.
    destruct (decide (r = r0)) as [->|Hne].
    + rewrite list_lookup_insert_eq in Ho by (by eapply lookup_lt_Some).
      injection Ho as <-. right.
      destruct (advance_inv _ _ _ _ _ _ Eadv) as (s & _ & Hres & _).
      by apply advance_result_commercial in Hres as [_ ?].
    + rewrite list_lookup_insert_ne in Ho by done. by left.
Qed.

(** X15. No order is created or advanced once the session has lasted its
    duration: in every state of a session, the last_status_change of every
    order object lies less than duration * 60 seconds after the start. *)
Theorem no_activity_after_deadline orc L st w r o :
  reachable orc L st w ->
  store st !! r = Some o ->
  exists l, get_num o "last_status_change" = Ok l /\
            (l - start_time L < inject_Z (duration_minutes (cfg L) * 60))%Q.
Proof.
  intros HR. revert r o.
  induction HR as [c w0 L st w E|L st w st' w' HR IH Hit]; intros r o Ho.
  - revert E.
    unfold setup, bind, time_time, random_uniform, random_random, random_getrandbits, ret.
    simpl. intros [= <- <- <-]. done.
  - apply iteration_inv in Hit as (w1 & _ & Hlt & Etick).
    destruct (tick_touches _ _ _ _ _ _ _ (reachable_Inv _ _ _ _ HR) Etick r o Ho)
      as [Hold|Hnew]; [by eapply IH|].
    exists (clock orc (n_clock w)). split; [by apply get_num_Some|].
    apply Qnot_le_lt. intros Hle%Qle_bool_iff.
    unfold duration_seconds in Hlt. by rewrite Hle in Hlt.
Qed.

Lemma no_activity_after_deadline_witness :
  exists L st w o,
    session_at demo_oracle demo_config 3 world0 = Ok (Some (L, st), w) /\
    store st !! 0%nat = Some o /\
    exists l, get_num o "last_status_change" = Ok l /\
              (l - start_time L < inject_Z (duration_minutes (cfg L) * 60))%Q.
Proof.
  destruct (is_tick_elim demo_oracle demo_config 3
              (fun st _ _ _ => has_status (store st) 0 "confirmed"))
    as (L & st & w & st' & w' & E & _ & Ht).
  { vm_compute. reflexivity. }
  apply has_status_true in Ht as (o & Ho & Hs).
  exists L, st, w, o. split; [exact E|]. split; [exact Ho|].
  exact (no_activity_after_deadline _ _ _ _ 0%nat o
           (session_at_reachable _ _ _ _ _ _ _ E) Ho).
Defined.

(** ** The registry *)

(** X16. In every state of a session, every key of the registry refers to
    an order object whose order_id is that key, whose status is pending,
    confirmed or processing, and which has no cancellation_reason: the
    registry never holds a shipped or cancelled order. *)
Theorem registry_holds_only_active_orders orc L st w k r :
  reachable orc L st w ->
  dict_get k (active_orders st) = Some r ->
  exists o s,
    store st !! r = Some o /\
    get_str o "order_id" = Ok k /\
    get_str o "status" = Ok s /\ s ∈ ["pending"; "confirmed"; "processing"] /\
    o !! "cancellation_reason" = None.
Proof.
  intros HI%reachable_Inv Hk.
  destruct (inv_active _ HI _ _ Hk) as (o & Ho & [(s & Hs & Hnt) _ _ Hid Hreason]).
  exists o, s. split; [done|]. split; [by apply get_str_Some|].
  split; [by apply get_str_Some|]. done.
Qed.

Definition registered_first (st : Session) : bool :=
  match active_orders st with
  | (k, r) :: _ => true
  | [] => false
  end.

Lemma registered_first_true st :
  registered_first st = true ->
  exists k r, dict_get k (active_orders st) = Some r.
Proof.
  unfold registered_first. destruct (active_orders st) as [|[k r] rest]; [done|].
  intros _. exists k, r. unfold dict_get. simpl. by rewrite decide_True.
Qed.

Lemma registry_holds_only_active_orders_witness :
  exists L st w k r,
    session_at demo_oracle demo_config 2 world0 = Ok (Some (L, st), w) /\
    dict_get k (active_orders st) = Some r /\
    exists o s,
      store st !! r = Some o /\
      get_str o "order_id" = Ok k /\
      get_str o "status" = Ok s /\ s ∈ ["pending"; "confirmed"; "processing"] /\
      o !! "cancellation_reason" = None.
Proof.
  destruct (is_tick_elim demo_oracle demo_config 2 (fun st _ _ _ => registered_first st))
    as (L & st & w & st' & w' & E & _ & Ht).
  { vm_compute. reflexivity. }
  apply registered_first_true in Ht as (k & r & Hk).
  exists L, st, w, k, r. split; [exact E|]. split; [exact Hk|].
  exact (registry_holds_only_active_orders _ _ _ _ k r
           (session_at_reachable _ _ _ _ _ _ _ E) Hk).
Defined.

#[local] Instance Q_eq_dec : EqDecision Q.
Proof. solve_decision. Defined.

#[local] Instance value_eq_dec : EqDecision value.
Proof. solve_decision. Defined.

(** X17. In a session that runs to its deadline and in which no two order
    objects share an order_id, the report balances: created = shipped +
    cancelled + still active; and every order that is still pending,
    confirmed or processing is in the registry under its order_id. *)
Theorem distinct_identifiers_keep_the_balance orc ticks c w0 st report w' :
  run_generator orc ticks c w0 = Ok ((st, report), w') ->
  interrupted w' = false ->
  NoDup (order_ids st) ->
  total_created report =
    total_shipped report + total_cancelled report + Z.of_nat (still_active report) /\
  forall r o s,
    store st !! r = Some o -> get_str o "status" = Ok s ->
    s ∈ ["pending"; "confirmed"; "processing"] ->
    exists k, get_str o "order_id" = Ok k /\ dict_get k (active_orders st) = Some r.
Proof.
  intros (L & st0 & w1 & w2 & E1 & E2 & E3)%run_generator_inv _ Hnd.
  destruct (loop_reachable _ _ _ _ _ _ _ (reach_setup _ _ _ _ _ _ E1) E2) as [w'' HR].
  destruct (shutdown_report _ _ _ _ _ _ E3) as (-> & _ & -> & -> & ->).
  destruct (reachable_complete _ _ _ _ HR Hnd) as [Hbal Hreg].
  split; [exact Hbal|].
  intros r o s Ho Hs%get_str_inv Hin.
  destruct (Hreg r o s Ho Hs Hin) as [k Hk].
  exists k. split; [|done].
  destruct (inv_active _ (reachable_Inv _ _ _ _ HR) _ _ Hk) as (o1 & Ho1 & [_ _ _ Hid _]).
  rewrite Ho in Ho1. injection Ho1 as <-. by apply get_str_Some.
Qed.

Lemma distinct_identifiers_keep_the_balance_witness :
  exists st report w,
    run_generator demo_oracle 30 demo_config world0 = Ok ((st, report), w) /\
    interrupted w = false /\
    NoDup (order_ids st) /\
    (1 <? total_created report) = true /\
    total_created report =
      total_shipped report + total_cancelled report + Z.of_nat (still_active report) /\
    forall r o s,
      store st !! r = Some o -> get_str o "status" = Ok s ->
      s ∈ ["pending"; "confirmed"; "processing"] ->
      exists k, get_str o "order_id" = Ok k /\ dict_get k (active_orders st) = Some r.
Proof.
  destruct (is_run_elim demo_oracle 30 demo_config
              (fun st report w =>
                 negb (interrupted w) &&
                 (bool_decide (NoDup (order_ids st)) && (1 <? total_created report))))
    as (st & report & w & E & Ht).
  { vm_compute. reflexivity. }
  apply andb_prop in Ht as [Hrun%negb_true_iff Ht].
  apply andb_prop in Ht as [Hnd%bool_decide_eq_true_1 Hmany].
  exists st, report, w. split; [exact E|]. split; [exact Hrun|].
  split; [exact Hnd|]. split; [exact Hmany|].
  exact (distinct_identifiers_keep_the_balance _ _ _ _ _ _ _ E Hrun Hnd).
Defined.

(** ** The order of the records *)

Definition same_sink (e e' : output) : bool :=
  match e, e' with
  | ToKafka _ _ _ _ _ _, ToKafka _ _ _ _ _ _ => true
  | ToConsole _ _ _, ToConsole _ _ _ => true
  | _, _ => false
  end.

(** [e'] is a creation record written to the sink of the record [e] and
    carrying the same order_id. *)
Definition creation_for (e e' : output) : Prop :=
  site_of e' = Some AtCreation /\ same_sink e e' = true /\
  exists p p', payload_of e = Some p /\ payload_of e' = Some p' /\
               p' !! "order_id" = p !! "order_id".

(** If [e] is a status-update record, its creation record is in [seen]. *)
Definition announced (seen : list output) (e : output) : Prop :=
  site_of e = Some AtStatusUpdate -> is_Some (payload_of e) ->
  exists e', e' ∈ seen /\ creation_for e e'.

Fixpoint ordered_from (seen outs : list output) : Prop :=
  match outs with
  | [] => True
  | e :: rest => announced seen e /\ ordered_from (seen ++ [e]) rest
  end.

Lemma ordered_from_app seen l1 l2 :
  ordered_from seen (l1 ++ l2) <-> ordered_from seen l1 /\ ordered_from (seen ++ l1) l2.
Proof.
  revert seen. induction l1 as [|e l1 IH]; intros seen; simpl.
  - rewrite app_nil_r. tauto.
  - rewrite IH, <- app_assoc. simpl. tauto.
Qed.

Lemma ordered_from_split seen before e after :
  ordered_from seen (before ++ e :: after) -> announced (seen ++ before) e.
Proof. intros [_ [H _]]%ordered_from_app. exact H. Qed.

Lemma ordered_from_all seen outs :
  (forall e, e ∈ outs -> announced seen e) -> ordered_from seen outs.
Proof.
  revert seen. induction outs as [|e outs IH]; intros seen H; simpl; [done|].
  split; [apply H, list_elem_of_here|].
  apply IH. intros e' He' Hs Hp.
  destruct (H e' (list_elem_of_further _ _ _ He') Hs Hp) as (e0 & Hin & Hc).
  exists e0. split; [|done]. apply elem_of_app. by left.
Qed.

(** Every order object has its creation record in the log, on each sink
    that is in use. *)
Definition creation_logged (L : Locals) (outs : list output) (o : Order) : Prop :=
  (kafka_producer L = true ->
   exists s topic key p ok,
     ToKafka AtCreation s topic key p ok ∈ outs /\ p !! "order_id" = o !! "order_id") /\
  (output_console (cfg L) = true ->
   exists s p, ToConsole AtCreation s p ∈ outs /\ p !! "order_id" = o !! "order_id").

Lemma creation_logged_app L outs more o :
  creation_logged L outs o -> creation_logged L (outs ++ more) o.
Proof.
  intros [Hk Hc]. split.
  - intros (s & topic & key & p & ok & Hin & Hid)%Hk.
    exists s, topic, key, p, ok. split; [|done]. apply elem_of_app. by left.
  - intros (s & p & Hin & Hid)%Hc.
    exists s, p. split; [|done]. apply elem_of_app. by left.
Qed.

Lemma creation_logged_id L outs o o' :
  o' !! "order_id" = o !! "order_id" ->
  creation_logged L outs o -> creation_logged L outs o'.
Proof. intros Hid [Hk Hc]. split; rewrite Hid; done. Qed.

Lemma dispatch_outputs_creation L src key o ok :
  creation_logged L (dispatch_outputs L AtCreation src key (strip o) ok) o.
Proof.
  unfold dispatch_outputs. split.
  - intros ->. eexists _, _, _, _, _. split; [apply list_elem_of_here|].
    apply strip_visible, order_id_visible.
  - intros ->. eexists _, _. split.
    + apply elem_of_app. right. apply list_elem_of_here.
    + apply strip_visible, order_id_visible.
Qed.

Lemma dispatch_outputs_announced L seen src key o ok e :
  creation_logged L seen o ->
  e ∈ dispatch_outputs L AtStatusUpdate src key (strip o) ok ->
  announced seen e.
Proof.
  intros [Hk Hc]. unfold dispatch_outputs.
  intros [He|He]%elem_of_app Hs Hp.
  - destruct (kafka_producer L); [|by apply elem_of_nil in He].
    apply elem_of_cons in He as [->|He].
    + destruct Hk as (s & topic & key' & p & ok' & Hin & Hid); [done|].
      eexists. split; [exact Hin|]. split; [done|]. split; [done|].
      eexists _, _. split; [done|]. split; [done|].
      by rewrite Hid, strip_visible by apply order_id_visible.
    + destruct ok; [by apply elem_of_nil in He|].
      apply elem_of_cons in He as [->|He]; [by destruct Hp|].
      apply list_elem_of_singleton in He as ->. by destruct Hp.
  - destruct (output_console (cfg L)); [|by apply elem_of_nil in He].
    apply list_elem_of_singleton in He as ->.
    destruct Hc as (s & p & Hin & Hid); [done|].
    eexists. split; [exact Hin|]. split; [done|]. split; [done|].
    eexists _, _. split; [done|]. split; [done|].
    by rewrite Hid, strip_visible by apply order_id_visible.
Qed.

Lemma dispatch_outputs_creation_announced L seen src key p ok e :
  e ∈ dispatch_outputs L AtCreation src key p ok -> announced seen e.
Proof.
  unfold dispatch_outputs. intros [He|He]%elem_of_app Hs Hp.
  - destruct (kafka_producer L); [|by apply elem_of_nil in He].
    apply elem_of_cons in He as [->|He]; [discriminate Hs|].
    destruct ok; [by apply elem_of_nil in He|].
    apply elem_of_cons in He as [->|He]; [by destruct Hp|].
    apply list_elem_of_singleton in He as ->. by destruct Hp.
  - destruct (output_console (cfg L)); [|by apply elem_of_nil in He].
    apply list_elem_of_singleton in He as ->. discriminate Hs.
Qed.

(** The log [o], past its first [base] entries, is ordered and holds the
    creation record of every order object. *)
Definition log_ok (L : Locals) (base : list output) (st : Session) (o : list output) : Prop :=
  exists outs, o = base ++ outs /\ ordered_from [] outs /\
               Forall (creation_logged L outs) (store st).

Lemma loop_ordered orc L base ticks st w st' w' :
  reachable orc L st w -> loop orc ticks L st w = Ok (st', w') ->
  log_ok L base st (out w) -> log_ok L base st' (out w').
Proof.
  apply (loop_steps orc L (fun st o st' o' => log_ok L base st o -> log_ok L base st' o')).
  - done.
  - intros st1 o1 st2 o2 st3 o3 H12 H23 H1. by apply H23, H12.
  - intros now st1 w1 st2 w2 _ E (outs & Ho & Hord & Hlog).
    apply admission_inv in E as [(_ & -> & ->)|(_ & new & Hout & Hadm)].
    { by exists outs. }
    destruct Hadm as (sale0 & w3 & t & key & ok & delay & _ & _ & _ & Hrest).
    cbv zeta in Hrest. destruct Hrest as (_ & Hst & _ & _ & _ & _ & _ & _ & ->).
    eexists (outs ++ _). split; [by rewrite Hout, Ho, app_assoc|]. split.
    + apply ordered_from_app. split; [done|]. apply ordered_from_all.
      intros e He. by eapply dispatch_outputs_creation_announced.
    + rewrite Hst. apply Forall_app. split.
      * eapply Forall_impl; [exact Hlog|]. intros o. apply creation_logged_app.
      * apply Forall_singleton. rewrite Forall_forall in Hlog.
        destruct (dispatch_outputs_creation L (length (store st1)) key
                    (<["transition_time" := VFloat t]>
                       (<["last_status_change" := VFloat now]> sale0)) ok) as [Hk Hc].
        split.
        -- intros (s & topic & key' & p & ok' & Hin & Hid)%Hk.
           exists s, topic, key', p, ok'. split; [|done]. apply elem_of_app. by right.
        -- intros (s & p & Hin & Hid)%Hc.
           exists s, p. split; [|done]. apply elem_of_app. by right.
  - intros now k st1 w1 st2 w2 _ E (outs & Ho & Hord & Hlog).
    apply update_order_inv in E
      as (r & o & o' & s' & w3 & new & _ & Hr & Eadv & _ & Hout & Hupd).
    destruct Hupd as (Hst & _ & _ & _ & _ & _ & _ & key & ok & _ & ->).
    destruct (advance_inv _ _ _ _ _ _ Eadv) as (s & _ & Hres & _).
    apply advance_result_commercial in Hres as [Hsame _].
    assert (Hid : o' !! "order_id" = o !! "order_id").
    { apply Hsame. intros H. apply (bool_decide_eq_true_2 _) in H.
      vm_compute in H. discriminate H. }
    assert (Ho' : creation_logged L outs o').
    { apply (creation_logged_id _ _ o); [done|].
      rewrite Forall_forall in Hlog. apply Hlog. by eapply list_elem_of_lookup_2. }
    eexists (outs ++ _). split; [by rewrite Hout, Ho, app_assoc|]. split.
    + apply ordered_from_app. split; [done|]. apply ordered_from_all.
      intros e He. by eapply dispatch_outputs_announced.
    + rewrite Hst. apply Forall_insert.
      * eapply Forall_impl; [exact Hlog|]. intros o1. apply creation_logged_app.
      * by apply creation_logged_app.
  - intros st0 o (outs & -> & Hord & Hlog).
    exists (outs ++ [Line "Generator stopped by user."]).
    split; [by rewrite app_assoc|]. split.
    + apply ordered_from_app. split; [done|]. simpl. split; [|done]. by intros [=].
    + eapply Forall_impl; [exact Hlog|]. intros o1. apply creation_logged_app.
Qed.

(** X18. In a completed session, every status-update record comes after a
    creation record that was written to the same sink (broker or console)
    and carries the same order_id. *)
Theorem updates_follow_creation orc ticks c w0 st report w' :
  run_generator orc ticks c w0 = Ok ((st, report), w') ->
  exists outs, out w' = out w0 ++ outs /\
    forall before e after p,
      outs = before ++ e :: after ->
      site_of e = Some AtStatusUpdate -> payload_of e = Some p ->
      exists e' p',
        e' ∈ before /\ site_of e' = Some AtCreation /\ same_sink e e' = true /\
        payload_of e' = Some p' /\ p' !! "order_id" = p !! "order_id".
Proof.
  intros (L & st0 & w1 & w2 & E1 & E2 & E3)%run_generator_inv.
  assert (Hempty : store st0 = []).
  { revert E1.
    unfold setup, bind, time_time, random_uniform, random_random, random_getrandbits, ret.
    simpl. by intros [= <- <- <-]. }
  destruct (loop_ordered _ _ (out w0) _ _ _ _ _ (reach_setup _ _ _ _ _ _ E1) E2)
    as (outs1 & Ho1 & Hord & _).
  { exists []. rewrite app_nil_r, Hempty. split; [by eapply setup_quiet|]. by split. }
  destruct (shutdown_lines _ _ _ _ _ _ E3) as (outs2 & Ho2 & H2).
  exists (outs1 ++ outs2). split; [by rewrite Ho2, Ho1, app_assoc|].
  assert (Hall : ordered_from [] (outs1 ++ outs2)).
  { apply ordered_from_app. split; [done|]. apply ordered_from_all.
    rewrite Forall_forall in H2. intros e [msg ->]%H2. by intros [=]. }
  intros before e after p Heq Hs Hp. rewrite Heq in Hall.
  destruct (ordered_from_split _ _ _ _ Hall Hs) as (e' & Hin & Hc & Hsink & p0 & p' & Hp0 & Hp' & Hid).
  { by eexists. }
  rewrite Hp in Hp0. injection Hp0 as <-.
  by exists e', p'.
Qed.

Definition has_update (outs : list output) : bool :=
  existsb (fun e => match e with
                    | ToConsole AtStatusUpdate _ _ => true
                    | _ => false
                    end) outs.

Lemma updates_follow_creation_witness :
  exists st report w,
    run_generator demo_oracle 12 demo_config world0 = Ok ((st, report), w) /\
    has_update (out w) = true /\
    exists outs, out w = out world0 ++ outs /\
      forall before e after p,
        outs = before ++ e :: after ->
        site_of e = Some AtStatusUpdate -> payload_of e = Some p ->
        exists e' p',
          e' ∈ before /\ site_of e' = Some AtCreation /\ same_sink e e' = true /\
          payload_of e' = Some p' /\ p' !! "order_id" = p !! "order_id".
Proof.
  destruct (is_run_elim demo_oracle 12 demo_config (fun _ _ w => has_update (out w)))
    as (st & report & w & E & Ht).
  { vm_compute. reflexivity. }
  exists st, report, w. split; [exact E|]. split; [exact Ht|].
  exact (updates_follow_creation _ _ _ _ _ _ _ E).
Defined.

(** ** What every record carries (C8) *)






